(** * template-tag-common: a shallow embedding of [index.js]

    The development follows the layout of the module.
    - JavaScript strings are sequences of UTF-16 code units ([list Z]).
    - The regular expressions of the trimmer and [ESCAPE_SEQUENCE] are
      embedded as the matchers they denote, one alternative per case, with
      the greedy repetitions and their backtracking written out.
    - Objects live in a store ([gmap loc obj]), so that identity, aliasing,
      mutation in place and [Object.freeze] can be spoken about.  Objects
      are plain data: arrays of primitive elements, without holes, and named
      data properties; accessors and proxies are left out.  Numbers are the
      integers and [NaN].
    - A function that may throw returns a [result]; the closures built by
      [memoizedTagFunction] share one [memoTable], passed along as state
      together with a record of the helper calls.  The helpers are functions
      of the store in which they are called; they neither change it nor call
      the tagged function again. *)

From stdpp Require Import gmap strings list pretty.
From Stdlib Require Import ZArith Lia.

Open Scope Z_scope.

(** ** Strings *)

(** A JavaScript string: its UTF-16 code units, each in [0, 65536). *)
Definition jsstring := list Z.

(** An ASCII literal as a JavaScript string. *)
Definition js (s : string) : jsstring :=
  map (fun a => Z.of_nat (Ascii.nat_of_ascii a)) (String.list_ascii_of_string s).

Definition LF : Z := 10.
Definition CR : Z := 13.
Definition LS : Z := 8232.   (* U+2028 *)
Definition PS : Z := 8233.   (* U+2029 *)
Definition BACKSLASH : Z := 92.

(** The character class [[\n\r\u2028\u2029]]. *)
Definition isLineTerminator (c : Z) : bool :=
  (c =? LF) || (c =? CR) || (c =? LS) || (c =? PS).

(** The character class [[\t\u000B\u000C \u00A0\uFEFF]]. *)
Definition isWhitespace (c : Z) : bool :=
  (c =? 9) || (c =? 11) || (c =? 12) || (c =? 32) || (c =? 160) || (c =? 65279).

(** [[0-7]], [[0-3]], [[4-7]] and [[0-9A-Fa-f]]. *)
Definition isOctalDigit (c : Z) : bool := (48 <=? c) && (c <=? 55).
Definition isOctal03 (c : Z) : bool := (48 <=? c) && (c <=? 51).
Definition isOctal47 (c : Z) : bool := (52 <=? c) && (c <=? 55).
Definition isHexDigit (c : Z) : bool :=
  ((48 <=? c) && (c <=? 57)) || ((65 <=? c) && (c <=? 70)) || ((97 <=? c) && (c <=? 102)).

(** [LINE_TERMINATORS.exec(s)] is not null: [/[\n\r\u2028\u2029]+/] is neither
    anchored nor global, so it finds a terminator anywhere in [s]. *)
Definition LINE_TERMINATORS_exec (s : jsstring) : bool := existsb isLineTerminator s.

(** [s.split(LINE_TERMINATORS)]: the separator is a maximal run of line
    terminators.  [inRun] tells that the previous code unit belonged to the
    separator being consumed. *)
Fixpoint splitFrom (inRun : bool) (s : jsstring) : list jsstring :=
  match s with
  | [] => [[]]
  | c :: rest =>
      if isLineTerminator c then
        if inRun then splitFrom true rest else [] :: splitFrom true rest
      else
        match splitFrom false rest with
        | line :: lines => (c :: line) :: lines
        | [] => [[c]]
        end
  end.

Definition split_LINE_TERMINATORS (s : jsstring) : list jsstring := splitFrom false s.

(** [WS_RUN.exec(line)[0]]: [/^[\t\u000B\u000C \u00A0\uFEFF]*/] always matches,
    greedily, at the start of the line. *)
Fixpoint WS_RUN_exec (line : jsstring) : jsstring :=
  match line with
  | c :: rest => if isWhitespace c then c :: WS_RUN_exec rest else []
  | [] => []
  end.

(** [commonPrefixOf(a, b)]: the index [i] of the loop walks both strings. *)
Fixpoint commonPrefixOf (a b : jsstring) : jsstring :=
  match a, b with
  | x :: a', y :: b' => if x =? y then x :: commonPrefixOf a' b' else []
  | _, _ => []
  end.

(** Is [p] a prefix of [s]?  (Literal characters of a pattern.) *)
Fixpoint startsWith (p s : jsstring) : bool :=
  match p, s with
  | [], _ => true
  | x :: p', y :: s' => (x =? y) && startsWith p' s'
  | _ :: _, [] => false
  end.

(** ** Global replacement

    [s.replace(re, f)] for a global [re] whose matches are never empty: the
    scan goes left to right; [matchAt] is the match of [re] tried at the
    current position and returns the length of the match and its
    replacement.  [skip] counts the code units of the last match that are
    still to be passed over. *)
Fixpoint replaceAll (matchAt : jsstring -> option (nat * jsstring))
    (skip : nat) (s : jsstring) : jsstring :=
  match s with
  | [] => []
  | c :: rest =>
      match skip with
      | S k => replaceAll matchAt k rest
      | O =>
          match matchAt s with
          | Some (len, repl) => repl ++ replaceAll matchAt (Nat.pred len) rest
          | None => c :: replaceAll matchAt O rest
          end
      end
  end.

(** The longest run of line terminators at the start of [s]. *)
Fixpoint terminatorRun (s : jsstring) : nat :=
  match s with
  | c :: rest => if isLineTerminator c then S (terminatorRun rest) else O
  | [] => O
  end.

(** [([\n\r\u2028\u2029]+)commonPrefix] tried at the start of [s]: the greedy
    run, then the literal prefix; on failure the run gives back one terminator
    at a time ([k] terminators are taken, at least one). *)
Fixpoint backtrackRun (commonPrefix : jsstring) (k : nat) (s : jsstring) : option nat :=
  match k with
  | O => None
  | S k' =>
      if startsWith commonPrefix (drop k s) then Some k
      else backtrackRun commonPrefix k' s
  end.

(** The match of [prefixPattern] at the start of [s] and its replacement ['$1']. *)
Definition prefixPattern_matchAt (commonPrefix : jsstring) (s : jsstring)
  : option (nat * jsstring) :=
  match backtrackRun commonPrefix (terminatorRun s) s with
  | Some k => Some ((k + length commonPrefix)%nat, take k s)
  | None => None
  end.

(** The two shapes [prefixPattern] takes in [trimCommonWhitespaceFromLines]. *)
Inductive prefixPattern :=
  | LineBreakThenPrefix (commonPrefix : jsstring)  (* new RegExp(`(...)${commonPrefix}`, 'g') *)
  | NeverMatches.                                  (* /(?!)/ *)

(** [chunk.replace(prefixPattern, '$1')]. *)
Definition replace_prefixPattern (p : prefixPattern) (chunk : jsstring) : jsstring :=
  match p with
  | LineBreakThenPrefix commonPrefix =>
      replaceAll (prefixPattern_matchAt commonPrefix) O chunk
  | NeverMatches => chunk
  end.

(** [LINE_TERMINATOR_AT_START]: [/^(?:\r\n?|[\n\u2028\u2029])/], the length of
    its match at the start of [s]. *)
Definition LINE_TERMINATOR_AT_START_match (s : jsstring) : option nat :=
  match s with
  | c :: rest =>
      if c =? CR then
        match rest with
        | d :: _ => if d =? LF then Some 2%nat else Some 1%nat
        | [] => Some 1%nat
        end
      else if (c =? LF) || (c =? LS) || (c =? PS) then Some 1%nat
      else None
  | [] => None
  end.

(** [s.replace(LINE_TERMINATOR_AT_START, '')]. *)
Definition replace_LINE_TERMINATOR_AT_START (s : jsstring) : jsstring :=
  match LINE_TERMINATOR_AT_START_match s with
  | Some n => drop n s
  | None => s
  end.

(** [LINE_TERMINATOR_AT_END]: [/(?:\r\n?|[\n\r\u2028\u2029])$/] tried at the
    start of [s]; [$] asks that the match ends the input.  The first
    alternative takes the optional [\n] greedily and gives it back if [$]
    fails. *)
Definition LINE_TERMINATOR_AT_END_matchAt (s : jsstring) : bool :=
  match s with
  | c :: rest =>
      (if c =? CR then
         match rest with
         | [d] => (d =? LF)
         | [] => true
         | _ => false
         end
       else false)
      || (isLineTerminator c && match rest with [] => true | _ => false end)
  | [] => false
  end.

(** [s.replace(LINE_TERMINATOR_AT_END, '')]: not global, so the leftmost
    position where the pattern matches is cut; the match reaches the end. *)
Fixpoint replace_LINE_TERMINATOR_AT_END (s : jsstring) : jsstring :=
  match s with
  | [] => []
  | c :: rest =>
      if LINE_TERMINATOR_AT_END_matchAt s then []
      else c :: replace_LINE_TERMINATOR_AT_END rest
  end.

(** ** Escape sequences ([cook]) *)

(** The number of leading code units of [s] in the class [p], at most [max]
    (a greedy bounded repetition [{0,max}]). *)
Fixpoint classRun (p : Z -> bool) (max : nat) (s : jsstring) : nat :=
  match max, s with
  | S m, c :: rest => if p c then S (classRun p m rest) else O
  | _, _ => O
  end.

(** [ESCAPE_SEQUENCE] tried at the start of [s]; the length of the match.
    After the backslash the alternatives are tried in the order of the source:
    [[^ux0-7\r]], [x[0-9A-Fa-f]{0,2}], [u[0-9A-Fa-f]{4}], [[0-3][0-7]{0,2}],
    [[4-7][0-7]?], [\r\n?].  Nothing follows the alternation, so the greedy
    repetitions never give anything back. *)
Definition ESCAPE_SEQUENCE_matchAt (s : jsstring) : option nat :=
  match s with
  | c :: d :: rest =>
      if c =? BACKSLASH then
        if negb ((d =? 117) || (d =? 120) || isOctalDigit d || (d =? CR)) then Some 2%nat
        else if d =? 120 then Some (2 + classRun isHexDigit 2 rest)%nat
        else if d =? 117 then
          if (classRun isHexDigit 4 rest =? 4)%nat then Some 6%nat else None
        else if isOctal03 d then Some (2 + classRun isOctalDigit 2 rest)%nat
        else if isOctal47 d then Some (2 + classRun isOctalDigit 1 rest)%nat
        else if d =? CR then
          match rest with
          | e :: _ => if e =? LF then Some 3%nat else Some 2%nat
          | [] => Some 2%nat
          end
        else None
      else None
  | _ => None
  end.

(** The value of a digit in [parseInt]: [0-9], [a-z], [A-Z]. *)
Definition digitValue (c : Z) : option Z :=
  if (48 <=? c) && (c <=? 57) then Some (c - 48)
  else if (97 <=? c) && (c <=? 122) then Some (c - 87)
  else if (65 <=? c) && (c <=? 90) then Some (c - 55)
  else None.

(** The digits of [parseInt(s, radix)]: the longest prefix of valid digits,
    folded most significant first; [acc] is [None] before the first digit. *)
Fixpoint parseDigits (radix : Z) (acc : option Z) (s : jsstring) : option Z :=
  match s with
  | c :: rest =>
      match digitValue c with
      | Some v =>
          if v <? radix then parseDigits radix (Some (default 0 acc * radix + v)) rest
          else acc
      | None => acc
      end
  | [] => acc
  end.

(** [parseInt(s, radix)] for the strings [cook] passes: digits only, neither
    blanks, sign nor [0x] prefix.  [None] is [NaN]. *)
Definition parseInt (s : jsstring) (radix : Z) : option Z := parseDigits radix None s.

(** [String.fromCharCode(n)]: [ToUint16], which sends [NaN] to 0. *)
Definition fromCharCode (n : option Z) : jsstring :=
  match n with
  | Some v => [v mod 65536]
  | None => [0]
  end.

(** An entry of [SV_TABLE]: a string, or a function of the escape sequence. *)
Inductive svEntry :=
  | SvString (sv : jsstring)
  | SvFunction (f : jsstring -> jsstring).

(** [SV_TABLE[chr]]; [None] is [undefined]. *)
Definition SV_TABLE (chr : Z) : option svEntry :=
  if chr =? 98 then Some (SvString [8])              (* b *)
  else if chr =? 116 then Some (SvString [9])        (* t *)
  else if chr =? 110 then Some (SvString [10])       (* n *)
  else if chr =? 118 then Some (SvString [11])       (* v *)
  else if chr =? 102 then Some (SvString [12])       (* f *)
  else if chr =? 114 then Some (SvString [13])       (* r *)
  else if (chr =? LF) || (chr =? CR) || (chr =? LS) || (chr =? PS) then Some (SvString [])
  else if (chr =? 120) || (chr =? 117) then
    Some (SvFunction (fun x => fromCharCode (parseInt (drop 2 x) 16)))
  else if isOctalDigit chr then
    Some (SvFunction (fun x => fromCharCode (parseInt (drop 1 x) 8)))
  else None.

(** The replacement callback of [cook]. *)
Definition cookEscape (escSeq : jsstring) : jsstring :=
  match escSeq with
  | _ :: chr :: _ =>
      match SV_TABLE chr with
      | None => [chr]
      | Some (SvFunction repl) => repl escSeq
      | Some (SvString repl) => repl
      end
  | _ => []
  end.

(** [cook(trv)]. *)
Definition cook (trv : jsstring) : jsstring :=
  replaceAll
    (fun s => match ESCAPE_SEQUENCE_matchAt s with
              | Some len => Some (len, cookEscape (take len s))
              | None => None
              end)
    O trv.

(** ** Values and the store *)

(** Primitive values.  Numbers are the integers and [NaN]. *)
Inductive prim :=
  | PUndefined
  | PNull
  | PBool (b : bool)
  | PNum (n : Z)
  | PNaN
  | PStr (s : jsstring).

Definition loc := positive.

Inductive value :=
  | VPrim (p : prim)
  | VRef (l : loc).

#[global] Instance prim_eq_dec : EqDecision prim.
Proof. solve_decision. Defined.

#[global] Instance value_eq_dec : EqDecision value.
Proof. solve_decision. Defined.

(** An object: an array (whose [length] is that of [elems]) or a plain
    object; [props] holds the named properties, such as [raw].  Array elements
    are primitive. *)
Record obj := Obj {
  isArray : bool;
  frozen : bool;
  elems : list prim;
  props : gmap string value
}.

Abbreviation heap := (gmap loc obj).

(** What a call does: it returns or it throws. *)
Inductive exn :=
  | TypeError                 (* raised by the engine *)
  | Error (message : value)   (* new Error(message): the argument as it is given;
                                 the constructor turns it into a string *)
  | Thrown (exc : value).     (* a value thrown by a helper, passed on as it is *)

Inductive result (A : Type) :=
  | Ok (a : A)
  | Throw (e : exn).
Arguments Ok {A} a.
Arguments Throw {A} e.

Definition bind {A B} (r : result A) (k : A -> result B) : result B :=
  match r with
  | Ok a => k a
  | Throw e => Throw e
  end.

Notation "'let*' x ':=' r 'in' k" := (bind r (fun x => k))
  (at level 10, x name, r at level 100, k at level 200).

(** [String(p)]; an integer prints in decimal (as it does below 10^21). *)
Definition ToString (p : prim) : jsstring :=
  match p with
  | PUndefined => js "undefined"
  | PNull => js "null"
  | PBool true => js "true"
  | PBool false => js "false"
  | PNum n => js (pretty n)
  | PNaN => js "NaN"
  | PStr s => s
  end.

(** ** The trimmer *)

(** [raw[i]]: [undefined] out of range. *)
Definition elemAt (arr : list prim) (i : nat) : prim := default PUndefined (arr !! i).

(** The inner loop of [commonPrefixOfTemplateStrings] over [lines[1..]];
    [None] is [null]. *)
Fixpoint scanLines (commonPrefix : option jsstring) (lines : list jsstring)
  : option jsstring :=
  match lines with
  | [] => commonPrefix
  | line :: more =>
      let prefix := WS_RUN_exec line in
      let commonPrefix' :=
        match commonPrefix with
        | None => prefix
        | Some cp => commonPrefixOf cp prefix
        end in
      match commonPrefix' with
      | [] => Some commonPrefix'                      (* break *)
      | _ :: _ => scanLines (Some commonPrefix') more
      end
  end.

(** [commonPrefixOfTemplateStrings({ raw, length })]; [None] is [null]. *)
Definition commonPrefixOfTemplateStrings (raw : list prim) (length : nat)
  : option jsstring :=
  if negb (LINE_TERMINATORS_exec (ToString (elemAt raw 0))) then Some []
  else
    fold_left
      (fun commonPrefix i =>
         scanLines commonPrefix
           (tail (split_LINE_TERMINATORS (ToString (elemAt raw i)))))
      (seq 0 length) None.

Record trimOptions := TrimOptions {
  trimEolAtStart : bool;
  trimEolAtEnd : bool
}.

(** [chunk.replace(...)] on an element that is a primitive: among the
    primitives only strings have the method. *)
Definition callReplace (f : jsstring -> jsstring) (chunk : prim) : result jsstring :=
  match chunk with
  | PStr s => Ok (f s)
  | _ => Throw TypeError
  end.

(** [arr.map(f)] for an [f] that may throw. *)
Fixpoint mapM {A B} (f : A -> result B) (l : list A) : result (list B) :=
  match l with
  | [] => Ok []
  | x :: l' => let* y := f x in let* ys := mapM f l' in Ok (y :: ys)
  end.

(** [arr[i] = arr[i].replace(re, '')] at an index the array has; the index
    [length - 1] of the source is a number that may be -1. *)
Definition replaceAt (f : jsstring -> jsstring) (i : Z) (arr : list jsstring)
  : result (list jsstring) :=
  if i <? 0 then Throw TypeError
  else
    match arr !! Z.to_nat i with
    | Some s => Ok (<[Z.to_nat i := f s]> arr)
    | None => Throw TypeError
    end.

(** The choice of [prefixPattern]; [None] is the fast path. *)
Definition choosePrefixPattern (commonPrefix : option jsstring) (o : trimOptions)
  : option prefixPattern :=
  match commonPrefix with
  | Some (c :: cp) => Some (LineBreakThenPrefix (c :: cp))
  | _ =>
      if trimEolAtStart o || trimEolAtEnd o then Some NeverMatches
      else None
  end.

(** The body of [trimCommonWhitespaceFromLines] below the fast path:
    [trimmedRaw] as it stands when [trimmedCooked] is computed. *)
Definition trimmedRawOf (p : prefixPattern) (raw : list prim) (length : nat)
    (o : trimOptions) : result (list jsstring) :=
  let* trimmedRaw := mapM (callReplace (replace_prefixPattern p)) raw in
  let* trimmedRaw :=
    (if trimEolAtStart o
     then replaceAt replace_LINE_TERMINATOR_AT_START 0 trimmedRaw
     else Ok trimmedRaw) in
  if trimEolAtEnd o
  then replaceAt replace_LINE_TERMINATOR_AT_END (Z.of_nat length - 1) trimmedRaw
  else Ok trimmedRaw.

(** ** Reading the store *)

Definition undefined : value := VPrim PUndefined.
Definition VBool (b : bool) : value := VPrim (PBool b).
Definition VStr (s : jsstring) : value := VPrim (PStr s).

(** [ToBoolean]. *)
Definition truthy (v : value) : bool :=
  match v with
  | VRef _ => true
  | VPrim PUndefined | VPrim PNull | VPrim PNaN => false
  | VPrim (PBool b) => b
  | VPrim (PNum n) => negb (n =? 0)
  | VPrim (PStr s) => match s with [] => false | _ => true end
  end.

(** [a === b]: identity on objects, contents on strings, and [NaN] differs
    from itself. *)
Definition strictEq (a b : value) : bool :=
  match a, b with
  | VRef l, VRef l' => bool_decide (l = l')
  | VPrim PUndefined, VPrim PUndefined => true
  | VPrim PNull, VPrim PNull => true
  | VPrim (PBool x), VPrim (PBool y) => Bool.eqb x y
  | VPrim (PNum x), VPrim (PNum y) => x =? y
  | VPrim (PStr x), VPrim (PStr y) => bool_decide (x = y)
  | _, _ => false
  end.

(** [typeof val === 'string'] on an element. *)
Definition isString (val : prim) : bool :=
  match val with
  | PStr _ => true
  | _ => false
  end.

(** [Array.isArray(v)]. *)
Definition Array_isArray (h : heap) (v : value) : bool :=
  match v with
  | VRef l => match h !! l with Some o => isArray o | None => false end
  | VPrim _ => false
  end.

(** [Object.isFrozen(v)]: primitives are frozen. *)
Definition Object_isFrozen (h : heap) (v : value) : bool :=
  match v with
  | VRef l => match h !! l with Some o => frozen o | None => false end
  | VPrim _ => true
  end.

(** [v.name] for the names the module reads ([raw], [length], [message]).
    Reading a property of [null] or [undefined] throws; strings and arrays
    have their [length]; a reference the store does not hold cannot be read
    (a closed store has none). *)
Definition getProp (h : heap) (v : value) (name : string) : result value :=
  match v with
  | VPrim PUndefined | VPrim PNull => Throw TypeError
  | VPrim (PStr s) =>
      if String.eqb name "length" then Ok (VPrim (PNum (Z.of_nat (length s))))
      else Ok undefined
  | VPrim _ => Ok undefined
  | VRef l =>
      match h !! l with
      | Some o =>
          if isArray o && String.eqb name "length"
          then Ok (VPrim (PNum (Z.of_nat (length (elems o)))))
          else Ok (default undefined (props o !! name))
      | None => Throw TypeError
      end
  end.

(** The elements of the array [v] refers to. *)
Definition arrayElems (h : heap) (v : value) : list prim :=
  match v with
  | VRef l => match h !! l with Some o => elems o | None => [] end
  | VPrim _ => []
  end.

(** [a && b], on values: [b] is evaluated only if [a] is truthy. *)
Definition js_and (a : value) (b : result value) : result value :=
  if truthy a then b else Ok a.

(** [every.call(arr, isString)] for the arrays it is called on: each call
    site comes after [Array.isArray(arr)] has answered true. *)
Definition every_isString (h : heap) (arr : value) : bool :=
  forallb isString (arrayElems h arr).

Definition isStringArray (h : heap) (arr : value) : bool :=
  Array_isArray h arr && every_isString h arr.

Definition calledAsTemplateTagQuick (h : heap) (firstArgument argumentCount : value)
  : result value :=
  if truthy firstArgument && Object_isFrozen h firstArgument
     && Array_isArray h firstArgument
  then
    let* raw := getProp h firstArgument "raw" in
    let* length := getProp h firstArgument "length" in
    js_and (VBool (strictEq length argumentCount))
      (js_and (VBool (truthy raw))
         (let* rawLength := getProp h raw "length" in
          js_and (VBool (strictEq length rawLength))
            (js_and (VBool (Object_isFrozen h raw))
               (Ok (VBool (Array_isArray h raw))))))
  else Ok (VBool false).

Definition calledAsTemplateTag (h : heap) (firstArgument argumentCount : value)
  : result value :=
  let* quick := calledAsTemplateTagQuick h firstArgument argumentCount in
  js_and quick
    (js_and (VBool (every_isString h firstArgument))
       (let* raw := getProp h firstArgument "raw" in
        Ok (VBool (every_isString h raw)))).

(** [String(v)] inside a template literal; an object prints through its
    [toString], which for a plain object is the text below. *)
Definition ToStringV (v : value) : jsstring :=
  match v with
  | VPrim p => ToString p
  | VRef _ => js "[object Object]"
  end.

Definition requireValidTagInputs (h : heap) (staticStrings : value)
    (dynamicValues : list value) : result unit :=
  let* raw := getProp h staticStrings "raw" in
  let* length := getProp h staticStrings "length" in
  let* rawLength := getProp h raw "length" in
  if negb (strictEq length rawLength && isStringArray h staticStrings
           && isStringArray h raw)
  then Throw (Error (VStr (js "Invalid static strings")))
  else
    let nDynamic := VPrim (PNum (Z.of_nat (List.length dynamicValues))) in
    if negb (strictEq (VPrim (PNum (Z.of_nat (List.length dynamicValues) + 1))) length)
    then Throw (Error (VStr (js "Too many or too few dynamic values: "
                               ++ ToStringV length ++ js " != " ++ ToStringV nDynamic)))
    else Ok ().

(** ** [trimCommonWhitespaceFromLines] on the store *)

(** A new object at a location the store does not hold yet. *)
Definition alloc (h : heap) (o : obj) : loc * heap :=
  let l := fresh (dom h) in (l, <[l := o]> h).

(** [Object.freeze(l)]. *)
Definition Object_freeze (h : heap) (l : loc) : heap :=
  match h !! l with
  | Some o => <[l := Obj (isArray o) true (elems o) (props o)]> h
  | None => h
  end.

(** [l.name = v]: ignored on a frozen object (the assignment fails). *)
Definition setProp (h : heap) (l : loc) (name : string) (v : value) : heap :=
  match h !! l with
  | Some o =>
      if frozen o then h
      else <[l := Obj (isArray o) (frozen o) (elems o) (<[name := v]> (props o))]> h
  | None => h
  end.

(** [l[i] = p] inside the bounds of an array: ignored on a frozen array. *)
Definition setElem (h : heap) (l : loc) (i : nat) (p : prim) : heap :=
  match h !! l with
  | Some o =>
      if frozen o then h
      else <[l := Obj (isArray o) (frozen o) (<[i := p]> (elems o)) (props o)]> h
  | None => h
  end.

(** [l.push(p)]: ignored on a frozen array (the call throws). *)
Definition pushElem (h : heap) (l : loc) (p : prim) : heap :=
  match h !! l with
  | Some o =>
      if frozen o then h
      else <[l := Obj (isArray o) (frozen o) (elems o ++ [p]) (props o)]> h
  | None => h
  end.

(** A template object as the trimmer reads it: an array whose [raw] is an
    array.  [None] for any other shape, which this embedding leaves out. *)
Definition templateObject (h : heap) (templateStrings : loc) : option (obj * obj) :=
  match h !! templateStrings with
  | Some ts =>
      if isArray ts then
        match props ts !! "raw" with
        | Some (VRef rawLoc) =>
            match h !! rawLoc with
            | Some raw => if isArray raw then Some (ts, raw) else None
            | None => None
            end
        | _ => None
        end
      else None
  | None => None
  end.

(** [trimCommonWhitespaceFromLines(templateStrings, options)]: the value
    returned (or the exception) and the store after the call. *)
Definition trimCommonWhitespaceFromLines (h : heap) (templateStrings : loc)
    (o : trimOptions) : option (result loc * heap) :=
  match templateObject h templateStrings with
  | None => None
  | Some (ts, rawArr) =>
      let raw := elems rawArr in
      let length := List.length (elems ts) in
      let commonPrefix := commonPrefixOfTemplateStrings raw length in
      match choosePrefixPattern commonPrefix o with
      | None => Some (Ok templateStrings, h)                       (* fast path *)
      | Some prefixPattern =>
          match trimmedRawOf prefixPattern raw length o with
          | Throw e => Some (Throw e, h)
          | Ok trimmedRawElems =>
              let '(trimmedRaw, h) := alloc h (Obj true false (PStr <$> trimmedRawElems) ∅) in
              let '(trimmedCooked, h) :=
                alloc h (Obj true false (PStr <$> (cook <$> trimmedRawElems)) ∅) in
              let h := setProp h trimmedCooked "raw" (VRef trimmedRaw) in
              let h := Object_freeze h trimmedRaw in
              let h := Object_freeze h trimmedCooked in
              Some (Ok trimmedCooked, h)
          end
      end
  end.

(** ** [memoizedTagFunction] *)

(** What a helper does when called: it returns, or throws a value. *)
Inductive completion (A : Type) :=
  | Returns (a : A)
  | Throws (exc : value).
Arguments Returns {A} a.
Arguments Throws {A} exc.

(** The calls of the helpers, most recent first. *)
Inductive event :=
  | StaticHelperCalled (staticStrings : value)
  | ResultHelperCalled (options staticStrings : value) (dynamicValues : list value).

#[global] Instance event_eq_dec : EqDecision event.
Proof. solve_decision. Defined.

Section MemoizedTagFunction.

(** [T]: what [computeStaticHelper] returns, with [undefined] among it;
    [R]: what [computeResultHelper] returns.  The helpers read the store
    of the moment they are called in. *)
Variables T R : Type.
Variable undefinedT : T.
Variable computeStaticHelper : heap -> value -> completion T.
Variable computeResultHelper :
  value -> T -> heap -> value -> list value -> completion R.

(** [{ pass: ... }] or [{ fail: ... }]. *)
Record staticState := StaticState {
  pass : option T;
  fail : option value
}.

(** The variables the closures share: [memoTable], keyed by identity, and
    the record of the helper calls made so far. *)
Record cache := Cache {
  memoTable : gmap loc staticState;
  calls : list event
}.

(** [memoTable.get(key)]: [undefined] for a key that is not an object. *)
Definition memoTable_get (st : cache) (key : value) : option staticState :=
  match key with
  | VRef l => memoTable st !! l
  | VPrim _ => None
  end.

(** [memoTable.set(key, s)]: a [WeakMap] takes objects as keys only. *)
Definition memoTable_set (st : cache) (key : value) (s : staticState)
  : result cache :=
  match key with
  | VRef l => Ok (Cache (<[l := s]> (memoTable st)) (calls st))
  | VPrim _ => Throw TypeError
  end.

Definition logCall (st : cache) (e : event) : cache :=
  Cache (memoTable st) (e :: calls st).

(** The end of [staticStateFor]: [failure] is the exception caught in this
    call, if any.  [Error fail] is [new Error(staticState.fail)]: its message
    is [fail] itself when [fail] is a string. *)
Definition staticStateResult (staticState : staticState) (failure : option value)
  : result T :=
  if truthy (default undefined (fail staticState)) then
    match failure with
    | Some exc =>
        if truthy exc then Throw (Thrown exc)
        else Throw (Error (default undefined (fail staticState)))
    | None => Throw (Error (default undefined (fail staticState)))
    end
  else Ok (default undefinedT (pass staticState)).

Definition staticStateFor (h : heap) (staticStrings : value) (st : cache)
  : result T * cache :=
  match (if Object_isFrozen h staticStrings
         then let* raw := getProp h staticStrings "raw" in
              Ok (Object_isFrozen h raw)
         else Ok false) with
  | Throw e => (Throw e, st)
  | Ok canMemoize =>
      let cached := if canMemoize then memoTable_get st staticStrings else None in
      match cached with
      | Some staticState => (staticStateResult staticState None, st)
      | None =>
          let st := logCall st (StaticHelperCalled staticStrings) in
          let computed :=
            match computeStaticHelper h staticStrings with
            | Returns t => Ok (StaticState (Some t) None, None)
            | Throws exc =>
                let* message := getProp h exc "message" in
                Ok (StaticState None
                      (Some (if truthy message then message
                             else VStr (js "Failure"))),
                    Some exc)
            end in
          match computed with
          | Throw e => (Throw e, st)
          | Ok (staticState, failure) =>
              if canMemoize then
                match memoTable_set st staticStrings staticState with
                | Throw e => (Throw e, st)
                | Ok st => (staticStateResult staticState failure, st)
                end
              else (staticStateResult staticState failure, st)
          end
      end
  end.

(** What a call of a tagged function comes to. *)
Inductive outcome :=
  | Configured (options : value)   (* the function [usingOptions(options)] *)
  | Returned (r : R)
  | Threw (e : exn).

(** A call [usingOptions(options)(...args)] in the store [h]. *)
Definition usingOptions (options : value) (h : heap) (args : list value)
    (st : cache) : outcome * cache :=
  let staticStringsOrOptions := hd undefined args in
  let dynamicValues := tl args in
  if (List.length dynamicValues =? 0)%nat && negb (Array_isArray h staticStringsOrOptions)
  then (Configured staticStringsOrOptions, st)
  else
    let staticStrings := staticStringsOrOptions in
    match requireValidTagInputs h staticStrings dynamicValues with
    | Throw e => (Threw e, st)
    | Ok _ =>
        match staticStateFor h staticStrings st with
        | (Throw e, st) => (Threw e, st)
        | (Ok t, st) =>
            let st := logCall st (ResultHelperCalled options staticStrings dynamicValues) in
            match computeResultHelper options t h staticStrings dynamicValues with
            | Returns r => (Returned r, st)
            | Throws exc => (Threw (Thrown exc), st)
            end
        end
    end.

(** [memoizedTagFunction(computeStaticHelper, computeResultHelper)]: a new
    [memoTable] and the function [usingOptions({})], whose options object
    is new in the store. *)
Definition memoizedTagFunction (h : heap) : value * cache * heap :=
  let '(options, h) := alloc h (Obj false false [] ∅) in
  (VRef options, Cache ∅ [], h).

(** A run of calls through tagged functions sharing the cache, each in
    the store of its moment; the outcomes in order. *)
Fixpoint runCalls (cs : list (value * heap * list value)) (st : cache)
  : list outcome * cache :=
  match cs with
  | [] => ([], st)
  | (options, h, args) :: cs' =>
      let '(out, st) := usingOptions options h args st in
      let '(outs, st) := runCalls cs' st in
      (out :: outs, st)
  end.

(** How often [computeStaticHelper] was called on [staticStrings]. *)
Definition staticHelperCalls (staticStrings : value) (st : cache) : nat :=
  List.length
    (filter (fun e => e = StaticHelperCalled staticStrings) (calls st)).

End MemoizedTagFunction.

Arguments StaticState {T} pass fail.
Arguments pass {T} s.
Arguments fail {T} s.
Arguments Cache {T} memoTable calls.
Arguments memoTable {T} c.
Arguments calls {T} c.
Arguments memoTable_get {T} st key.
Arguments memoTable_set {T} st key s.
Arguments logCall {T} st e.
Arguments staticStateResult {T} undefinedT staticState failure.
Arguments staticStateFor {T} undefinedT computeStaticHelper h staticStrings st.
Arguments Configured {R} options.
Arguments Returned {R} r.
Arguments Threw {R} e.
Arguments usingOptions {T R} undefinedT computeStaticHelper computeResultHelper
  options h args st.
Arguments memoizedTagFunction {T} h.
Arguments runCalls {T R} undefinedT computeStaticHelper computeResultHelper cs st.
Arguments staticHelperCalls {T} staticStrings st.

Arguments js : simpl never.
Arguments getProp : simpl never.
Arguments ToStringV : simpl never.
Arguments requireValidTagInputs : simpl never.

(** ** Well-formed stores and chunk sequences *)

(** A reference is allocated when the store holds its object. *)
Definition allocated (h : heap) (v : value) : Prop :=
  match v with
  | VRef l => is_Some (h !! l)
  | VPrim _ => True
  end.

(** A closed store: every property of every object is allocated. *)
Definition closedHeap (h : heap) : Prop :=
  map_Forall (fun _ o => map_Forall (fun _ v => allocated h v) (props o)) h.

#[global] Instance allocated_dec h v : Decision (allocated h v).
Proof. destruct v; simpl; apply _. Defined.

#[global] Instance closedHeap_dec h : Decision (closedHeap h).
Proof. unfold closedHeap. apply _. Defined.

(** ** Stores used in the examples *)

(** A frozen array of strings at [l] whose [raw], frozen too, is at [rawLoc]. *)
Definition withTemplate (l rawLoc : loc) (isFrozen : bool) (cooked raw : list jsstring)
    (h : heap) : heap :=
  <[l := Obj true isFrozen (PStr <$> cooked) {["raw" := VRef rawLoc]}]>
    (<[rawLoc := Obj true isFrozen (PStr <$> raw) ∅]> h).

(** The template object of [tag`foo${...}bar`]. *)
Definition fooBarStore : heap :=
  withTemplate 1%positive 2%positive true [js "foo"; js "bar"] [js "foo"; js "bar"] ∅.

(** ** The shape of a tagged call, in the words of the data model *)

(** The chunk sequence is an array of strings whose [raw] is an array of
    strings of the same length, and there is one dynamic value fewer. *)
Definition wellShaped (h : heap) (staticStrings : value) (dynamicValues : list value)
  : Prop :=
  exists l o rawLoc r,
    staticStrings = VRef l /\ h !! l = Some o /\ isArray o = true
    /\ props o !! "raw" = Some (VRef rawLoc)
    /\ h !! rawLoc = Some r /\ isArray r = true
    /\ List.length (elems o) = List.length (elems r)
    /\ forallb isString (elems o) = true
    /\ forallb isString (elems r) = true
    /\ (List.length dynamicValues + 1 = List.length (elems o))%nat.

(** The exceptions of the shape validation: the two errors it constructs and
    the engine's [TypeError] for a property read off [null] or [undefined]. *)
Definition InvalidInput (e : exn) : Prop :=
  e = TypeError
  \/ e = Error (VStr (js "Invalid static strings"))
  \/ exists counts,
       e = Error (VStr (js "Too many or too few dynamic values: " ++ counts)).

(** The chunk sequence at [l] is frozen in the store [h], and its raw is. *)
Definition memoizable (h : heap) (l : loc) : bool :=
  Object_isFrozen h (VRef l)
  && match getProp h (VRef l) "raw" with
     | Ok raw => Object_isFrozen h raw
     | Throw _ => false
     end.

(** A well-shaped call on the chunk sequence at [l], through any of the
    tagged functions. *)
Definition callOn (l : loc) (c : value * heap * list value) : Prop :=
  wellShaped c.1.2 (VRef l) (tl c.2) /\ hd undefined c.2 = VRef l.

(** The outcome of a call whose static state is [t]. *)
Definition combine {T R : Type}
    (computeResultHelper : value -> T -> heap -> value -> list value -> completion R)
    (t : T) (c : value * heap * list value) : outcome R :=
  match computeResultHelper c.1.1 t c.1.2 (hd undefined c.2) (tl c.2) with
  | Returns r => Returned r
  | Throws exc => Threw (Thrown exc)
  end.

(** The helpers of the test suite: the static helper returns
    [strings.length], the result helper what it was given. *)
Definition lengthHelper (h : heap) (strings : value) : completion value :=
  match getProp h strings "length" with
  | Ok n => Returns n
  | Throw _ => Throws undefined
  end.

Definition echoHelper (options computed : value) (h : heap) (statics : value)
    (dynamics : list value) : completion (value * value * list prim * list value) :=
  Returns (options, computed, arrayElems h statics, dynamics).

(** [strings = ['foo', 'bar']; strings.raw = ['foo', 'bar']], not frozen. *)
Definition mutableStore : heap :=
  withTemplate 1%positive 2%positive false [js "foo"; js "bar"] [js "foo"; js "bar"] ∅.

(** The template object of [tag``], frozen, and an [Error] whose message is
    the empty string. *)
Definition emptyTemplateStore : heap :=
  <[3%positive := Obj false false [] {["message" := VStr []]}]>
    (withTemplate 1%positive 2%positive true [[]] [[]] ∅).

(** [(strings) => { throw new Error(strings[0]) }] on [tag``]. *)
Definition failingHelper (h : heap) (strings : value) : completion value :=
  Throws (VRef 3%positive).

(** What [computeStaticHelper] did can be stored: it returned, or it threw
    a value whose [message] can be read (neither [null] nor [undefined]). *)
Definition cacheable {T : Type} (h : heap) (c : completion T) : Prop :=
  match c with
  | Returns _ => True
  | Throws exc => exists message, getProp h exc "message" = Ok message
  end.

(** The message stored for a failure: [exc.message || 'Failure']. *)
Definition failureMessage (message : value) : value :=
  if truthy message then message else VStr (js "Failure").

(** The outcome of a call that finds [s] in [memoTable]. *)
Definition replay {T R : Type} (undefinedT : T)
    (computeResultHelper : value -> T -> heap -> value -> list value -> completion R)
    (s : staticState T) (c : value * heap * list value) : outcome R :=
  match staticStateResult undefinedT s None with
  | Ok t => combine computeResultHelper t c
  | Throw e => Threw e
  end.

(** ** The escape grammar, in the words of the specification *)

(** The value of a hexadecimal digit and of a run of octal digits. *)
Definition hexValue (c : Z) : Z :=
  if c <=? 57 then c - 48 else if c <=? 70 then c - 55 else c - 87.

Definition octalValue (digits : list Z) : Z :=
  fold_left (fun acc d => acc * 8 + (d - 48)) digits 0.

(** The single-letter mnemonics [b t n v f r]. *)
Definition isMnemonic (c : Z) : bool :=
  (c =? 98) || (c =? 116) || (c =? 110) || (c =? 118) || (c =? 102) || (c =? 114).

(** A character that means itself after a backslash: it starts neither a
    hexadecimal, Unicode or octal escape nor a line continuation, and is no
    mnemonic. *)
Definition nonSpecial (c : Z) : bool :=
  negb ((c =? 117) || (c =? 120) || isOctalDigit c || isLineTerminator c || isMnemonic c).

(** Does [s] go on with a character of the class [p]? *)
Definition continuesWith (p : Z -> bool) (s : jsstring) : bool :=
  match s with
  | c :: _ => p c
  | [] => false
  end.

Arguments cook : simpl never.

(** The line-break tokens of the grammar, [CR LF] as one token first. *)
Definition lineBreakTokens : list jsstring := [[CR; LF]; [CR]; [LF]; [LS]; [PS]].

(** The mnemonics and what they stand for. *)
Definition mnemonics : list (Z * Z) :=
  [(98, 8); (116, 9); (110, 10); (118, 11); (102, 12); (114, 13)].

(** ** The trimmer, in the words of the specification *)

(** The chunk with one leading line-break token removed, if it has one. *)
Definition withoutLeadingLineBreak (s : jsstring) : jsstring :=
  match List.find (fun t => startsWith t s) lineBreakTokens with
  | Some t => drop (List.length t) s
  | None => s
  end.

Definition endsWith (t s : jsstring) : bool := startsWith (rev t) (rev s).

(** The chunk with one trailing line-break token removed, if it has one. *)
Definition withoutTrailingLineBreak (s : jsstring) : jsstring :=
  match List.find (fun t => endsWith t s) lineBreakTokens with
  | Some t => take (List.length s - List.length t) s
  | None => s
  end.

(** The chunks after the end-of-line options. *)
Definition withoutBoundaryLineBreaks (o : trimOptions) (chunks : list jsstring)
  : list jsstring :=
  let chunks :=
    if trimEolAtStart o then alter withoutLeadingLineBreak O chunks else chunks in
  if trimEolAtEnd o
  then alter withoutTrailingLineBreak (List.length chunks - 1)%nat chunks
  else chunks.

(** A frozen array at [l] whose [raw] is a frozen array. *)
Definition frozenTemplate (h : heap) (l : loc) : Prop :=
  exists ts rawLoc rawArr,
    h !! l = Some ts /\ isArray ts = true /\ frozen ts = true
    /\ props ts !! "raw" = Some (VRef rawLoc)
    /\ h !! rawLoc = Some rawArr /\ isArray rawArr = true /\ frozen rawArr = true.

(** No assignment changes the object at [l]. *)
Definition immutable (h : heap) (l : loc) : Prop :=
  (forall name v, setProp h l name v = h)
  /\ (forall i p, setElem h l i p = h)
  /\ (forall p, pushElem h l p = h).

(** The chunks of a template object: cooked and raw. *)
Definition chunksOf (h : heap) (l : loc) : option (list prim * list prim) :=
  match templateObject h l with
  | Some (ts, rawArr) => Some (elems ts, elems rawArr)
  | None => None
  end.

(** [tag`foo\n  bar`] is not frozen here; [frozenIndented] is: the first raw
    chunk has a line break but does not begin with one. *)
Definition indentedSecondLine : jsstring := js "foo" ++ [LF] ++ js "  bar".

Definition frozenIndented : heap :=
  withTemplate 1%positive 2%positive true [indentedSecondLine] [indentedSecondLine] ∅.

(** A hand-made sequence [['foo']] with [raw = ['foo']], not frozen. *)
Definition handMadeStore : heap :=
  withTemplate 1%positive 2%positive false [js "foo"] [js "foo"] ∅.

(** The raw chunk of the test [at both]: a line break, ten spaces, [bar], a
    line break, ten spaces. *)
Definition barChunk : jsstring :=
  [LF] ++ js "          bar" ++ [LF] ++ js "          ".

Definition barStore : heap :=
  withTemplate 1%positive 2%positive true [barChunk] [barChunk] ∅.

(** The raw chunks of the test [variable indentation]. *)
Definition helloChunks : list jsstring :=
  [[LF] ++ js "      {" ++ [LF] ++ js "        Hello, ";
   js "!" ++ [LF] ++ js "      }"].

Definition helloStore : heap :=
  withTemplate 1%positive 2%positive true helloChunks helloChunks ∅.

(** The pieces of a chunk: the text before its first line break, then each
    maximal run of line terminators with the line fragment that follows. *)
Fixpoint pieces (s : jsstring) : jsstring * list (jsstring * jsstring) :=
  match s with
  | [] => ([], [])
  | c :: rest =>
      let '(first, more) := pieces rest in
      if isLineTerminator c then
        match first, more with
        | [], (run, fragment) :: more' => ([], (c :: run, fragment) :: more')
        | _, _ => ([], ([c], first) :: more)
        end
      else (c :: first, more)
  end.

(** The text the pieces came from. *)
Definition joinPieces (first : jsstring) (more : list (jsstring * jsstring)) : jsstring :=
  first ++ concat ((fun piece => piece.1 ++ piece.2) <$> more).

(** The line fragments of a chunk that begin a line: all but the first. *)
Definition lineFragments (chunk : jsstring) : list jsstring :=
  snd <$> (pieces chunk).2.

(** The chunk with [prefix] taken off the start of each such fragment, the
    line breaks kept as they are. *)
Definition dedent (prefix : jsstring) (chunk : jsstring) : jsstring :=
  joinPieces (pieces chunk).1
    ((fun piece => (piece.1, drop (List.length prefix) piece.2)) <$> (pieces chunk).2).

(** The pairwise longest common prefix of a list of strings. *)
Definition longestCommonPrefix (runs : list jsstring) : jsstring :=
  match runs with
  | [] => []
  | run :: runs' => fold_left commonPrefixOf runs' run
  end.

(** The common indentation of the chunks: over the leading whitespace of
    every line fragment but the first of each chunk. *)
Definition commonIndentation (raw : list jsstring) : jsstring :=
  longestCommonPrefix (WS_RUN_exec <$> concat (lineFragments <$> raw)).





(** The raw chunk of the test [line continuation]. *)
Definition continuationChunk : jsstring :=
  [LF] ++ js "      foo\" ++ [LF] ++ js "      bar".

Definition continuationStore : heap :=
  withTemplate 1%positive 2%positive true [continuationChunk] [continuationChunk] ∅.

(** The running common prefix of [commonPrefixOfTemplateStrings] without
    its early exit; [None] before the first run. *)
Definition foldPrefix (commonPrefix : option jsstring) (runs : list jsstring)
  : option jsstring :=
  fold_left
    (fun acc run =>
       Some match acc with
            | None => run
            | Some cp => commonPrefixOf cp run
            end)
    runs commonPrefix.

(** The chunks, cooked and raw, that the trimmer returns for the template
    object of a tagged literal with the raw chunks [raw]. *)
Definition trimmed (raw : list jsstring) (o : trimOptions)
  : option (list jsstring * list jsstring) :=
  match trimCommonWhitespaceFromLines
          (withTemplate 1%positive 2%positive true (cook <$> raw) raw ∅) 1%positive o with
  | Some (Ok res, h) =>
      match chunksOf h res with
      | Some (cooked, raw') =>
          Some (omap (fun p => match p with PStr s => Some s | _ => None end) cooked,
                omap (fun p => match p with PStr s => Some s | _ => None end) raw')
      | None => None
      end
  | _ => None
  end.

(** An array of primitives at [l], not frozen, with the named properties
    [named]. *)
Definition withArray (l : loc) (elements : list prim) (named : gmap string value)
    (h : heap) : heap :=
  <[l := Obj true false elements named]> h.

(** The outcome of [myTag(...args)] for the tag of the test suite, new in
    the store [h]. *)
Definition myTagCall (h : heap) (args : list value)
  : outcome (value * value * list prim * list value) :=
  let '(myTag, st, h) := memoizedTagFunction h in
  (usingOptions undefined lengthHelper echoHelper myTag h args st).1.

Definition isThrow {R : Type} (out : outcome R) : bool :=
  match out with
  | Threw _ => true
  | _ => false
  end.

(** ** Further vocabulary *)

(** A UTF-16 code unit. *)
Definition codeUnit (c : Z) : Prop := 0 <= c < 65536.

(** Does [s] begin with [n] hexadecimal digits? *)
Definition startsWithHexDigits (n : nat) (s : jsstring) : bool :=
  (n <=? List.length s)%nat && forallb isHexDigit (take n s).

(** [t] is [s] with some code units of the class [blank] taken out, the
    others kept in their order. *)
Inductive erases (blank : Z -> bool) : jsstring -> jsstring -> Prop :=
  | erases_nil : erases blank [] []
  | erases_keep c t s : erases blank t s -> erases blank (c :: t) (c :: s)
  | erases_drop c t s : blank c = true -> erases blank t s -> erases blank t (c :: s).

(** The class of what the trimmer may take out: whitespace, and line
    terminators too once an end-of-line option is set. *)
Definition trimmable (o : trimOptions) (c : Z) : bool :=
  isWhitespace c || ((trimEolAtStart o || trimEolAtEnd o) && isLineTerminator c).

(** The characters with a meaning of their own in a pattern
    ([SyntaxCharacter]). *)
Definition isSyntaxCharacter (c : Z) : bool :=
  existsb (Z.eqb c) (js "^$\.*+?()[]{}|").

(** What the detectors look for: a frozen array whose [raw] is a frozen
    array of the same length, that length being [argumentCount]; with
    [strings], the elements of both are strings. *)
Definition templateLike (strings : bool) (h : heap) (firstArgument argumentCount : value)
  : Prop :=
  exists l ts rawLoc rawArr,
    firstArgument = VRef l /\ h !! l = Some ts
    /\ isArray ts = true /\ frozen ts = true
    /\ props ts !! "raw" = Some (VRef rawLoc) /\ h !! rawLoc = Some rawArr
    /\ isArray rawArr = true /\ frozen rawArr = true
    /\ argumentCount = VPrim (PNum (Z.of_nat (List.length (elems ts))))
    /\ List.length (elems ts) = List.length (elems rawArr)
    /\ (strings = true ->
        forallb isString (elems ts) = true /\ forallb isString (elems rawArr) = true).

(** Static helpers that throw what is not an object: [undefined], and 0. *)
Definition throwsUndefined (h : heap) (strings : value) : completion value :=
  Throws undefined.

Definition throwsZero (h : heap) (strings : value) : completion value :=
  Throws (VPrim (PNum 0)).

(** Two template objects with the same chunks, both frozen. *)
Definition twinStore : heap :=
  withTemplate 3%positive 4%positive true [js "foo"; js "bar"] [js "foo"; js "bar"]
    fooBarStore.

(** A block whose first line holds the indentation and nothing else:
    [\n  \n   a\n   b]. *)
Definition bareIndentChunk : jsstring :=
  [LF] ++ js "  " ++ [LF] ++ js "   a" ++ [LF] ++ js "   b".

(** A message that [new Error] keeps as it is: a string; or one that is
    falsy, in whose place ['Failure'] is stored. *)
Definition textual (message : value) : Prop :=
  truthy message = false \/ exists s, message = VStr s.

(** ** Objects with accessor properties

    The store of the development holds data properties only, so that reading
    a property of an object never runs code.  To speak of a read that does,
    the detectors are embedded once more, from the same source, over objects
    whose named properties may be accessors with a getter that throws. *)
Module Accessors.

Inductive namedProperty :=
  | Data (v : value)
  | ThrowingGetter (exc : value).   (* get name () { throw exc } *)

Record obj := Obj {
  isArray : bool;
  frozen : bool;
  elems : list prim;
  props : gmap string namedProperty
}.

Abbreviation heap := (gmap loc obj).

(** [Array.isArray(v)]. *)
Definition Array_isArray (h : heap) (v : value) : bool :=
  match v with
  | VRef l => match h !! l with Some o => isArray o | None => false end
  | VPrim _ => false
  end.

(** [Object.isFrozen(v)]: primitives are frozen. *)
Definition Object_isFrozen (h : heap) (v : value) : bool :=
  match v with
  | VRef l => match h !! l with Some o => frozen o | None => false end
  | VPrim _ => true
  end.

(** [v.name]: reading an accessor property runs its getter. *)
Definition getProp (h : heap) (v : value) (name : string) : result value :=
  match v with
  | VPrim PUndefined | VPrim PNull => Throw TypeError
  | VPrim (PStr s) =>
      if String.eqb name "length" then Ok (VPrim (PNum (Z.of_nat (length s))))
      else Ok undefined
  | VPrim _ => Ok undefined
  | VRef l =>
      match h !! l with
      | Some o =>
          if isArray o && String.eqb name "length"
          then Ok (VPrim (PNum (Z.of_nat (length (elems o)))))
          else
            match props o !! name with
            | Some (Data w) => Ok w
            | Some (ThrowingGetter exc) => Throw (Thrown exc)
            | None => Ok undefined
            end
      | None => Throw TypeError
      end
  end.

Definition arrayElems (h : heap) (v : value) : list prim :=
  match v with
  | VRef l => match h !! l with Some o => elems o | None => [] end
  | VPrim _ => []
  end.

Definition every_isString (h : heap) (arr : value) : bool :=
  forallb isString (arrayElems h arr).

Definition calledAsTemplateTagQuick (h : heap) (firstArgument argumentCount : value)
  : result value :=
  if truthy firstArgument && Object_isFrozen h firstArgument
     && Array_isArray h firstArgument
  then
    let* raw := getProp h firstArgument "raw" in
    let* length := getProp h firstArgument "length" in
    js_and (VBool (strictEq length argumentCount))
      (js_and (VBool (truthy raw))
         (let* rawLength := getProp h raw "length" in
          js_and (VBool (strictEq length rawLength))
            (js_and (VBool (Object_isFrozen h raw))
               (Ok (VBool (Array_isArray h raw))))))
  else Ok (VBool false).

Definition calledAsTemplateTag (h : heap) (firstArgument argumentCount : value)
  : result value :=
  let* quick := calledAsTemplateTagQuick h firstArgument argumentCount in
  js_and quick
    (js_and (VBool (every_isString h firstArgument))
       (let* raw := getProp h firstArgument "raw" in
        Ok (VBool (every_isString h raw)))).

(** [a = ['x']], with [raw] defined on it as an accessor whose getter
    throws ['boom'], then frozen. *)
Definition throwingRawStore : heap :=
  {[ 1%positive := Obj true true [PStr (js "x")]
                     {["raw" := ThrowingGetter (VStr (js "boom"))]} ]}.

End Accessors.

(** An object of plain data among the objects with accessors. *)
Definition withoutAccessors (o : obj) : Accessors.obj :=
  Accessors.Obj (isArray o) (frozen o) (elems o) (Accessors.Data <$> props o).

(** ** [TypedString]

    An instance is an ordinary, extensible object, given by its own
    properties.  A property is a data property with its attributes, or an
    accessor property, whose getter is stood for by the value it returns. *)
Inductive property :=
  | DataProperty (v : value) (isWritable isEnumerable isConfigurable : bool)
  | AccessorProperty (get : value) (isEnumerable isConfigurable : bool).

Definition enumerableOf (p : property) : bool :=
  match p with
  | DataProperty _ _ e _ | AccessorProperty _ e _ => e
  end.

Definition configurableOf (p : property) : bool :=
  match p with
  | DataProperty _ _ _ c | AccessorProperty _ _ c => c
  end.

(** A property descriptor; each field may be absent.  A data descriptor
    with neither value nor [writable] is a generic descriptor. *)
Inductive descriptor :=
  | DataDescriptor (v : option value) (isWritable isEnumerable isConfigurable : option bool)
  | AccessorDescriptor (get : option value) (isEnumerable isConfigurable : option bool).

Definition descEnumerable (d : descriptor) : option bool :=
  match d with
  | DataDescriptor _ _ e _ | AccessorDescriptor _ e _ => e
  end.

Definition descConfigurable (d : descriptor) : option bool :=
  match d with
  | DataDescriptor _ _ _ c | AccessorDescriptor _ _ c => c
  end.

(** A field of a descriptor that is present and differs from [current]. *)
Definition changes {A} `{EqDecision A} (field : option A) (current : A) : bool :=
  match field with
  | Some x => negb (bool_decide (x = current))
  | None => false
  end.

Abbreviation instance := (gmap string property).

(** [ValidateAndApplyPropertyDescriptor] on an extensible object: the
    property afterwards, or [None] when the change is refused. *)
Definition defineOwnProperty (current : option property) (d : descriptor)
  : option property :=
  match current with
  | None =>
      Some match d with
           | DataDescriptor v w e c =>
               DataProperty (default undefined v) (default false w)
                 (default false e) (default false c)
           | AccessorDescriptor g e c =>
               AccessorProperty (default undefined g) (default false e) (default false c)
           end
  | Some cur =>
      if negb (configurableOf cur)
         && (changes (descConfigurable d) false || changes (descEnumerable d) (enumerableOf cur))
      then None
      else
        match cur, d with
        | DataProperty v w en cf, DataDescriptor None None e c =>
            Some (DataProperty v w (default en e) (default cf c))
        | AccessorProperty g en cf, DataDescriptor None None e c =>
            Some (AccessorProperty g (default en e) (default cf c))
        | DataProperty v w en cf, DataDescriptor v' w' e c =>
            if negb cf && negb w && (changes w' false || changes v' v) then None
            else Some (DataProperty (default v v') (default w w')
                         (default en e) (default cf c))
        | AccessorProperty g en cf, AccessorDescriptor g' e c =>
            if negb cf && changes g' g then None
            else Some (AccessorProperty (default g g') (default en e) (default cf c))
        | DataProperty _ _ en cf, AccessorDescriptor g' e c =>
            if negb cf then None
            else Some (AccessorProperty (default undefined g') (default en e) (default cf c))
        | AccessorProperty _ en cf, DataDescriptor v' w' e c =>
            if negb cf then None
            else Some (DataProperty (default undefined v') (default false w')
                         (default en e) (default cf c))
        end
  end.

(** [Object.defineProperty(o, name, d)]. *)
Definition Object_defineProperty (o : instance) (name : string) (d : descriptor)
  : result instance :=
  match defineOwnProperty (o !! name) d with
  | Some p => Ok (<[name := p]> o)
  | None => Throw TypeError
  end.

(** [o.name = v] in strict code. *)
Definition assign (o : instance) (name : string) (v : value) : result instance :=
  match o !! name with
  | Some (DataProperty _ true e c) => Ok (<[name := DataProperty v true e c]> o)
  | Some (DataProperty _ false _ _) => Throw TypeError
  | Some (AccessorProperty _ _ _) => Ok o
  | None => Ok (<[name := DataProperty v true true true]> o)
  end.

(** [delete o.name] in strict code. *)
Definition deleteProperty (o : instance) (name : string) : result instance :=
  match o !! name with
  | Some p => if configurableOf p then Ok (delete name o) else Throw TypeError
  | None => Ok o
  end.

(** [o.name]. *)
Definition getOwn (o : instance) (name : string) : value :=
  match o !! name with
  | Some (DataProperty v _ _ _) => v
  | Some (AccessorProperty get _ _) => get
  | None => undefined
  end.

(** [new TypedString(content)]: the constructor, run on the new object. *)
Definition TypedString_constructor (content : prim) : result instance :=
  Object_defineProperty ∅ "content"
    (DataDescriptor (Some (VStr (ToString content))) (Some false) None (Some false)).

(** The method [toString () { return this.content }] of the class, run on
    [this]. *)
Definition TypedString_toString (this : instance) : value := getOwn this "content".

(** [o.toString()] on an instance: the method of the class is the one found
    unless the object has a property [toString] of its own, which hides it;
    what is called then is not code of the class ([None]). *)
Definition callToString (o : instance) : option value :=
  match o !! "toString" with
  | None => Some (TypedString_toString o)
  | Some _ => None
  end.


(** What code that holds an instance can do to its properties. *)
Inductive operation :=
  | Assign (name : string) (v : value)
  | Delete (name : string)
  | DefineProperty (name : string) (d : descriptor).


Definition perform (o : instance) (op : operation) : result instance :=
  match op with
  | Assign name v => assign o name v
  | Delete name => deleteProperty o name
  | DefineProperty name d => Object_defineProperty o name d
  end.

(** The object after an operation, whether it threw or not. *)
Definition after (o : instance) (op : operation) : instance :=
  match perform o op with
  | Ok o' => o'
  | Throw _ => o
  end.

(** * Reading the store *)

Lemma getProp_raw_array h l o :
  h !! l = Some o ->
  getProp h (VRef l) "raw" = Ok (default undefined (props o !! "raw")).
Proof.
  intros Ho. unfold getProp. rewrite Ho.
  replace (String.eqb "raw" "length") with false by reflexivity.
  rewrite andb_false_r. reflexivity.
Qed.

Lemma getProp_length_array h l o :
  h !! l = Some o -> isArray o = true ->
  getProp h (VRef l) "length" = Ok (VPrim (PNum (Z.of_nat (List.length (elems o))))).
Proof.
  intros Ho Ha. unfold getProp. rewrite Ho, Ha. reflexivity.
Qed.

(** * The tag-invocation detector *)

Lemma js_and_true (r : result value) : js_and (VBool true) r = r.
Proof. reflexivity. Qed.

Lemma js_and_false (r : result value) : js_and (VBool false) r = Ok (VBool false).
Proof. reflexivity. Qed.

Lemma js_and_bool (a : bool) (r : result value) :
  (exists b, r = Ok (VBool b)) -> exists b, js_and (VBool a) r = Ok (VBool b).
Proof.
  intros [b Hb]. unfold js_and. destruct a; simpl; eauto.
Qed.

Lemma getProp_allocated h v name :
  allocated h v -> truthy v = true -> exists w, getProp h v name = Ok w.
Proof.
  unfold getProp. destruct v as [p | l]; simpl.
  - destruct p; intros _ Ht; try discriminate; eauto.
    destruct (String.eqb name "length"); eauto.
  - intros [o Ho] _. rewrite Ho.
    destruct (isArray o && String.eqb name "length"); eauto.
Qed.

Lemma closedHeap_prop h l o name v :
  closedHeap h -> h !! l = Some o -> props o !! name = Some v -> allocated h v.
Proof.
  intros Hc Hl Hp. exact (Hc l o Hl name v Hp).
Qed.

Lemma calledAsTemplateTagQuick_bool h firstArgument argumentCount :
  closedHeap h ->
  exists b, calledAsTemplateTagQuick h firstArgument argumentCount = Ok (VBool b).
Proof.
  intros Hc. unfold calledAsTemplateTagQuick.
  destruct (truthy firstArgument && Object_isFrozen h firstArgument
            && Array_isArray h firstArgument) eqn:Hguard; [| eauto].
  apply andb_prop in Hguard as [Hguard Harr].
  destruct firstArgument as [p | l]; [discriminate |].
  simpl in Harr. destruct (h !! l) as [o |] eqn:Ho; [| discriminate].
  rewrite (getProp_raw_array h l o Ho), (getProp_length_array h l o Ho Harr). simpl.
  apply js_and_bool.
  destruct (props o !! "raw") as [raw |] eqn:Hraw; simpl.
  - destruct (truthy raw) eqn:Htr.
    + rewrite js_and_true.
      destruct (getProp_allocated h raw "length") as [w Hw];
        [eapply closedHeap_prop; eauto | done |].
      rewrite Hw. simpl. apply js_and_bool, js_and_bool. eauto.
    + rewrite js_and_false. eauto.
  - rewrite js_and_false. eauto.
Qed.

(** C10 (amended). For every first argument that is plain data (a
    primitive, or an object of a closed store, whose properties are all data
    properties) and every argument count, [calledAsTemplateTagQuick] and
    [calledAsTemplateTag] return a boolean: neither throws, whether the
    argument is null, undefined, a number, a plain object or an array
    without [raw]. *)
Theorem detector_returns_boolean (h : heap) (firstArgument argumentCount : value) :
  closedHeap h ->
  (exists b, calledAsTemplateTagQuick h firstArgument argumentCount = Ok (VBool b))
  /\ (exists b, calledAsTemplateTag h firstArgument argumentCount = Ok (VBool b)).
Proof.
  intros Hc.
  destruct (calledAsTemplateTagQuick_bool h firstArgument argumentCount Hc) as [q Hq].
  split; [eauto |].
  unfold calledAsTemplateTag. rewrite Hq. simpl.
  destruct q; [rewrite js_and_true | rewrite js_and_false; eauto].
  (* the quick check answered true: the argument is an array *)
  unfold calledAsTemplateTagQuick in Hq.
  destruct (truthy firstArgument && Object_isFrozen h firstArgument
            && Array_isArray h firstArgument) eqn:Hguard; [| discriminate].
  apply andb_prop in Hguard as [_ Harr].
  destruct firstArgument as [p | l]; [discriminate |].
  simpl in Harr. destruct (h !! l) as [o |] eqn:Ho; [| discriminate].
  apply js_and_bool. rewrite (getProp_raw_array h l o Ho). simpl. eauto.
Qed.

Lemma detector_returns_boolean_witness :
  closedHeap fooBarStore
  /\ (exists b, calledAsTemplateTagQuick fooBarStore (VRef 1%positive) (VPrim (PNum 2)) = Ok (VBool b))
  /\ (exists b, calledAsTemplateTag fooBarStore (VRef 1%positive) (VPrim (PNum 2)) = Ok (VBool b)).
Proof.
  assert (Hc : closedHeap fooBarStore).
  { apply (bool_decide_unpack _). vm_compute. exact I. }
  split; [exact Hc |].
  exact (detector_returns_boolean fooBarStore (VRef 1%positive) (VPrim (PNum 2)) Hc).
Defined.

(** On plain data the detectors embedded over objects with accessors are
    the detectors above. *)
Lemma Accessors_getProp_plain (h : heap) v name :
  Accessors.getProp (withoutAccessors <$> h) v name = getProp h v name.
Proof.
  unfold Accessors.getProp, getProp. destruct v as [p | l]; [reflexivity |].
  rewrite lookup_fmap. destruct (h !! l) as [o |]; [| reflexivity].
  cbn [fmap option_fmap option_map withoutAccessors Accessors.isArray Accessors.elems
         Accessors.props].
  destruct (isArray o && String.eqb name "length"); [reflexivity |].
  rewrite lookup_fmap. by destruct (props o !! name).
Qed.

Lemma Accessors_isFrozen_plain (h : heap) v :
  Accessors.Object_isFrozen (withoutAccessors <$> h) v = Object_isFrozen h v.
Proof.
  destruct v as [p | l]; [reflexivity |]. cbn. rewrite lookup_fmap.
  by destruct (h !! l).
Qed.

Lemma Accessors_isArray_plain (h : heap) v :
  Accessors.Array_isArray (withoutAccessors <$> h) v = Array_isArray h v.
Proof.
  destruct v as [p | l]; [reflexivity |]. cbn. rewrite lookup_fmap.
  by destruct (h !! l).
Qed.

Lemma Accessors_every_isString_plain (h : heap) v :
  Accessors.every_isString (withoutAccessors <$> h) v = every_isString h v.
Proof.
  unfold Accessors.every_isString, every_isString.
  destruct v as [p | l]; [reflexivity |]. cbn. rewrite lookup_fmap.
  by destruct (h !! l).
Qed.

Lemma detectors_agree_on_plain_data (h : heap) firstArgument argumentCount :
  Accessors.calledAsTemplateTagQuick (withoutAccessors <$> h) firstArgument argumentCount
  = calledAsTemplateTagQuick h firstArgument argumentCount
  /\ Accessors.calledAsTemplateTag (withoutAccessors <$> h) firstArgument argumentCount
     = calledAsTemplateTag h firstArgument argumentCount.
Proof.
  assert (Hquick :
            Accessors.calledAsTemplateTagQuick (withoutAccessors <$> h)
              firstArgument argumentCount
            = calledAsTemplateTagQuick h firstArgument argumentCount).
  { unfold Accessors.calledAsTemplateTagQuick, calledAsTemplateTagQuick.
    rewrite Accessors_isFrozen_plain, Accessors_isArray_plain, !Accessors_getProp_plain.
    destruct (truthy firstArgument && Object_isFrozen h firstArgument
              && Array_isArray h firstArgument); [| reflexivity].
    destruct (getProp h firstArgument "raw") as [raw | e]; [| reflexivity].
    destruct (getProp h firstArgument "length") as [len | e]; [| reflexivity].
    cbn [bind].
    by rewrite Accessors_getProp_plain, Accessors_isFrozen_plain, Accessors_isArray_plain. }
  split; [exact Hquick |].
  unfold Accessors.calledAsTemplateTag, calledAsTemplateTag. rewrite Hquick.
  destruct (calledAsTemplateTagQuick h firstArgument argumentCount) as [quick | e];
    [| reflexivity].
  cbn [bind]. rewrite Accessors_every_isString_plain, Accessors_getProp_plain.
  destruct (getProp h firstArgument "raw") as [raw | e]; [| reflexivity].
  cbn [bind]. by rewrite Accessors_every_isString_plain.
Qed.

(** C10, as stated, fails: a property read can run code.  A frozen array
    whose [raw] is an accessor passes [Object.isFrozen] and [Array.isArray];
    the detectors then read [raw], the getter throws, and so do they. *)
Lemma throwing_getter_makes_the_detectors_throw :
  let h := Accessors.throwingRawStore in
  let a := VRef 1%positive in
  Accessors.Object_isFrozen h a = true
  /\ Accessors.Array_isArray h a = true
  /\ Accessors.calledAsTemplateTagQuick h a (VPrim (PNum 1))
     = Throw (Thrown (VStr (js "boom")))
  /\ Accessors.calledAsTemplateTag h a (VPrim (PNum 1))
     = Throw (Thrown (VStr (js "boom")))
  /\ ~ (exists b, Accessors.calledAsTemplateTagQuick h a (VPrim (PNum 1)) = Ok (VBool b))
  /\ ~ (exists b, Accessors.calledAsTemplateTag h a (VPrim (PNum 1)) = Ok (VBool b)).
Proof.
  cbn zeta. repeat split; try (vm_compute; reflexivity);
    intros [b Hb]; vm_compute in Hb; discriminate.
Qed.

(** * The shape validation *)

Lemma isStringArray_true h v :
  isStringArray h v = true <->
  exists l o, v = VRef l /\ h !! l = Some o /\ isArray o = true
              /\ forallb isString (elems o) = true.
Proof.
  unfold isStringArray, every_isString. split.
  - intros H. apply andb_prop in H as [Ha He].
    destruct v as [p | l]; [discriminate |]. simpl in *.
    destruct (h !! l) as [o |] eqn:Ho; [| discriminate]. eauto 10.
  - intros (l & o & -> & Ho & Ha & He). simpl. rewrite Ho, Ha, He. reflexivity.
Qed.

Lemma wellShaped_valid h staticStrings dynamicValues :
  wellShaped h staticStrings dynamicValues ->
  requireValidTagInputs h staticStrings dynamicValues = Ok ().
Proof.
  intros (l & o & rawLoc & r & -> & Ho & Ha & Hraw & Hr & Hra & Hlen & Hs & Hrs & Hdyn).
  unfold requireValidTagInputs.
  rewrite (getProp_raw_array h l o Ho), Hraw,
    (getProp_length_array h l o Ho Ha). simpl.
  rewrite (getProp_length_array h rawLoc r Hr Hra). simpl.
  assert (H1 : isStringArray h (VRef l) = true) by (apply isStringArray_true; eauto 10).
  assert (H2 : isStringArray h (VRef rawLoc) = true) by (apply isStringArray_true; eauto 10).
  rewrite H1, H2. simpl strictEq.
  rewrite Hlen, Z.eqb_refl. simpl.
  rewrite <- Hlen, <- Hdyn.
  replace (Z.of_nat (List.length dynamicValues) + 1 =?
           Z.of_nat (List.length dynamicValues + 1)) with true
    by (symmetry; apply Z.eqb_eq; lia).
  reflexivity.
Qed.

Lemma valid_wellShaped h staticStrings dynamicValues :
  requireValidTagInputs h staticStrings dynamicValues = Ok () ->
  wellShaped h staticStrings dynamicValues.
Proof.
  unfold requireValidTagInputs. intros H.
  destruct (getProp h staticStrings "raw") as [raw | e] eqn:Hraw;
    cbn [bind] in H; [| discriminate].
  destruct (getProp h staticStrings "length") as [len | e] eqn:Hlen;
    cbn [bind] in H; [| discriminate].
  destruct (getProp h raw "length") as [rawLen | e] eqn:Hrl;
    cbn [bind] in H; [| discriminate].
  destruct (strictEq len rawLen && isStringArray h staticStrings && isStringArray h raw)
    eqn:Hok; [| discriminate].
  cbn [negb] in H.
  destruct (strictEq (VPrim (PNum (Z.of_nat (List.length dynamicValues) + 1))) len)
    eqn:Hdyn; [| discriminate].
  apply andb_prop in Hok as [Hok Hr]. apply andb_prop in Hok as [Heq Hs].
  apply isStringArray_true in Hs as (l & o & -> & Ho & Ha & Hs).
  apply isStringArray_true in Hr as (rawLoc & r & -> & Hr & Hra & Hrs).
  rewrite (getProp_raw_array h l o Ho) in Hraw.
  rewrite (getProp_length_array h l o Ho Ha) in Hlen.
  rewrite (getProp_length_array h rawLoc r Hr Hra) in Hrl.
  injection Hraw as Hraw. injection Hlen as <-. injection Hrl as <-.
  simpl in Heq, Hdyn. apply Z.eqb_eq in Heq, Hdyn.
  exists l, o, rawLoc, r. repeat split; try done.
  - destruct (props o !! "raw"); simpl in Hraw; [congruence | discriminate].
  - lia.
  - lia.
Qed.

Lemma invalid_throws h staticStrings dynamicValues :
  ~ wellShaped h staticStrings dynamicValues ->
  exists e, InvalidInput e
            /\ requireValidTagInputs h staticStrings dynamicValues = Throw e.
Proof.
  intros Hn.
  destruct (requireValidTagInputs h staticStrings dynamicValues) as [[] | e] eqn:H.
  { exfalso. apply Hn. by apply valid_wellShaped. }
  exists e. split; [| reflexivity].
  unfold requireValidTagInputs in H.
  assert (Hget : forall v name e', getProp h v name = Throw e' -> e' = TypeError).
  { intros v name e' Hv. unfold getProp in Hv.
    destruct v as [[] | l0]; simpl in Hv; try congruence.
    - destruct (String.eqb name "length"); congruence.
    - destruct (h !! l0); [| congruence].
      destruct (isArray o && String.eqb name "length"); congruence. }
  destruct (getProp h staticStrings "raw") as [raw | e1] eqn:Hraw;
    cbn [bind] in H; [| left; apply Hget in Hraw; congruence].
  destruct (getProp h staticStrings "length") as [len | e1] eqn:Hlen;
    cbn [bind] in H; [| left; apply Hget in Hlen; congruence].
  destruct (getProp h raw "length") as [rawLen | e1] eqn:Hrl;
    cbn [bind] in H; [| left; apply Hget in Hrl; congruence].
  destruct (strictEq len rawLen && isStringArray h staticStrings && isStringArray h raw);
    cbn [negb] in H.
  - destruct (strictEq (VPrim (PNum (Z.of_nat (List.length dynamicValues) + 1))) len);
      cbn [negb] in H; [discriminate |].
    right; right. injection H as <-. eauto.
  - right; left. congruence.
Qed.

(** * The memoizing tag function *)

Section MemoizedTagFunctionFacts.

Context {T R : Type} (undefinedT : T).
Context (computeStaticHelper : heap -> value -> completion T).
Context (computeResultHelper : value -> T -> heap -> value -> list value -> completion R).

Local Abbreviation call := (usingOptions undefinedT computeStaticHelper computeResultHelper).
Local Abbreviation run := (runCalls undefinedT computeStaticHelper computeResultHelper).
Local Abbreviation stateFor := (staticStateFor undefinedT computeStaticHelper).

Lemma call_configure options h v st :
  Array_isArray h v = false -> call options h [v] st = (Configured v, st).
Proof.
  intros Hv. unfold usingOptions. simpl. rewrite Hv. reflexivity.
Qed.

Lemma wellShaped_isArray h staticStrings dynamicValues :
  wellShaped h staticStrings dynamicValues -> Array_isArray h staticStrings = true.
Proof.
  intros (l & o & rawLoc & r & -> & Ho & Ha & _). simpl. by rewrite Ho.
Qed.

(** A well-shaped call passes the validation and goes on to [staticStateFor]
    and the result helper. *)
Lemma call_invoke options h staticStrings dynamicValues st :
  wellShaped h staticStrings dynamicValues ->
  call options h (staticStrings :: dynamicValues) st =
  match stateFor h staticStrings st with
  | (Throw e, st') => (Threw e, st')
  | (Ok t, st') =>
      (combine computeResultHelper t (options, h, staticStrings :: dynamicValues),
       logCall st' (ResultHelperCalled options staticStrings dynamicValues))
  end.
Proof.
  intros Hw. unfold usingOptions. cbn [hd tl].
  rewrite (wellShaped_isArray _ _ _ Hw), andb_false_r.
  rewrite (wellShaped_valid _ _ _ Hw).
  destruct (stateFor h staticStrings st) as [[t | e] st']; [| reflexivity].
  unfold combine. cbn [fst snd hd tl].
  destruct (computeResultHelper options t h staticStrings dynamicValues); reflexivity.
Qed.

Lemma memoizable_raw h l :
  memoizable h l = true -> exists raw, getProp h (VRef l) "raw" = Ok raw.
Proof.
  unfold memoizable. intros H. apply andb_prop in H as [_ H].
  destruct (getProp h (VRef l) "raw") as [raw | e]; [eauto | discriminate].
Qed.

(** The value of [canMemoize] in [staticStateFor]. *)
Lemma canMemoize_memoizable h l raw :
  getProp h (VRef l) "raw" = Ok raw ->
  (if Object_isFrozen h (VRef l)
   then let* raw := getProp h (VRef l) "raw" in Ok (Object_isFrozen h raw)
   else Ok false)
  = Ok (memoizable h l).
Proof.
  intros Hraw. unfold memoizable. rewrite Hraw.
  by destruct (Object_isFrozen h (VRef l)).
Qed.

Lemma stateFor_hit h l st s :
  memoizable h l = true -> memoTable st !! l = Some s ->
  stateFor h (VRef l) st = (staticStateResult undefinedT s None, st).
Proof.
  intros Hc Hs. destruct (memoizable_raw h l Hc) as [raw Hraw].
  unfold staticStateFor. rewrite (canMemoize_memoizable h l raw Hraw), Hc.
  simpl. by rewrite Hs.
Qed.

Lemma stateFor_miss_returns h l st t :
  memoizable h l = true -> memoTable st !! l = None ->
  computeStaticHelper h (VRef l) = Returns t ->
  stateFor h (VRef l) st =
  (Ok t, Cache (<[l := StaticState (Some t) None]> (memoTable st))
           (StaticHelperCalled (VRef l) :: calls st)).
Proof.
  intros Hc Hs Ht. destruct (memoizable_raw h l Hc) as [raw Hraw].
  unfold staticStateFor. rewrite (canMemoize_memoizable h l raw Hraw), Hc.
  simpl. rewrite Hs, Ht. reflexivity.
Qed.

Lemma truthy_failureMessage message : truthy (failureMessage message) = true.
Proof.
  unfold failureMessage. destruct (truthy message) eqn:H; [exact H | reflexivity].
Qed.

Lemma stateFor_miss_throws h l st exc message :
  memoizable h l = true -> memoTable st !! l = None ->
  computeStaticHelper h (VRef l) = Throws exc ->
  getProp h exc "message" = Ok message ->
  stateFor h (VRef l) st =
  (Throw (if truthy exc then Thrown exc else Error (failureMessage message)),
   Cache (<[l := StaticState None (Some (failureMessage message))]> (memoTable st))
     (StaticHelperCalled (VRef l) :: calls st)).
Proof.
  intros Hc Hs Ht Hm. destruct (memoizable_raw h l Hc) as [raw Hraw].
  unfold staticStateFor. rewrite (canMemoize_memoizable h l raw Hraw), Hc.
  simpl. rewrite Hs, Ht, Hm. simpl.
  unfold staticStateResult. simpl.
  fold (failureMessage message). rewrite truthy_failureMessage.
  destruct (truthy exc); reflexivity.
Qed.

Lemma staticHelperCalls_logResult (st : cache T) v options staticStrings dynamicValues :
  staticHelperCalls v (logCall st (ResultHelperCalled options staticStrings dynamicValues))
  = staticHelperCalls v st.
Proof.
  unfold staticHelperCalls, logCall. simpl.
  rewrite filter_cons_False; [reflexivity | discriminate].
Qed.

Lemma staticHelperCalls_logStatic (m : gmap loc (staticState T)) v (cl : list event) :
  staticHelperCalls v (Cache m (StaticHelperCalled v :: cl))
  = S (staticHelperCalls v (Cache m cl)).
Proof.
  unfold staticHelperCalls. simpl.
  rewrite filter_cons_True; [reflexivity | reflexivity].
Qed.

(** Calls that find the entry of [l] leave the table alone, call no static
    helper, and replay what is stored. *)
Lemma run_hits l s cs : forall st,
  memoTable st !! l = Some s ->
  Forall (fun c => callOn l c /\ memoizable c.1.2 l = true) cs ->
  (run cs st).1 = replay undefinedT computeResultHelper s <$> cs
  /\ memoTable (run cs st).2 !! l = Some s
  /\ staticHelperCalls (VRef l) (run cs st).2 = staticHelperCalls (VRef l) st
  /\ (forall e, staticStateResult undefinedT s None = Throw e -> (run cs st).2 = st).
Proof.
  induction cs as [| [[options h] args] cs IH]; intros st Hs Hcs.
  - simpl. auto.
  - apply Forall_cons in Hcs as [[[Hw Hhd] Hc] Hcs]. simpl in Hw, Hhd, Hc.
    destruct args as [| staticStrings dynamicValues]; [discriminate |].
    simpl in Hw, Hhd. subst staticStrings.
    cbn [runCalls].
    rewrite (call_invoke options h (VRef l) dynamicValues st Hw).
    rewrite (stateFor_hit h l st s Hc Hs).
    rewrite fmap_cons. unfold replay at 1.
    destruct (staticStateResult undefinedT s None) as [t | e] eqn:Hres.
    + specialize (IH (logCall st (ResultHelperCalled options (VRef l) dynamicValues)) Hs Hcs).
      destruct (run cs _) as [outs st'] eqn:Hrun. cbn [fst snd] in IH |- *.
      destruct IH as (-> & -> & -> & _).
      rewrite staticHelperCalls_logResult. by repeat split.
    + specialize (IH st Hs Hcs).
      destruct (run cs st) as [outs st'] eqn:Hrun. cbn [fst snd] in IH |- *.
      destruct IH as (-> & -> & -> & IH). by repeat split.
Qed.

Lemma stateFor_uncached h l st :
  memoizable h l = false ->
  (exists raw, getProp h (VRef l) "raw" = Ok raw) ->
  exists r, stateFor h (VRef l) st = (r, logCall st (StaticHelperCalled (VRef l)))
            /\ forall t, computeStaticHelper h (VRef l) = Returns t -> r = Ok t.
Proof.
  intros Hc [raw Hraw].
  unfold staticStateFor. rewrite (canMemoize_memoizable h l raw Hraw), Hc.
  destruct (computeStaticHelper h (VRef l)) as [t | exc].
  - eexists. split; [reflexivity |]. by intros t' [= <-].
  - destruct (getProp h exc "message") as [m | e]; cbn [bind];
      (eexists; split; [reflexivity | discriminate]).
Qed.

Lemma wellShaped_raw h l dynamicValues :
  wellShaped h (VRef l) dynamicValues -> exists raw, getProp h (VRef l) "raw" = Ok raw.
Proof.
  intros (l' & o & rawLoc & r & [= <-] & Ho & _).
  rewrite (getProp_raw_array h l o Ho). eauto.
Qed.

(** Calls on a sequence that cannot be memoized run the static helper each. *)
Lemma run_uncached l cs : forall st,
  Forall (fun c => callOn l c /\ memoizable c.1.2 l = false) cs ->
  staticHelperCalls (VRef l) (run cs st).2
  = (List.length cs + staticHelperCalls (VRef l) st)%nat
  /\ Forall2 (fun c out =>
                forall t, computeStaticHelper c.1.2 (VRef l) = Returns t ->
                          out = combine computeResultHelper t c)
       cs (run cs st).1.
Proof.
  induction cs as [| [[options h] args] cs IH]; intros st Hcs.
  - simpl. auto.
  - apply Forall_cons in Hcs as [[[Hw Hhd] Hc] Hcs]. simpl in Hw, Hhd, Hc.
    destruct args as [| staticStrings dynamicValues]; [discriminate |].
    simpl in Hw, Hhd. subst staticStrings.
    cbn [runCalls].
    rewrite (call_invoke options h (VRef l) dynamicValues st Hw).
    destruct (stateFor_uncached h l st Hc (wellShaped_raw _ _ _ Hw)) as (r & -> & Hr).
    destruct r as [t | e].
    + specialize (IH (logCall (logCall st (StaticHelperCalled (VRef l)))
                        (ResultHelperCalled options (VRef l) dynamicValues)) Hcs).
      destruct (run cs _) as [outs st'] eqn:Hrun. cbn [fst snd] in IH |- *.
      destruct IH as [-> IH]. split.
      * rewrite staticHelperCalls_logResult. unfold logCall.
        rewrite staticHelperCalls_logStatic. destruct st; simpl. lia.
      * constructor; [| exact IH]. cbn [fst snd]. intros t' Ht'.
        specialize (Hr t' Ht'). by injection Hr as ->.
    + specialize (IH (logCall st (StaticHelperCalled (VRef l))) Hcs).
      destruct (run cs _) as [outs st'] eqn:Hrun. cbn [fst snd] in IH |- *.
      destruct IH as [-> IH]. split.
      * unfold logCall. rewrite staticHelperCalls_logStatic. destruct st; simpl. lia.
      * constructor; [| exact IH]. cbn [fst snd]. intros t' Ht'.
        specialize (Hr t' Ht'). discriminate.
Qed.

(** The first call on a frozen sequence stores what the static helper did. *)
Lemma first_call_stores l options h args st :
  callOn l (options, h, args) -> memoizable h l = true ->
  memoTable st !! l = None ->
  cacheable h (computeStaticHelper h (VRef l)) ->
  exists s out st',
    call options h args st = (out, st')
    /\ memoTable st' !! l = Some s
    /\ staticHelperCalls (VRef l) st' = S (staticHelperCalls (VRef l) st)
    /\ (forall t, computeStaticHelper h (VRef l) = Returns t ->
          s = StaticState (Some t) None
          /\ out = combine computeResultHelper t (options, h, args))
    /\ (forall exc message,
          computeStaticHelper h (VRef l) = Throws exc ->
          getProp h exc "message" = Ok message ->
          s = StaticState None (Some (failureMessage message))
          /\ out = Threw (if truthy exc then Thrown exc
                          else Error (failureMessage message))
          /\ calls st' = StaticHelperCalled (VRef l) :: calls st).
Proof.
  intros [Hw Hhd] Hc Hs Hcache. simpl in Hw, Hhd.
  destruct args as [| staticStrings dynamicValues]; [discriminate |].
  simpl in Hw, Hhd. subst staticStrings.
  rewrite (call_invoke options h (VRef l) dynamicValues st Hw).
  destruct (computeStaticHelper h (VRef l)) as [t | exc] eqn:Hhelper.
  - rewrite (stateFor_miss_returns h l st t Hc Hs Hhelper).
    eexists _, _, _. split; [reflexivity |].
    split; [simpl; apply lookup_insert_eq |].
    split; [rewrite staticHelperCalls_logResult, staticHelperCalls_logStatic;
            by destruct st |].
    split; [by intros t' [= <-] | discriminate].
  - destruct Hcache as [message Hm].
    rewrite (stateFor_miss_throws h l st exc message Hc Hs Hhelper Hm).
    eexists _, _, _. split; [reflexivity |].
    split; [simpl; apply lookup_insert_eq |].
    split; [rewrite staticHelperCalls_logStatic; by destruct st |].
    split; [discriminate |].
    intros exc' message' [= <-] Hm'. rewrite Hm in Hm'. by injection Hm' as <-.
Qed.

(** C2 (amended). A chunk sequence that is frozen, and whose raw is, is
    memoized: over any run of one or more well-shaped calls on it
    [computeStaticHelper] runs once (provided what it throws, if it throws,
    is neither null nor undefined), and each call hands the result helper the
    sequence as the store of that call has it.  A sequence that is not
    frozen, the only kind that can change in place, is not memoized:
    [computeStaticHelper] runs in every call on it. *)
Theorem static_helper_once_per_frozen_sequence :
  (forall l c cs st,
     Forall (fun c => callOn l c /\ memoizable c.1.2 l = true) (c :: cs) ->
     memoTable st !! l = None ->
     cacheable c.1.2 (computeStaticHelper c.1.2 (VRef l)) ->
     staticHelperCalls (VRef l) (run (c :: cs) st).2 = S (staticHelperCalls (VRef l) st)
     /\ forall t, computeStaticHelper c.1.2 (VRef l) = Returns t ->
          (run (c :: cs) st).1 = combine computeResultHelper t <$> (c :: cs))
  /\ (forall l cs st,
        Forall (fun c => callOn l c /\ memoizable c.1.2 l = false) cs ->
        staticHelperCalls (VRef l) (run cs st).2
        = (List.length cs + staticHelperCalls (VRef l) st)%nat
        /\ Forall2 (fun c out =>
                      forall t, computeStaticHelper c.1.2 (VRef l) = Returns t ->
                                out = combine computeResultHelper t c)
             cs (run cs st).1).
Proof.
  split; [| apply run_uncached].
  intros l [[options h] args] cs st Hcs Hs Hcache. cbn [fst snd] in Hcache |- *.
  apply Forall_cons in Hcs as [[Hcall Hc] Hcs]. cbn [fst snd] in Hc.
  destruct (first_call_stores l options h args st Hcall Hc Hs Hcache)
    as (s & out & st' & Hfirst & Hs' & Hcount & Hret & Hthrow).
  cbn [runCalls]. rewrite Hfirst.
  destruct (run_hits l s cs st' Hs' Hcs) as (Houts & _ & Hcount' & _).
  destruct (run cs st') as [outs st''] eqn:Hrun. cbn [fst snd] in *.
  split; [congruence |].
  intros t Ht. destruct (Hret t Ht) as [-> ->].
  by rewrite fmap_cons, Houts.
Qed.

(** C3 (amended). If [computeStaticHelper] throws an object (any truthy
    value) on the first call on a frozen chunk sequence, and the message of
    that value is a string or is falsy, that call throws the same value,
    and every later call on the sequence throws a new [Error] whose message
    is that string, or ['Failure'] if the message is falsy (absent, or
    empty); the helpers are not called again.  (A truthy message that is
    not a string is stored too, and [new Error] turns it into a string.) *)
Theorem static_failure_is_replayed l c cs st exc message :
  Forall (fun c => callOn l c /\ memoizable c.1.2 l = true) (c :: cs) ->
  memoTable st !! l = None ->
  computeStaticHelper c.1.2 (VRef l) = Throws exc ->
  truthy exc = true ->
  getProp c.1.2 exc "message" = Ok message ->
  textual message ->
  (exists text,
     failureMessage message = VStr text
     /\ (message = VStr text \/ truthy message = false /\ text = js "Failure"))
  /\ (run (c :: cs) st).1
     = Threw (Thrown exc)
         :: replicate (List.length cs) (Threw (Error (failureMessage message)))
  /\ calls (run (c :: cs) st).2 = StaticHelperCalled (VRef l) :: calls st.
Proof.
  destruct c as [[options h] args]. cbn [fst snd].
  intros Hcs Hs Hexc Htruthy Hm Htext.
  split.
  { unfold failureMessage. destruct Htext as [Hfalsy | [text ->]].
    - rewrite Hfalsy. exists (js "Failure"). split; [reflexivity | by right].
    - destruct text as [| ch text].
      + exists (js "Failure"). split; [reflexivity | by right].
      + exists (ch :: text). split; [reflexivity | by left]. }
  apply Forall_cons in Hcs as [[Hcall Hc] Hcs]. cbn [fst snd] in Hc.
  assert (Hcache : cacheable h (computeStaticHelper h (VRef l))).
  { rewrite Hexc. simpl. eauto. }
  destruct (first_call_stores l options h args st Hcall Hc Hs Hcache)
    as (s & out & st' & Hfirst & Hs' & _ & _ & Hthrow).
  destruct (Hthrow exc message Hexc Hm) as (-> & -> & Hcalls).
  rewrite Htruthy in Hfirst.
  cbn [runCalls]. rewrite Hfirst.
  assert (Hres : staticStateResult undefinedT
                   (StaticState None (Some (failureMessage message))) None
                 = Throw (Error (failureMessage message))).
  { unfold staticStateResult. simpl. by rewrite truthy_failureMessage. }
  destruct (run_hits l _ cs st' Hs' Hcs) as (Houts & _ & _ & Hst).
  specialize (Hst _ Hres).
  destruct (run cs st') as [outs st''] eqn:Hrun. cbn [fst snd] in *.
  subst st''. split; [| exact Hcalls].
  f_equal. rewrite Houts. clear.
  induction cs as [| c cs IH]; [reflexivity |].
  rewrite fmap_cons. simpl. f_equal; [| exact IH].
  unfold replay, staticStateResult. simpl. by rewrite truthy_failureMessage.
Qed.

(** C6 (amended). A call that passes an array first, or any dynamic value,
    is validated before a helper runs: unless the first argument is an array
    of strings whose raw is an array of strings of the same length, with one
    dynamic value fewer than chunks, the call throws from the validation and
    leaves the cache and the record of helper calls as they were.  (A lone
    argument that is not an array configures instead.) *)
Theorem malformed_call_is_rejected options h args st :
  Array_isArray h (hd undefined args) = true \/ tl args <> [] ->
  ~ wellShaped h (hd undefined args) (tl args) ->
  exists e, InvalidInput e /\ call options h args st = (Threw e, st).
Proof.
  intros Hinvoke Hbad.
  destruct (invalid_throws _ _ _ Hbad) as (e & He & Hthrow).
  exists e. split; [exact He |].
  unfold usingOptions. rewrite Hthrow.
  replace ((List.length (tl args) =? 0)%nat && negb (Array_isArray h (hd undefined args)))
    with false; [reflexivity |].
  destruct Hinvoke as [-> | Hdyn]; [by rewrite andb_false_r |].
  destruct (tl args); [done | reflexivity].
Qed.

(** C8. A call with one argument that is not an array returns the tagged
    function bound to that argument and changes nothing; binding another
    configuration from any function of the family does not change what a
    call through the function bound to [A] does, its result helper is given
    [A]; and the functions share the cache: a sequence memoized through one
    is found through the other. *)
Theorem configuration_is_bound_per_function :
  (forall options h v st,
     Array_isArray h v = false -> call options h [v] st = (Configured v, st))
  /\ (forall base A B h hA args st,
        Array_isArray h B = false ->
        call A hA args (call base h [B] st).2 = call A hA args st)
  /\ (forall A h l dynamicValues st r st',
        wellShaped h (VRef l) dynamicValues ->
        call A h (VRef l :: dynamicValues) st = (Returned r, st') ->
        head (calls st') = Some (ResultHelperCalled A (VRef l) dynamicValues)
        /\ exists t, computeResultHelper A t h (VRef l) dynamicValues = Returns r)
  /\ (forall A B l hA hB argsA argsB st t,
        callOn l (A, hA, argsA) -> memoizable hA l = true ->
        callOn l (B, hB, argsB) -> memoizable hB l = true ->
        memoTable st !! l = None ->
        computeStaticHelper hA (VRef l) = Returns t ->
        (run [(A, hA, argsA); (B, hB, argsB)] st).1
        = [combine computeResultHelper t (A, hA, argsA);
           combine computeResultHelper t (B, hB, argsB)]
        /\ staticHelperCalls (VRef l) (run [(A, hA, argsA); (B, hB, argsB)] st).2
           = S (staticHelperCalls (VRef l) st)).
Proof.
  split; [exact call_configure |]. split; [| split].
  - intros base A B h hA args st HB. by rewrite (call_configure base h B st HB).
  - intros A h l dynamicValues st r st' Hw Hcall.
    rewrite (call_invoke A h (VRef l) dynamicValues st Hw) in Hcall.
    destruct (stateFor h (VRef l) st) as [[t | e] st1]; [| discriminate].
    unfold combine in Hcall. cbn [fst snd hd tl] in Hcall.
    destruct (computeResultHelper A t h (VRef l) dynamicValues) as [r' | exc] eqn:Hr;
      [| discriminate].
    injection Hcall as <- <-. split; [reflexivity | eauto].
  - intros A B l hA hB argsA argsB st t HA HcA HB HcB Hs Ht.
    assert (Hcache : cacheable hA (computeStaticHelper hA (VRef l))) by by rewrite Ht.
    destruct (first_call_stores l A hA argsA st HA HcA Hs Hcache)
      as (s & out & st' & Hfirst & Hs' & Hcount & Hret & _).
    cbn [runCalls]. rewrite Hfirst.
    assert (HBs : Forall (fun c => callOn l c /\ memoizable c.1.2 l = true)
                    [(B, hB, argsB)]) by (constructor; [by split | constructor]).
    destruct (run_hits l s [(B, hB, argsB)] st' Hs' HBs) as (Houts & _ & Hcount' & _).
    cbn [runCalls] in Houts, Hcount'.
    destruct (call B hB argsB st') as [outB st''] eqn:HcallB. cbn [fst snd] in *.
    split; [| congruence].
    destruct (Hret t Ht) as [-> ->]. by rewrite Houts.
Qed.

End MemoizedTagFunctionFacts.

(** ** The test-suite scenarios *)

(** C2, as stated, fails: the test [mutation of chunks array].  The array is
    not frozen, so it can be mutated between the calls, and the static
    helper runs in both of them (it returns 2, then 3). *)
Lemma mutated_sequence_is_recomputed :
  let '(myTag, st, h) := memoizedTagFunction (T := value) mutableStore in
  let h' := pushElem (pushElem h 1%positive (PStr (js "baz"))) 2%positive (PStr (js "baz")) in
  let r := runCalls undefined lengthHelper echoHelper
             [(myTag, h, [VRef 1%positive; VPrim (PNum 0)]);
              (myTag, h', [VRef 1%positive; VPrim (PNum 0); VPrim (PNum 1)])] st in
  r.1 = [Returned (myTag, VPrim (PNum 2), PStr <$> [js "foo"; js "bar"],
                   [VPrim (PNum 0)]);
         Returned (myTag, VPrim (PNum 3), PStr <$> [js "foo"; js "bar"; js "baz"],
                   [VPrim (PNum 0); VPrim (PNum 1)])]
  /\ staticHelperCalls (VRef 1%positive) r.2 = 2%nat
  /\ staticHelperCalls (VRef 1%positive) r.2 <> 1%nat.
Proof.
  vm_compute. repeat split; discriminate.
Qed.

Lemma static_helper_once_per_frozen_sequence_witness :
  let cs := [(undefined, fooBarStore, [VRef 1%positive; VPrim (PNum 0)]);
             (undefined, fooBarStore, [VRef 1%positive; VPrim (PNum 1)])] in
  let st := Cache (T := value) ∅ [] in
  Forall (fun c => callOn 1%positive c /\ memoizable c.1.2 1%positive = true) cs
  /\ memoTable st !! 1%positive = None
  /\ cacheable fooBarStore (lengthHelper fooBarStore (VRef 1%positive))
  /\ staticHelperCalls (VRef 1%positive)
       (runCalls undefined lengthHelper echoHelper cs st).2 = 1%nat.
Proof.
  intros cs st.
  assert (Hcs : Forall (fun c => callOn 1%positive c
                                 /\ memoizable c.1.2 1%positive = true) cs).
  { repeat constructor; apply valid_wellShaped; vm_compute; reflexivity. }
  assert (Hs : memoTable st !! 1%positive = None) by reflexivity.
  assert (Hc : cacheable fooBarStore (lengthHelper fooBarStore (VRef 1%positive))).
  { vm_compute. exact I. }
  split; [exact Hcs |]. split; [exact Hs |]. split; [exact Hc |].
  exact (proj1 (proj1 (static_helper_once_per_frozen_sequence
                         undefined lengthHelper echoHelper)
                  1%positive _ _ st Hcs Hs Hc)).
Defined.

(** C3, as stated, fails: [tag``] in the test [failure computing static
    state], called twice.  The first call throws the helper's error, whose
    message is empty; the second throws another error, a new [Error] whose
    message is ['Failure']. *)
Lemma replayed_failure_is_another_error :
  let '(myTag, st, h) := memoizedTagFunction (T := value) emptyTemplateStore in
  let r := runCalls undefined failingHelper echoHelper
             [(myTag, h, [VRef 1%positive]); (myTag, h, [VRef 1%positive])] st in
  memoizable h 1%positive = true
  /\ r.1 = [Threw (Thrown (VRef 3%positive)); Threw (Error (VStr (js "Failure")))]
  /\ getProp h (VRef 3%positive) "message" = Ok (VStr [])
  /\ VStr [] <> VStr (js "Failure").
Proof.
  vm_compute. repeat split; discriminate.
Qed.

Lemma static_failure_is_replayed_witness :
  let c := (undefined, emptyTemplateStore, [VRef 1%positive]) in
  let st := Cache (T := value) ∅ [] in
  Forall (fun c => callOn 1%positive c /\ memoizable c.1.2 1%positive = true) [c; c; c]
  /\ memoTable st !! 1%positive = None
  /\ failingHelper c.1.2 (VRef 1%positive) = Throws (VRef 3%positive)
  /\ truthy (VRef 3%positive) = true
  /\ getProp c.1.2 (VRef 3%positive) "message" = Ok (VStr [])
  /\ textual (VStr [])
  /\ (runCalls undefined failingHelper echoHelper [c; c; c] st).1
     = [Threw (Thrown (VRef 3%positive));
        Threw (Error (VStr (js "Failure")));
        Threw (Error (VStr (js "Failure")))]
  /\ calls (runCalls undefined failingHelper echoHelper [c; c; c] st).2
     = [StaticHelperCalled (VRef 1%positive)].
Proof.
  intros c st.
  assert (Hcs : Forall (fun c => callOn 1%positive c
                                 /\ memoizable c.1.2 1%positive = true) [c; c; c]).
  { repeat constructor; apply valid_wellShaped; vm_compute; reflexivity. }
  assert (Hs : memoTable st !! 1%positive = None) by reflexivity.
  assert (Hm : getProp c.1.2 (VRef 3%positive) "message" = Ok (VStr []))
    by reflexivity.
  assert (Ht : textual (VStr [])) by (left; reflexivity).
  split; [exact Hcs |]. split; [exact Hs |]. split; [reflexivity |].
  split; [reflexivity |]. split; [exact Hm |]. split; [exact Ht |].
  exact (proj2 (static_failure_is_replayed undefined failingHelper echoHelper
                  1%positive c [c; c] st (VRef 3%positive) (VStr []) Hcs Hs
                  eq_refl eq_refl Hm Ht)).
Defined.

(** C6, as stated, fails: a lone argument that is not an array is a
    configuration, and the call returns a tagged function. *)
Lemma lone_non_array_argument_configures :
  let '(myTag, st, h) := memoizedTagFunction (T := value) ∅ in
  Array_isArray h (VPrim (PNum 5)) = false
  /\ usingOptions undefined lengthHelper echoHelper myTag h [VPrim (PNum 5)] st
     = (Configured (VPrim (PNum 5)), st)
  /\ forall e, (usingOptions undefined lengthHelper echoHelper myTag h
                  [VPrim (PNum 5)] st).1 <> Threw e.
Proof.
  vm_compute. repeat split; discriminate.
Qed.

Lemma malformed_call_is_rejected_witness :
  let args := [VRef 1%positive] in
  (Array_isArray fooBarStore (hd undefined args) = true \/ tl args <> [])
  /\ ~ wellShaped fooBarStore (hd undefined args) (tl args)
  /\ exists e, InvalidInput e
               /\ usingOptions undefined lengthHelper echoHelper undefined fooBarStore
                    args (Cache ∅ []) = (Threw e, Cache ∅ []).
Proof.
  intros args.
  assert (H1 : Array_isArray fooBarStore (hd undefined args) = true \/ tl args <> [])
    by (left; reflexivity).
  assert (H2 : ~ wellShaped fooBarStore (hd undefined args) (tl args)).
  { intros Hw. apply wellShaped_valid in Hw. vm_compute in Hw. discriminate. }
  split; [exact H1 |]. split; [exact H2 |].
  exact (malformed_call_is_rejected undefined lengthHelper echoHelper undefined
           fooBarStore args (Cache ∅ []) H1 H2).
Defined.

Lemma configuration_is_bound_per_function_witness :
  let A := VStr (js "A") in
  let B := VStr (js "B") in
  let cA := (A, fooBarStore, [VRef 1%positive; VPrim (PNum 0)]) in
  let cB := (B, fooBarStore, [VRef 1%positive; VPrim (PNum 1)]) in
  let st := Cache (T := value) ∅ [] in
  callOn 1%positive cA /\ callOn 1%positive cB
  /\ memoizable fooBarStore 1%positive = true
  /\ memoTable st !! 1%positive = None
  /\ lengthHelper fooBarStore (VRef 1%positive) = Returns (VPrim (PNum 2))
  /\ (runCalls undefined lengthHelper echoHelper [cA; cB] st).1
     = [combine echoHelper (VPrim (PNum 2)) cA; combine echoHelper (VPrim (PNum 2)) cB]
  /\ staticHelperCalls (VRef 1%positive)
       (runCalls undefined lengthHelper echoHelper [cA; cB] st).2 = 1%nat.
Proof.
  intros A B cA cB st.
  assert (HA : callOn 1%positive cA)
    by (split; [apply valid_wellShaped; vm_compute |]; reflexivity).
  assert (HB : callOn 1%positive cB)
    by (split; [apply valid_wellShaped; vm_compute |]; reflexivity).
  assert (Hc : memoizable fooBarStore 1%positive = true) by reflexivity.
  assert (Hs : memoTable st !! 1%positive = None) by reflexivity.
  assert (Ht : lengthHelper fooBarStore (VRef 1%positive) = Returns (VPrim (PNum 2)))
    by reflexivity.
  split; [exact HA |]. split; [exact HB |]. split; [exact Hc |].
  split; [exact Hs |]. split; [exact Ht |].
  exact (proj2 (proj2 (proj2 (configuration_is_bound_per_function
                                undefined lengthHelper echoHelper)))
           A B 1%positive fooBarStore fooBarStore _ _ st (VPrim (PNum 2))
           HA Hc HB Hc Hs Ht).
Defined.

(** * Escape processing *)

Lemma replaceAll_skip matchAt k s :
  replaceAll matchAt k s = replaceAll matchAt O (drop k s).
Proof.
  revert k. induction s as [| c s IH]; intros [| k]; simpl; auto.
Qed.

Lemma ESCAPE_SEQUENCE_matchAt_length s len :
  ESCAPE_SEQUENCE_matchAt s = Some len -> (2 <= len)%nat.
Proof.
  unfold ESCAPE_SEQUENCE_matchAt.
  destruct s as [| c [| d rest]]; try discriminate.
  repeat match goal with
         | |- context [if ?b then _ else _] => destruct b
         | |- context [match ?l with [] => _ | _ :: _ => _ end] => destruct l
         end; intros [= <-] || discriminate; lia.
Qed.

Lemma cook_unmatched c s :
  ESCAPE_SEQUENCE_matchAt (c :: s) = None -> cook (c :: s) = c :: cook s.
Proof.
  intros H. unfold cook. cbn [replaceAll]. rewrite H. reflexivity.
Qed.

Lemma cook_matched s len :
  ESCAPE_SEQUENCE_matchAt s = Some len ->
  cook s = cookEscape (take len s) ++ cook (drop len s).
Proof.
  intros H. pose proof (ESCAPE_SEQUENCE_matchAt_length s len H) as Hlen.
  destruct s as [| c s]; [discriminate |].
  unfold cook. cbn [replaceAll]. rewrite H, replaceAll_skip.
  destruct len as [| len]; [lia |]. reflexivity.
Qed.

Lemma cook_plain c s : c <> BACKSLASH -> cook (c :: s) = c :: cook s.
Proof.
  intros Hc. apply cook_unmatched. unfold ESCAPE_SEQUENCE_matchAt.
  destruct s; [reflexivity |].
  destruct (Z.eqb_spec c BACKSLASH); [contradiction | reflexivity].
Qed.

Lemma digitValue_hex c :
  isHexDigit c = true -> digitValue c = Some (hexValue c) /\ 0 <= hexValue c < 16.
Proof.
  unfold isHexDigit, digitValue, hexValue. intros H.
  repeat match goal with
         | |- context [?a <=? ?b] => destruct (Z.leb_spec a b)
         end; simpl in *; try discriminate; split; (reflexivity || lia).
Qed.

Lemma digitValue_octal c :
  isOctalDigit c = true -> digitValue c = Some (c - 48) /\ 0 <= c - 48 < 8.
Proof.
  unfold isOctalDigit, digitValue. intros H.
  repeat match goal with
         | |- context [?a <=? ?b] => destruct (Z.leb_spec a b)
         end; simpl in *; try discriminate; split; (reflexivity || lia).
Qed.

(** [parseInt] of a run of octal digits, from any accumulator. *)
Lemma parseDigits_octal digits : forall acc,
  forallb isOctalDigit digits = true ->
  (acc <> None \/ digits <> []) ->
  parseDigits 8 acc digits
  = Some (fold_left (fun a d => a * 8 + (d - 48)) digits (default 0 acc)).
Proof.
  induction digits as [| d digits IH]; intros acc Hd Hne.
  - destruct Hne as [Hne | Hne]; [| done]. destruct acc; [reflexivity | done].
  - simpl in Hd. apply andb_prop in Hd as [Hd Hds].
    destruct (digitValue_octal d Hd) as [Hv Hr].
    cbn [parseDigits]. rewrite Hv.
    replace (d - 48 <? 8) with true by (symmetry; apply Z.ltb_lt; lia).
    rewrite IH; [reflexivity | exact Hds | left; discriminate].
Qed.

Lemma octalValue_bound digits :
  forallb isOctalDigit digits = true ->
  0 <= octalValue digits < 8 ^ Z.of_nat (List.length digits).
Proof.
  unfold octalValue.
  assert (H : forall acc n, 0 <= acc < 8 ^ Z.of_nat n ->
            forallb isOctalDigit digits = true ->
            0 <= fold_left (fun a d => a * 8 + (d - 48)) digits acc
              < 8 ^ Z.of_nat (n + List.length digits)).
  { induction digits as [| d digits IH]; intros acc n Hacc Hd.
    - simpl. by rewrite Nat.add_0_r.
    - simpl in Hd. apply andb_prop in Hd as [Hd Hds].
      destruct (digitValue_octal d Hd) as [_ Hr]. cbn [fold_left List.length].
      replace (n + S (List.length digits))%nat with (S n + List.length digits)%nat by lia.
      apply IH; [| exact Hds].
      rewrite Nat2Z.inj_succ, Z.pow_succ_r by lia. lia. }
  intros Hd. apply (H 0 O); [simpl; lia | exact Hd].
Qed.

Lemma classRun_all p n digits rest :
  forallb p digits = true -> (List.length digits <= n)%nat ->
  (List.length digits = n \/ continuesWith p rest = false) ->
  classRun p n (digits ++ rest) = List.length digits.
Proof.
  revert n. induction digits as [| d digits IH]; intros n Hd Hn Hstop.
  - simpl. destruct n; [reflexivity |].
    destruct Hstop as [Hstop | Hstop]; [discriminate |].
    destruct rest as [| c rest]; [reflexivity |]. simpl in *. by rewrite Hstop.
  - simpl in Hd. apply andb_prop in Hd as [Hd Hds].
    destruct n; [simpl in Hn; lia |]. simpl. rewrite Hd. f_equal.
    apply IH; [exact Hds | simpl in Hn; lia |].
    destruct Hstop as [Hstop | Hstop]; [left; simpl in Hstop; lia | by right].
Qed.

(** A legacy octal escape: a first digit of the class [first], then the
    digits [digits], at most [more] of them and as many as there are. *)
Lemma cook_octal (first : Z -> bool) more d digits rest :
  (forall s, isOctalDigit d = true ->
     ESCAPE_SEQUENCE_matchAt (BACKSLASH :: d :: s)
     = Some (2 + classRun isOctalDigit more s)%nat) ->
  isOctalDigit d = true ->
  forallb isOctalDigit digits = true ->
  (List.length digits <= more)%nat -> (more <= 2)%nat ->
  (List.length digits = more \/ continuesWith isOctalDigit rest = false) ->
  cook (BACKSLASH :: d :: digits ++ rest) = octalValue (d :: digits) :: cook rest.
Proof.
  intros Hmatch Hd Hds Hlen Hmore Hstop.
  rewrite (cook_matched _ _ (Hmatch _ Hd)),
    (classRun_all isOctalDigit more digits rest Hds Hlen Hstop).
  replace (drop (2 + List.length digits) (BACKSLASH :: d :: digits ++ rest)) with rest
    by (cbn [Nat.add drop]; by rewrite drop_app_length).
  replace (take (2 + List.length digits) (BACKSLASH :: d :: digits ++ rest))
    with (BACKSLASH :: d :: digits)
    by (cbn [Nat.add take]; by rewrite take_app_length).
  unfold cookEscape, SV_TABLE.
  assert (Hrange : 48 <= d <= 55).
  { unfold isOctalDigit in Hd. apply andb_prop in Hd as [H1 H2].
    apply Z.leb_le in H1, H2. lia. }
  repeat match goal with
         | |- context [?a =? ?b] =>
             replace (a =? b) with false by (symmetry; apply Z.eqb_neq; unfold LF, CR, LS, PS; lia)
         end.
  rewrite Hd. cbn [orb drop].
  unfold parseInt. rewrite (parseDigits_octal (d :: digits) None);
    [| simpl; by rewrite Hd, Hds | right; discriminate].
  pose proof (octalValue_bound (d :: digits)) as Hb.
  unfold octalValue in *. cbn [default app] in *. unfold fromCharCode.
  cbn [forallb] in Hb. rewrite Hd, Hds in Hb. specialize (Hb eq_refl).
  rewrite Z.mod_small; [reflexivity |]. cbn [List.length] in Hb.
  assert (8 ^ Z.of_nat (S (List.length digits)) <= 8 ^ 3)
    by (apply Z.pow_le_mono_r; lia).
  lia.
Qed.

Lemma cook_nonSpecial c s :
  nonSpecial c = true -> cook (BACKSLASH :: c :: s) = c :: cook s.
Proof.
  unfold nonSpecial, isLineTerminator, isMnemonic. intros H.
  apply negb_true_iff in H.
  repeat match goal with
         | Hor : _ || _ = false |- _ => apply orb_false_elim in Hor as [? ?]
         end.
  rewrite (cook_matched _ 2).
  - cbn [take drop]. unfold cookEscape, SV_TABLE.
    repeat match goal with
           | Heq : (c =? _) = false |- _ => rewrite Heq; clear Heq
           | Heq : isOctalDigit c = false |- _ => rewrite Heq; clear Heq
           end.
    reflexivity.
  - unfold ESCAPE_SEQUENCE_matchAt.
    repeat match goal with
           | Heq : (c =? _) = false |- _ => rewrite Heq; clear Heq
           | Heq : isOctalDigit c = false |- _ => rewrite Heq; clear Heq
           end.
    reflexivity.
Qed.

Lemma cook_mnemonic c v s :
  (c, v) ∈ mnemonics -> cook (BACKSLASH :: c :: s) = v :: cook s.
Proof.
  unfold mnemonics. intros H.
  repeat (apply elem_of_cons in H as [[= -> ->] | H];
          [by rewrite (cook_matched _ 2) |]).
  by apply elem_of_nil in H.
Qed.

Lemma cook_lineContinuation t s :
  t ∈ lineBreakTokens ->
  (t = [CR] -> continuesWith (Z.eqb LF) s = false) ->
  cook (BACKSLASH :: t ++ s) = cook s.
Proof.
  unfold lineBreakTokens. intros H Hcr.
  apply elem_of_cons in H as [-> | H]; [by rewrite (cook_matched _ 3) |].
  apply elem_of_cons in H as [-> | H].
  { specialize (Hcr eq_refl). destruct s as [| e s].
    - by rewrite (cook_matched _ 2).
    - cbn [continuesWith] in Hcr. rewrite Z.eqb_sym in Hcr.
      rewrite (cook_matched _ 2); [reflexivity |].
      unfold ESCAPE_SEQUENCE_matchAt. cbn [app]. rewrite Hcr. reflexivity. }
  repeat (apply elem_of_cons in H as [-> | H]; [by rewrite (cook_matched _ 2) |]).
  by apply elem_of_nil in H.
Qed.

Lemma SV_TABLE_x :
  SV_TABLE 120 = Some (SvFunction (fun x => fromCharCode (parseInt (drop 2 x) 16))).
Proof. reflexivity. Qed.

Lemma SV_TABLE_u :
  SV_TABLE 117 = Some (SvFunction (fun x => fromCharCode (parseInt (drop 2 x) 16))).
Proof. reflexivity. Qed.

Lemma cook_hex2 a b s :
  isHexDigit a = true -> isHexDigit b = true ->
  cook (BACKSLASH :: 120 :: a :: b :: s) = (hexValue a * 16 + hexValue b) :: cook s.
Proof.
  intros Ha Hb.
  destruct (digitValue_hex a Ha) as [Hva Hra], (digitValue_hex b Hb) as [Hvb Hrb].
  rewrite (cook_matched _ 4); [| cbn; by rewrite Ha, Hb].
  cbn [take drop]. rewrite take_0, drop_0.
  unfold cookEscape. rewrite SV_TABLE_x. cbn [drop].
  unfold parseInt. cbn [parseDigits]. rewrite Hva, Hvb.
  replace (hexValue a <? 16) with true by (symmetry; apply Z.ltb_lt; lia).
  replace (hexValue b <? 16) with true by (symmetry; apply Z.ltb_lt; lia).
  cbn [from_option id fromCharCode app]. rewrite Z.mod_small by lia. f_equal; lia.
Qed.

Lemma cook_hex4 a b c d s :
  isHexDigit a = true -> isHexDigit b = true ->
  isHexDigit c = true -> isHexDigit d = true ->
  cook (BACKSLASH :: 117 :: a :: b :: c :: d :: s)
  = (((hexValue a * 16 + hexValue b) * 16 + hexValue c) * 16 + hexValue d) :: cook s.
Proof.
  intros Ha Hb Hc Hd.
  destruct (digitValue_hex a Ha) as [Hva Hra], (digitValue_hex b Hb) as [Hvb Hrb],
    (digitValue_hex c Hc) as [Hvc Hrc], (digitValue_hex d Hd) as [Hvd Hrd].
  rewrite (cook_matched _ 6); [| cbn; by rewrite Ha, Hb, Hc, Hd].
  cbn [take drop]. rewrite take_0, drop_0.
  unfold cookEscape. rewrite SV_TABLE_u. cbn [drop].
  unfold parseInt. cbn [parseDigits]. rewrite Hva, Hvb, Hvc, Hvd.
  replace (hexValue a <? 16) with true by (symmetry; apply Z.ltb_lt; lia).
  replace (hexValue b <? 16) with true by (symmetry; apply Z.ltb_lt; lia).
  replace (hexValue c <? 16) with true by (symmetry; apply Z.ltb_lt; lia).
  replace (hexValue d <? 16) with true by (symmetry; apply Z.ltb_lt; lia).
  cbn [from_option id fromCharCode app]. rewrite Z.mod_small by lia. f_equal; lia.
Qed.

Lemma cook_octal03 d digits s :
  isOctal03 d = true -> forallb isOctalDigit digits = true ->
  (List.length digits <= 2)%nat ->
  (List.length digits = 2%nat \/ continuesWith isOctalDigit s = false) ->
  cook (BACKSLASH :: d :: digits ++ s) = octalValue (d :: digits) :: cook s.
Proof.
  intros Hd. assert (Hrange : 48 <= d <= 51).
  { unfold isOctal03 in Hd. apply andb_prop in Hd as [H1 H2].
    apply Z.leb_le in H1, H2. lia. }
  assert (Ho : isOctalDigit d = true).
  { unfold isOctalDigit. apply andb_true_intro. split; apply Z.leb_le; lia. }
  intros Hds Hlen Hstop.
  apply (cook_octal isOctal03 2); try assumption; [| lia].
  intros s' _. unfold ESCAPE_SEQUENCE_matchAt.
  rewrite Ho, Hd. cbn [Z.eqb Pos.eqb BACKSLASH orb negb].
  repeat match goal with
         | |- context [d =? ?b] =>
             replace (d =? b) with false by (symmetry; apply Z.eqb_neq; unfold CR; lia)
         end.
  reflexivity.
Qed.

Lemma cook_octal47 d digits s :
  isOctal47 d = true -> forallb isOctalDigit digits = true ->
  (List.length digits <= 1)%nat ->
  (List.length digits = 1%nat \/ continuesWith isOctalDigit s = false) ->
  cook (BACKSLASH :: d :: digits ++ s) = octalValue (d :: digits) :: cook s.
Proof.
  intros Hd. assert (Hrange : 52 <= d <= 55).
  { unfold isOctal47 in Hd. apply andb_prop in Hd as [H1 H2].
    apply Z.leb_le in H1, H2. lia. }
  assert (Ho : isOctalDigit d = true).
  { unfold isOctalDigit. apply andb_true_intro. split; apply Z.leb_le; lia. }
  assert (H03 : isOctal03 d = false).
  { unfold isOctal03. apply andb_false_intro2. apply Z.leb_gt. lia. }
  intros Hds Hlen Hstop.
  apply (cook_octal isOctal47 1); try assumption; [| lia].
  intros s' _. unfold ESCAPE_SEQUENCE_matchAt.
  rewrite Ho, Hd, H03. cbn [Z.eqb Pos.eqb BACKSLASH orb negb].
  repeat match goal with
         | |- context [d =? ?b] =>
             replace (d =? b) with false by (symmetry; apply Z.eqb_neq; unfold CR; lia)
         end.
  reflexivity.
Qed.

(** * The trimmer on the store *)

Lemma trim_fast_path h l ts rawArr o :
  templateObject h l = Some (ts, rawArr) ->
  choosePrefixPattern
    (commonPrefixOfTemplateStrings (elems rawArr) (List.length (elems ts))) o = None ->
  trimCommonWhitespaceFromLines h l o = Some (Ok l, h).
Proof.
  intros Ht Hp. unfold trimCommonWhitespaceFromLines. by rewrite Ht, Hp.
Qed.

Lemma trim_throws h l ts rawArr o p e :
  templateObject h l = Some (ts, rawArr) ->
  choosePrefixPattern
    (commonPrefixOfTemplateStrings (elems rawArr) (List.length (elems ts))) o = Some p ->
  trimmedRawOf p (elems rawArr) (List.length (elems ts)) o = Throw e ->
  trimCommonWhitespaceFromLines h l o = Some (Throw e, h).
Proof.
  intros Ht Hp He. unfold trimCommonWhitespaceFromLines. by rewrite Ht, Hp, He.
Qed.

(** Below the fast path two new arrays are made, frozen, the cooked one
    pointing at the raw one. *)
Lemma trim_slow_path h l ts rawArr o p trimmedRaw :
  templateObject h l = Some (ts, rawArr) ->
  choosePrefixPattern
    (commonPrefixOfTemplateStrings (elems rawArr) (List.length (elems ts))) o = Some p ->
  trimmedRawOf p (elems rawArr) (List.length (elems ts)) o = Ok trimmedRaw ->
  exists res rawRes,
    h !! res = None /\ h !! rawRes = None /\ res <> rawRes
    /\ trimCommonWhitespaceFromLines h l o
       = Some (Ok res,
               <[res := Obj true true (PStr <$> (cook <$> trimmedRaw))
                          {["raw" := VRef rawRes]}]>
                 (<[rawRes := Obj true true (PStr <$> trimmedRaw) ∅]> h)).
Proof.
  intros Ht Hp Hr. unfold trimCommonWhitespaceFromLines. rewrite Ht, Hp, Hr.
  unfold alloc.
  set (rawRes := fresh (dom h)).
  set (o1 := Obj true false (PStr <$> trimmedRaw) ∅).
  set (res := fresh (dom (<[rawRes := o1]> h))).
  set (o2 := Obj true false (PStr <$> (cook <$> trimmedRaw)) ∅).
  assert (Hraw : h !! rawRes = None).
  { apply not_elem_of_dom. apply is_fresh. }
  assert (Hres : <[rawRes := o1]> h !! res = None).
  { apply not_elem_of_dom. apply is_fresh. }
  assert (Hne : res <> rawRes).
  { intros Heq. rewrite Heq, lookup_insert_eq in Hres. discriminate. }
  rewrite lookup_insert_ne in Hres by done.
  exists res, rawRes. repeat split; try done.
  unfold setProp. rewrite lookup_insert_eq. cbn [frozen o2 isArray elems props].
  unfold Object_freeze at 2.
  rewrite lookup_insert_ne by done. rewrite lookup_insert_ne by done.
  rewrite lookup_insert_eq.
  unfold Object_freeze. rewrite lookup_insert_ne by done. rewrite lookup_insert_eq.
  cbn [frozen o1 isArray elems props]. rewrite insert_empty.
  do 2 f_equal. apply map_eq. intros i.
  destruct (decide (i = res)) as [Hi | Hi].
  - rewrite Hi. by rewrite !lookup_insert_eq.
  - rewrite !(lookup_insert_ne _ res) by done.
    destruct (decide (i = rawRes)) as [Hi' | Hi'].
    + rewrite Hi'. by rewrite !lookup_insert_eq.
    + by rewrite !lookup_insert_ne by done.
Qed.

Lemma frozen_immutable h l o :
  h !! l = Some o -> frozen o = true -> immutable h l.
Proof.
  intros Ho Hf. unfold immutable, setProp, setElem, pushElem.
  by rewrite Ho, Hf.
Qed.

(** C5 (amended). Trimming starts only if the first raw chunk has a line
    terminator somewhere: when it has none and no end-of-line option is
    asked for, the call returns the template object it was given, the same
    object in the same store. *)
Theorem no_line_break_returns_the_input h l ts rawArr :
  templateObject h l = Some (ts, rawArr) ->
  LINE_TERMINATORS_exec (ToString (elemAt (elems rawArr) 0)) = false ->
  trimCommonWhitespaceFromLines h l (TrimOptions false false) = Some (Ok l, h).
Proof.
  intros Ht Hlt. apply (trim_fast_path h l ts rawArr _ Ht).
  unfold commonPrefixOfTemplateStrings. by rewrite Hlt.
Qed.

Lemma no_line_break_returns_the_input_witness :
  templateObject fooBarStore 1%positive
  = Some (Obj true true (PStr <$> [js "foo"; js "bar"]) {["raw" := VRef 2%positive]},
          Obj true true (PStr <$> [js "foo"; js "bar"]) ∅)
  /\ LINE_TERMINATORS_exec (ToString (elemAt (PStr <$> [js "foo"; js "bar"]) 0)) = false
  /\ trimCommonWhitespaceFromLines fooBarStore 1%positive (TrimOptions false false)
     = Some (Ok 1%positive, fooBarStore).
Proof.
  assert (Ht : templateObject fooBarStore 1%positive
               = Some (Obj true true (PStr <$> [js "foo"; js "bar"])
                         {["raw" := VRef 2%positive]},
                       Obj true true (PStr <$> [js "foo"; js "bar"]) ∅))
    by reflexivity.
  split; [exact Ht |]. split; [reflexivity |].
  exact (no_line_break_returns_the_input fooBarStore 1%positive _ _ Ht eq_refl).
Defined.

(** C5, as stated, fails: the first raw chunk [foo\n  bar] does not begin
    with a line break, no option is set, and the call returns a new object
    whose raw chunk is [foo\nbar]. *)
Lemma line_break_inside_first_chunk_trims :
  continuesWith isLineTerminator indentedSecondLine = false
  /\ exists res h',
       trimCommonWhitespaceFromLines frozenIndented 1%positive (TrimOptions false false)
       = Some (Ok res, h')
       /\ res <> 1%positive
       /\ chunksOf h' res
          = Some ([PStr (js "foo" ++ [LF] ++ js "bar")],
                  [PStr (js "foo" ++ [LF] ++ js "bar")]).
Proof.
  split; [reflexivity |].
  eexists _, _. split; [vm_compute; reflexivity |].
  split; [discriminate | vm_compute; reflexivity].
Qed.

(** * The end-of-line options *)

Lemma replace_LINE_TERMINATOR_AT_START_spec s :
  replace_LINE_TERMINATOR_AT_START s = withoutLeadingLineBreak s.
Proof.
  unfold replace_LINE_TERMINATOR_AT_START, LINE_TERMINATOR_AT_START_match,
    withoutLeadingLineBreak, lineBreakTokens.
  destruct s as [| c s]; [reflexivity |].
  cbn [List.find startsWith andb].
  rewrite !(Z.eqb_sym _ c).
  destruct (Z.eqb_spec c CR) as [-> | Hcr].
  - destruct s as [| d s]; [reflexivity |].
    rewrite !(Z.eqb_sym _ d). cbn [andb].
    destruct (d =? LF); reflexivity.
  - destruct s as [| d s]; cbn [andb];
      destruct (c =? LF), (c =? LS), (c =? PS); reflexivity.
Qed.

Lemma LINE_TERMINATOR_AT_END_long c rest :
  (2 <= List.length rest)%nat -> LINE_TERMINATOR_AT_END_matchAt (c :: rest) = false.
Proof.
  destruct rest as [| d [| e s]]; simpl List.length; try lia. intros _.
  unfold LINE_TERMINATOR_AT_END_matchAt. destruct (c =? CR); by rewrite andb_false_r.
Qed.

Lemma replace_LINE_TERMINATOR_AT_END_app p x y :
  replace_LINE_TERMINATOR_AT_END (p ++ [x; y])
  = p ++ replace_LINE_TERMINATOR_AT_END [x; y].
Proof.
  induction p as [| c p IH]; [reflexivity |].
  cbn [app replace_LINE_TERMINATOR_AT_END].
  replace (LINE_TERMINATOR_AT_END_matchAt (c :: p ++ [x; y])) with false.
  - by rewrite IH.
  - symmetry. apply LINE_TERMINATOR_AT_END_long. rewrite length_app. simpl. lia.
Qed.

Lemma two_last (s : jsstring) :
  (2 <= List.length s)%nat -> exists p x y, s = p ++ [x; y].
Proof.
  intros Hlen.
  destruct (rev s) as [| y [| x r]] eqn:Hrev.
  - apply (f_equal (@List.length Z)) in Hrev. rewrite length_rev in Hrev. simpl in Hrev. lia.
  - apply (f_equal (@List.length Z)) in Hrev. rewrite length_rev in Hrev. simpl in Hrev. lia.
  - exists (rev r), x, y. rewrite <- (rev_involutive s), Hrev. simpl.
    by rewrite <- app_assoc.
Qed.

Lemma replace_LINE_TERMINATOR_AT_END_spec s :
  replace_LINE_TERMINATOR_AT_END s = withoutTrailingLineBreak s.
Proof.
  destruct s as [| a [| b s]].
  - reflexivity.
  - unfold withoutTrailingLineBreak, lineBreakTokens, endsWith, isLineTerminator.
    cbn [replace_LINE_TERMINATOR_AT_END LINE_TERMINATOR_AT_END_matchAt rev app
           List.find startsWith andb].
    unfold isLineTerminator. rewrite !(Z.eqb_sym _ a).
    destruct (a =? CR), (a =? LF), (a =? LS), (a =? PS); reflexivity.
  - destruct (two_last (a :: b :: s)) as (p & x & y & ->); [simpl; lia |].
    rewrite replace_LINE_TERMINATOR_AT_END_app.
    unfold withoutTrailingLineBreak, lineBreakTokens, endsWith.
    rewrite rev_app_distr.
    cbn [replace_LINE_TERMINATOR_AT_END LINE_TERMINATOR_AT_END_matchAt rev app
           List.find startsWith andb].
    unfold isLineTerminator. rewrite !(Z.eqb_sym _ y), !(Z.eqb_sym _ x).
    rewrite !andb_false_r, !andb_true_r, !orb_false_r, length_app.
    assert (H2 : take (List.length p + List.length [x; y] - 2) (p ++ [x; y]) = p).
    { replace (List.length p + List.length [x; y] - 2)%nat with (List.length p)
        by (simpl; lia).
      apply take_app_length. }
    assert (H1 : take (List.length p + List.length [x; y] - 1) (p ++ [x; y]) = p ++ [x]).
    { replace (List.length p + List.length [x; y] - 1)%nat with (List.length (p ++ [x]))
        by (rewrite length_app; simpl; lia).
      replace (p ++ [x; y]) with ((p ++ [x]) ++ [y]) by (by rewrite <- app_assoc).
      apply take_app_length. }
    destruct (x =? CR) eqn:Hx, (y =? CR) eqn:Hy1, (y =? LF) eqn:Hy2,
      (y =? LS) eqn:Hy3, (y =? PS) eqn:Hy4;
      cbn [andb orb];
      try (apply Z.eqb_eq in Hy1; subst y; discriminate);
      try (apply Z.eqb_eq in Hy2; subst y; discriminate);
      try (apply Z.eqb_eq in Hy3; subst y; discriminate);
      change (List.length [CR; LF]) with 2%nat;
      change (List.length [CR]) with 1%nat; change (List.length [LF]) with 1%nat;
      change (List.length [LS]) with 1%nat; change (List.length [PS]) with 1%nat;
      rewrite ?H1, ?H2, ?app_nil_r; reflexivity.
Qed.

Lemma mapM_callReplace f (raw : list jsstring) :
  mapM (callReplace f) (PStr <$> raw) = Ok (f <$> raw).
Proof.
  induction raw as [| s raw IH]; [reflexivity |].
  rewrite !fmap_cons. cbn [mapM callReplace bind]. by rewrite IH.
Qed.

Lemma replaceAt_alter f i (arr : list jsstring) :
  (i < List.length arr)%nat -> replaceAt f (Z.of_nat i) arr = Ok (alter f i arr).
Proof.
  intros Hi. unfold replaceAt.
  replace (Z.of_nat i <? 0) with false by (symmetry; apply Z.ltb_ge; lia).
  rewrite Nat2Z.id.
  destruct (lookup_lt_is_Some_2 arr i Hi) as [s Hs]. rewrite Hs. f_equal.
  revert i Hi Hs. induction arr as [| a arr IH]; intros [| i] Hi Hs; try done.
  - by injection Hs as ->.
  - simpl. f_equal. apply IH; [simpl in Hi; lia | exact Hs].
Qed.

(** On a sequence of strings nothing throws, and the end-of-line options do
    what the specification says. *)
Lemma trimmedRawOf_strings p (raw : list jsstring) o :
  raw <> [] ->
  trimmedRawOf p (PStr <$> raw) (List.length raw) o
  = Ok (withoutBoundaryLineBreaks o (replace_prefixPattern p <$> raw)).
Proof.
  intros Hne. unfold trimmedRawOf, withoutBoundaryLineBreaks.
  rewrite mapM_callReplace. cbn [bind].
  set (dedented := replace_prefixPattern p <$> raw).
  assert (Hlen : List.length dedented = List.length raw) by apply length_fmap.
  assert (Hpos : (0 < List.length raw)%nat) by (destruct raw; [done | simpl; lia]).
  assert (Hstart :
            (if trimEolAtStart o
             then replaceAt replace_LINE_TERMINATOR_AT_START 0 dedented
             else Ok dedented)
            = Ok (if trimEolAtStart o
                  then alter withoutLeadingLineBreak O dedented else dedented)).
  { destruct (trimEolAtStart o); [| reflexivity].
    rewrite (replaceAt_alter _ O) by lia. f_equal.
    apply list_alter_ext; [| done]. intros s _. apply replace_LINE_TERMINATOR_AT_START_spec. }
  rewrite Hstart. cbn [bind].
  set (chunks := if trimEolAtStart o
                 then alter withoutLeadingLineBreak O dedented else dedented).
  assert (Hlen' : List.length chunks = List.length raw).
  { unfold chunks. destruct (trimEolAtStart o); [by rewrite length_alter | done]. }
  destruct (trimEolAtEnd o); [| reflexivity].
  replace (Z.of_nat (List.length raw) - 1) with (Z.of_nat (List.length chunks - 1)) by lia.
  rewrite replaceAt_alter by lia. f_equal.
  apply list_alter_ext; [| done]. intros s _. apply replace_LINE_TERMINATOR_AT_END_spec.
Qed.

Lemma chunksOf_built (h : heap) res rawRes cooked raw :
  res <> rawRes ->
  chunksOf (<[res := Obj true true cooked {["raw" := VRef rawRes]}]>
              (<[rawRes := Obj true true raw ∅]> h)) res
  = Some (cooked, raw).
Proof.
  intros Hne. unfold chunksOf, templateObject.
  rewrite lookup_insert_eq. cbn [isArray props].
  rewrite lookup_singleton_eq, lookup_insert_ne by done.
  rewrite lookup_insert_eq. reflexivity.
Qed.

(** C9 (amended). A result the trimmer builds is frozen, its raw is a frozen
    array attached as [raw], and no assignment changes either; on the fast
    path the result is the template object given, so it is frozen whenever
    that one is.  On a chunk sequence of strings the call does return. *)
Theorem built_result_is_frozen :
  (forall h l o res h',
     trimCommonWhitespaceFromLines h l o = Some (Ok res, h') ->
     (res = l /\ h' = h \/ h !! res = None)
     /\ (res <> l \/ frozenTemplate h l ->
         frozenTemplate h' res /\ immutable h' res
         /\ exists rawRes,
              getProp h' (VRef res) "raw" = Ok (VRef rawRes) /\ immutable h' rawRes))
  /\ (forall h l ts rawArr raw o,
        templateObject h l = Some (ts, rawArr) ->
        elems rawArr = PStr <$> raw ->
        List.length (elems ts) = List.length raw ->
        raw <> [] ->
        exists res h', trimCommonWhitespaceFromLines h l o = Some (Ok res, h')).
Proof.
  split.
  2: { intros h l ts rawArr raw o Ht Hraw Hlen Hne.
       destruct (choosePrefixPattern
                   (commonPrefixOfTemplateStrings (elems rawArr)
                      (List.length (elems ts))) o) as [p |] eqn:Hp.
       - pose proof (trimmedRawOf_strings p raw o Hne) as Hr.
         rewrite <- Hraw, <- Hlen in Hr.
         destruct (trim_slow_path h l ts rawArr o p _ Ht Hp Hr)
           as (res & rawRes & _ & _ & _ & Htrim).
         eauto.
       - rewrite (trim_fast_path h l ts rawArr o Ht Hp). eauto. }
  intros h l o res h' Htrim.
  destruct (templateObject h l) as [[ts rawArr] |] eqn:Ht;
    [| unfold trimCommonWhitespaceFromLines in Htrim; rewrite Ht in Htrim; discriminate].
  destruct (choosePrefixPattern
              (commonPrefixOfTemplateStrings (elems rawArr) (List.length (elems ts))) o)
    as [p |] eqn:Hp.
  - destruct (trimmedRawOf p (elems rawArr) (List.length (elems ts)) o)
      as [trimmedRaw | e] eqn:Hr.
    + destruct (trim_slow_path h l ts rawArr o p trimmedRaw Ht Hp Hr)
        as (res' & rawRes & Hres & Hraw & Hne & Heq).
      rewrite Heq in Htrim. injection Htrim as <- <-.
      split; [by right |]. intros _.
      assert (H1 : forall x y, <[res' := x]> (<[rawRes := y]> h) !! res' = Some x)
        by (intros; apply lookup_insert_eq).
      assert (H2 : forall x y, <[res' := x]> (<[rawRes := y]> h) !! rawRes = Some y)
        by (intros; rewrite lookup_insert_ne by done; apply lookup_insert_eq).
      split; [| split].
      * eexists _, rawRes, _. rewrite H1, H2.
        repeat split; reflexivity || apply lookup_singleton_eq.
      * by apply (frozen_immutable _ _ _ (H1 _ _)).
      * exists rawRes. split; [| by apply (frozen_immutable _ _ _ (H2 _ _))].
        rewrite (getProp_raw_array _ _ _ (H1 _ _)). cbn [props].
        by rewrite lookup_singleton_eq.
    + rewrite (trim_throws h l ts rawArr o p e Ht Hp Hr) in Htrim. discriminate.
  - rewrite (trim_fast_path h l ts rawArr o Ht Hp) in Htrim.
    injection Htrim as <- <-. split; [by left |].
    intros [Hne | (ts' & rawLoc & rawArr' & Hl & Ha & Hf & Hraw & Hrl & Hra & Hrf)];
      [done |].
    split; [by exists ts', rawLoc, rawArr' |].
    split; [by apply (frozen_immutable _ _ _ Hl) |].
    exists rawLoc. split; [| by apply (frozen_immutable _ _ _ Hrl)].
    by rewrite (getProp_raw_array _ _ _ Hl), Hraw.
Qed.

Lemma built_result_is_frozen_witness :
  let o := TrimOptions true true in
  exists res h',
    trimCommonWhitespaceFromLines barStore 1%positive o = Some (Ok res, h')
    /\ (res = 1%positive /\ h' = barStore \/ barStore !! res = None)
    /\ (res <> 1%positive \/ frozenTemplate barStore 1%positive ->
        frozenTemplate h' res /\ immutable h' res
        /\ exists rawRes,
             getProp h' (VRef res) "raw" = Ok (VRef rawRes) /\ immutable h' rawRes).
Proof.
  intros o.
  assert (H : exists res h',
            trimCommonWhitespaceFromLines barStore 1%positive o = Some (Ok res, h'))
    by (vm_compute; eauto).
  destruct H as (res & h' & H). exists res, h'.
  split; [exact H |].
  exact (proj1 built_result_is_frozen barStore 1%positive o res h' H).
Defined.

(** C9, as stated, fails: for a hand-made sequence that is not frozen and
    has nothing to trim, the result is that sequence, which is not frozen
    and can still be pushed to. *)
Lemma fast_path_result_can_be_mutable :
  trimCommonWhitespaceFromLines handMadeStore 1%positive (TrimOptions false false)
  = Some (Ok 1%positive, handMadeStore)
  /\ Object_isFrozen handMadeStore (VRef 1%positive) = false
  /\ pushElem handMadeStore 1%positive (PStr (js "baz")) <> handMadeStore.
Proof.
  split; [reflexivity |]. split; [reflexivity |].
  intros Heq.
  assert (H : elems <$> (pushElem handMadeStore 1%positive (PStr (js "baz")) !! 1%positive)
              = elems <$> (handMadeStore !! 1%positive)) by (by rewrite Heq).
  vm_compute in H. discriminate.
Qed.

(** C7. With an end-of-line option set, on a chunk sequence of strings, the
    call returns new chunks: the raw chunks, dedented if a common prefix was
    found and as they are if none was, with one leading line-break token
    off the first chunk if [trimEolAtStart] and there is one, and one
    trailing token off the last chunk if [trimEolAtEnd] and there is one.  On
    the single chunk of the test [at both] the cooked result is [['bar']]. *)
Theorem eol_options_remove_one_line_break :
  (forall h l ts rawArr raw o,
     templateObject h l = Some (ts, rawArr) ->
     elems rawArr = PStr <$> raw ->
     List.length (elems ts) = List.length raw ->
     raw <> [] ->
     trimEolAtStart o || trimEolAtEnd o = true ->
     exists p res h',
       choosePrefixPattern
         (commonPrefixOfTemplateStrings (elems rawArr) (List.length raw)) o = Some p
       /\ (commonPrefixOfTemplateStrings (elems rawArr) (List.length raw) = Some []
           -> replace_prefixPattern p <$> raw = raw)
       /\ trimCommonWhitespaceFromLines h l o = Some (Ok res, h')
       /\ let trimmedRaw :=
            withoutBoundaryLineBreaks o (replace_prefixPattern p <$> raw) in
          chunksOf h' res = Some (PStr <$> (cook <$> trimmedRaw), PStr <$> trimmedRaw))
  /\ (exists res h',
        trimCommonWhitespaceFromLines barStore 1%positive (TrimOptions true true)
        = Some (Ok res, h')
        /\ chunksOf h' res = Some ([PStr (js "bar")], [PStr (js "bar")])).
Proof.
  split.
  - intros h l ts rawArr raw o Ht Hraw Hlen Hne Ho.
    destruct (choosePrefixPattern
                (commonPrefixOfTemplateStrings (elems rawArr) (List.length raw)) o)
      as [p |] eqn:Hp.
    2: { unfold choosePrefixPattern in Hp. rewrite Ho in Hp.
         destruct (commonPrefixOfTemplateStrings _ _) as [[| ? ?] |]; discriminate. }
    exists p.
    pose proof (trimmedRawOf_strings p raw o Hne) as Hr.
    rewrite <- Hraw, <- Hlen in Hr. rewrite <- Hlen in Hp.
    destruct (trim_slow_path h l ts rawArr o p _ Ht Hp Hr)
      as (res & rawRes & _ & _ & Hneq & Htrim).
    eexists res, _. split; [reflexivity |]. split; [| split; [exact Htrim |]].
    + intros Hnone. rewrite Hlen, Hnone in Hp. unfold choosePrefixPattern in Hp.
      rewrite Ho in Hp. injection Hp as <-. cbn [replace_prefixPattern].
      apply list_fmap_id.
    + cbn zeta. by apply chunksOf_built.
  - eexists _, _. split; vm_compute; reflexivity.
Qed.

Lemma eol_options_remove_one_line_break_witness :
  let o := TrimOptions true false in
  let raw := [barChunk] in
  let ts := Obj true true (PStr <$> raw) {["raw" := VRef 2%positive]} in
  let rawArr := Obj true true (PStr <$> raw) ∅ in
  templateObject barStore 1%positive = Some (ts, rawArr)
  /\ elems rawArr = PStr <$> raw
  /\ List.length (elems ts) = List.length raw
  /\ raw <> []
  /\ trimEolAtStart o || trimEolAtEnd o = true
  /\ exists p res h',
       choosePrefixPattern
         (commonPrefixOfTemplateStrings (elems rawArr) (List.length raw)) o = Some p
       /\ (commonPrefixOfTemplateStrings (elems rawArr) (List.length raw) = Some []
           -> replace_prefixPattern p <$> raw = raw)
       /\ trimCommonWhitespaceFromLines barStore 1%positive o = Some (Ok res, h')
       /\ let trimmedRaw :=
            withoutBoundaryLineBreaks o (replace_prefixPattern p <$> raw) in
          chunksOf h' res = Some (PStr <$> (cook <$> trimmedRaw), PStr <$> trimmedRaw).
Proof.
  intros o raw ts rawArr.
  assert (Ht : templateObject barStore 1%positive = Some (ts, rawArr)) by reflexivity.
  assert (Hne : raw <> []) by discriminate.
  split; [exact Ht |]. split; [reflexivity |]. split; [reflexivity |].
  split; [exact Hne |]. split; [reflexivity |].
  exact (proj1 eol_options_remove_one_line_break barStore 1%positive ts rawArr raw o
           Ht eq_refl eq_refl Hne eq_refl).
Defined.

(** C4. [cook] follows the escape grammar: a code unit outside an escape
    is kept; after a backslash, a character that is not special stands for
    itself; [x] and two hexadecimal digits, or [u] and four, give the code
    unit of that number; a legacy octal escape gives the code unit of its
    octal value; a line break gives nothing; the mnemonics give their
    control characters.  The trimmer cooks each trimmed raw chunk on its
    own and keeps the raw chunk beside it. *)
Theorem cook_follows_escape_grammar :
  (forall c s, c <> BACKSLASH -> cook (c :: s) = c :: cook s)
  /\ (forall c s, nonSpecial c = true -> cook (BACKSLASH :: c :: s) = c :: cook s)
  /\ (forall a b s,
        isHexDigit a = true -> isHexDigit b = true ->
        cook (BACKSLASH :: 120 :: a :: b :: s)
        = (hexValue a * 16 + hexValue b) :: cook s)
  /\ (forall a b c d s,
        isHexDigit a = true -> isHexDigit b = true ->
        isHexDigit c = true -> isHexDigit d = true ->
        cook (BACKSLASH :: 117 :: a :: b :: c :: d :: s)
        = (((hexValue a * 16 + hexValue b) * 16 + hexValue c) * 16 + hexValue d)
            :: cook s)
  /\ (forall d digits s,
        isOctal03 d = true -> forallb isOctalDigit digits = true ->
        (List.length digits <= 2)%nat ->
        (List.length digits = 2%nat \/ continuesWith isOctalDigit s = false) ->
        cook (BACKSLASH :: d :: digits ++ s) = octalValue (d :: digits) :: cook s)
  /\ (forall d digits s,
        isOctal47 d = true -> forallb isOctalDigit digits = true ->
        (List.length digits <= 1)%nat ->
        (List.length digits = 1%nat \/ continuesWith isOctalDigit s = false) ->
        cook (BACKSLASH :: d :: digits ++ s) = octalValue (d :: digits) :: cook s)
  /\ (forall t s,
        t ∈ lineBreakTokens ->
        (t = [CR] -> continuesWith (Z.eqb LF) s = false) ->
        cook (BACKSLASH :: t ++ s) = cook s)
  /\ (forall c v s, (c, v) ∈ mnemonics -> cook (BACKSLASH :: c :: s) = v :: cook s)
  /\ (forall h l o res h',
        trimCommonWhitespaceFromLines h l o = Some (Ok res, h') -> res <> l ->
        exists trimmedRaw,
          chunksOf h' res = Some (PStr <$> (cook <$> trimmedRaw), PStr <$> trimmedRaw))
  /\ cook (js "\foo " ++ [BACKSLASH] ++ js "u1234 \x56 \n \0")
     = [12] ++ js "oo " ++ [4660] ++ js " V " ++ [10] ++ js " " ++ [0]
  /\ (exists res h',
        trimCommonWhitespaceFromLines continuationStore 1%positive (TrimOptions false false)
        = Some (Ok res, h')
        /\ chunksOf h' res
           = Some ([PStr ([LF] ++ js "foobar")],
                   [PStr ([LF] ++ js "foo\" ++ [LF] ++ js "bar")])).
Proof.
  split; [exact cook_plain |]. split; [exact cook_nonSpecial |].
  split; [exact cook_hex2 |]. split; [exact cook_hex4 |].
  split; [exact cook_octal03 |]. split; [exact cook_octal47 |].
  split; [exact cook_lineContinuation |]. split; [exact cook_mnemonic |].
  split; [| split; [vm_compute; reflexivity |]].
  - intros h l o res h' Htrim Hne.
    destruct (templateObject h l) as [[ts rawArr] |] eqn:Ht;
      [| unfold trimCommonWhitespaceFromLines in Htrim; rewrite Ht in Htrim; discriminate].
    destruct (choosePrefixPattern
                (commonPrefixOfTemplateStrings (elems rawArr) (List.length (elems ts))) o)
      as [p |] eqn:Hp.
    + destruct (trimmedRawOf p (elems rawArr) (List.length (elems ts)) o)
        as [trimmedRaw | e] eqn:Hr.
      * destruct (trim_slow_path h l ts rawArr o p trimmedRaw Ht Hp Hr)
          as (res' & rawRes & _ & _ & Hneq & Heq).
        rewrite Heq in Htrim. injection Htrim as <- <-.
        exists trimmedRaw. by apply chunksOf_built.
      * rewrite (trim_throws h l ts rawArr o p e Ht Hp Hr) in Htrim. discriminate.
    + rewrite (trim_fast_path h l ts rawArr o Ht Hp) in Htrim.
      injection Htrim as <- <-. done.
  - eexists _, _. split; vm_compute; reflexivity.
Qed.

(** Beyond the grammar: [x[0-9A-Fa-f]{0,2}] also takes an [x] with fewer
    than two hexadecimal digits, and [parseInt] of no digit is [NaN], which
    [String.fromCharCode] sends to the code unit 0. *)
Example cook_short_hex_escape :
  cook (js "\xZ") = [0] ++ js "Z" /\ cook (js "\x5Z") = [5] ++ js "Z".
Proof. split; reflexivity. Qed.

Lemma cook_follows_escape_grammar_witness :
  isHexDigit 53 = true /\ isHexDigit 54 = true
  /\ cook (BACKSLASH :: 120 :: 53 :: 54 :: js " and") = 86 :: cook (js " and").
Proof.
  split; [reflexivity |]. split; [reflexivity |].
  exact (proj1 (proj2 (proj2 cook_follows_escape_grammar)) 53 54 (js " and")
           eq_refl eq_refl).
Defined.

(** * Splitting a chunk into lines *)

Lemma pieces_cons c s :
  pieces (c :: s)
  = if isLineTerminator c then
      match (pieces s).1, (pieces s).2 with
      | [], (run, fragment) :: more' => ([], (c :: run, fragment) :: more')
      | _, _ => ([], ([c], (pieces s).1) :: (pieces s).2)
      end
    else (c :: (pieces s).1, (pieces s).2).
Proof.
  cbn [pieces]. by destruct (pieces s) as [first more].
Qed.

Lemma pieces_invariant s :
  joinPieces (pieces s).1 (pieces s).2 = s
  /\ Forall (fun c => isLineTerminator c = false) (pieces s).1
  /\ Forall (fun piece : jsstring * jsstring =>
               piece.1 <> []
               /\ Forall (fun c => isLineTerminator c = true) piece.1
               /\ Forall (fun c => isLineTerminator c = false) piece.2)
       (pieces s).2
  /\ (continuesWith isLineTerminator s = true
      <-> (pieces s).1 = [] /\ (pieces s).2 <> []).
Proof.
  induction s as [| c s (Hjoin & Hfirst & Hmore & Hhead)].
  - repeat split; try constructor; try done. by intros [_ ?].
  - rewrite pieces_cons. cbn [continuesWith].
    destruct (isLineTerminator c) eqn:Hc.
    + destruct (pieces s) as [first more]. cbn [fst snd] in *.
      destruct first as [| a first].
      * destruct more as [| [run fragment] more].
        -- cbn [fst snd]. unfold joinPieces in *. simpl in *. subst s.
           repeat split; try done; repeat constructor; try done.
        -- cbn [fst snd]. unfold joinPieces in *. simpl in *. subst s.
           apply Forall_cons in Hmore as [(Hrun & Hlt & Hfrag) Hmore].
           repeat split; try done; repeat constructor; try done.
      * cbn [fst snd]. unfold joinPieces in *. simpl in *. subst s.
        repeat split; try done; repeat constructor; try done;
          by apply Forall_cons in Hfirst as [? ?].
    + destruct (pieces s) as [first more]. cbn [fst snd] in *.
      unfold joinPieces in *. simpl in *. subst s.
      repeat split; try done; try (by constructor). by intros [? _].
Qed.

(** The fragments of [pieces] are the lines of [split]. *)
Lemma splitFrom_pieces s :
  splitFrom false s = (pieces s).1 :: (snd <$> (pieces s).2)
  /\ splitFrom true s
     = if continuesWith isLineTerminator s then snd <$> (pieces s).2
       else (pieces s).1 :: (snd <$> (pieces s).2).
Proof.
  induction s as [| c s [IH1 IH2]]; [done |].
  destruct (pieces_invariant s) as (_ & _ & _ & Hhead).
  rewrite pieces_cons. cbn [splitFrom continuesWith].
  destruct (isLineTerminator c) eqn:Hc.
  - rewrite IH2.
    destruct (continuesWith isLineTerminator s) eqn:Hs.
    + destruct (proj1 Hhead eq_refl) as [Hf Hm]. rewrite Hf.
      destruct (pieces s).2 as [| [run fragment] more]; done.
    + assert (Hnot : ~ ((pieces s).1 = [] /\ (pieces s).2 <> [])).
      { intros H. apply Hhead in H. discriminate. }
      destruct (pieces s).1 as [| a first]; [| done].
      destruct (pieces s).2 as [| [run fragment] more]; [done |].
      exfalso. by apply Hnot.
  - by rewrite IH1.
Qed.

Lemma lineFragments_split chunk :
  lineFragments chunk = tail (split_LINE_TERMINATORS chunk).
Proof.
  unfold lineFragments, split_LINE_TERMINATORS.
  by rewrite (proj1 (splitFrom_pieces chunk)).
Qed.

Lemma lineFragments_nonempty chunk :
  LINE_TERMINATORS_exec chunk = true -> lineFragments chunk <> [].
Proof.
  unfold LINE_TERMINATORS_exec, lineFragments.
  induction chunk as [| c chunk IH]; [discriminate |].
  rewrite pieces_cons. cbn [existsb].
  destruct (isLineTerminator c).
  - intros _. destruct (pieces chunk).1; [| done].
    destruct (pieces chunk).2 as [| [run fragment] more]; done.
  - exact IH.
Qed.

(** * The common prefix *)

Lemma commonPrefixOf_prefix_l a b : commonPrefixOf a b `prefix_of` a.
Proof.
  revert b. induction a as [| x a IH]; intros [| y b]; try apply prefix_nil.
  cbn [commonPrefixOf]. destruct (x =? y); [| apply prefix_nil].
  by apply prefix_cons.
Qed.

Lemma commonPrefixOf_prefix_r a b : commonPrefixOf a b `prefix_of` b.
Proof.
  revert b. induction a as [| x a IH]; intros [| y b]; try apply prefix_nil.
  cbn [commonPrefixOf]. destruct (Z.eqb_spec x y) as [-> |]; [| apply prefix_nil].
  by apply prefix_cons.
Qed.

Lemma commonPrefixOf_greatest q a b :
  q `prefix_of` a -> q `prefix_of` b -> q `prefix_of` commonPrefixOf a b.
Proof.
  revert a b. induction q as [| z q IH]; intros a b Ha Hb; [apply prefix_nil |].
  destruct a as [| x a]; [by apply prefix_nil_inv in Ha |].
  destruct b as [| y b]; [by apply prefix_nil_inv in Hb |].
  apply prefix_cons_inv_1 in Ha as Hx. apply prefix_cons_inv_1 in Hb as Hy.
  apply prefix_cons_inv_2 in Ha. apply prefix_cons_inv_2 in Hb. subst x y.
  cbn [commonPrefixOf]. rewrite Z.eqb_refl. apply prefix_cons. by apply IH.
Qed.

Lemma foldPrefix_nil runs : foldPrefix (Some []) runs = Some [].
Proof.
  unfold foldPrefix. induction runs as [| run runs IH]; [reflexivity |].
  cbn [fold_left]. exact IH.
Qed.

Lemma scanLines_foldPrefix lines : forall commonPrefix,
  scanLines commonPrefix lines = foldPrefix commonPrefix (WS_RUN_exec <$> lines).
Proof.
  induction lines as [| line lines IH]; intros commonPrefix; [reflexivity |].
  rewrite fmap_cons. unfold foldPrefix. cbn [scanLines fold_left].
  fold (foldPrefix
          (Some match commonPrefix with
                | Some cp => commonPrefixOf cp (WS_RUN_exec line)
                | None => WS_RUN_exec line
                end) (WS_RUN_exec <$> lines)).
  destruct (match commonPrefix with
            | Some cp => commonPrefixOf cp (WS_RUN_exec line)
            | None => WS_RUN_exec line
            end) as [| c cp'] eqn:Hcp.
  - by rewrite foldPrefix_nil.
  - apply IH.
Qed.

Lemma foldPrefix_app acc runs runs' :
  foldPrefix acc (runs ++ runs') = foldPrefix (foldPrefix acc runs) runs'.
Proof. unfold foldPrefix. apply fold_left_app. Qed.

Lemma foldPrefix_longest run runs :
  foldPrefix None (run :: runs) = Some (longestCommonPrefix (run :: runs)).
Proof.
  unfold foldPrefix, longestCommonPrefix. cbn [fold_left].
  generalize run. induction runs as [| r runs IH]; intros acc; [reflexivity |].
  cbn [fold_left]. apply IH.
Qed.

(** The loop over the indices of [raw] is a fold over the chunks. *)
Lemma fold_left_indices {A} (F : A -> jsstring -> A) (l : list jsstring) :
  forall (pre : list jsstring) (a : A),
  fold_left (fun acc i => F acc (ToString (elemAt (PStr <$> (pre ++ l)) i)))
    (seq (List.length pre) (List.length l)) a
  = fold_left F l a.
Proof.
  induction l as [| x l IH]; intros pre a; [reflexivity |].
  cbn [List.length seq fold_left].
  replace (ToString (elemAt (PStr <$> (pre ++ x :: l)) (List.length pre))) with x.
  - specialize (IH (pre ++ [x]) (F a x)).
    rewrite <- app_assoc, length_app in IH. cbn [List.length app] in IH.
    rewrite Nat.add_1_r in IH. exact IH.
  - unfold elemAt. rewrite list_lookup_fmap, list_lookup_middle; done.
Qed.

Lemma fold_chunks (raw : list jsstring) : forall acc,
  fold_left (fun acc chunk => scanLines acc (tail (split_LINE_TERMINATORS chunk))) raw acc
  = foldPrefix acc (WS_RUN_exec <$> concat (lineFragments <$> raw)).
Proof.
  induction raw as [| chunk raw' IH]; intros acc; [reflexivity |].
  cbn [fold_left]. rewrite IH, fmap_cons. cbn [concat].
  by rewrite fmap_app, foldPrefix_app, scanLines_foldPrefix, lineFragments_split.
Qed.

Lemma commonPrefix_is_fold (raw : list jsstring) :
  LINE_TERMINATORS_exec (ToString (elemAt (PStr <$> raw) 0)) = true ->
  commonPrefixOfTemplateStrings (PStr <$> raw) (List.length raw)
  = foldPrefix None (WS_RUN_exec <$> concat (lineFragments <$> raw)).
Proof.
  intros Hlt. unfold commonPrefixOfTemplateStrings. rewrite Hlt. cbn [negb].
  rewrite (fold_left_indices
             (fun acc chunk => scanLines acc (tail (split_LINE_TERMINATORS chunk)))
             raw []).
  apply fold_chunks.
Qed.

Lemma WS_RUN_exec_prefix line : WS_RUN_exec line `prefix_of` line.
Proof.
  induction line as [| c line IH]; [done |].
  cbn [WS_RUN_exec]. destruct (isWhitespace c); [by apply prefix_cons | apply prefix_nil].
Qed.

Lemma WS_RUN_exec_whitespace line :
  Forall (fun c => isWhitespace c = true) (WS_RUN_exec line).
Proof.
  induction line as [| c line IH]; [constructor |].
  cbn [WS_RUN_exec]. destruct (isWhitespace c) eqn:Hc; by constructor.
Qed.

Lemma fold_commonPrefixOf_prefix runs : forall acc,
  fold_left commonPrefixOf runs acc `prefix_of` acc
  /\ Forall (fun run => fold_left commonPrefixOf runs acc `prefix_of` run) runs.
Proof.
  induction runs as [| run runs IH]; intros acc; [by split |].
  cbn [fold_left]. destruct (IH (commonPrefixOf acc run)) as [Hacc Hruns].
  split; [| constructor; [| exact Hruns]].
  - etrans; [exact Hacc | apply commonPrefixOf_prefix_l].
  - etrans; [exact Hacc | apply commonPrefixOf_prefix_r].
Qed.

Lemma longestCommonPrefix_common runs :
  Forall (fun run => longestCommonPrefix runs `prefix_of` run) runs.
Proof.
  destruct runs as [| run runs]; [constructor |].
  cbn [longestCommonPrefix]. destruct (fold_commonPrefixOf_prefix runs run).
  by constructor.
Qed.


(** * Stripping the prefix *)

Lemma isWhitespace_not_terminator c :
  isWhitespace c = true -> isLineTerminator c = false.
Proof.
  unfold isWhitespace, isLineTerminator, LF, CR, LS, PS. intros H.
  repeat match goal with
         | Hor : _ || _ = true |- _ => apply orb_prop in Hor as [Hor | Hor]
         end; apply Z.eqb_eq in H; subst c; reflexivity.
Qed.

Lemma startsWith_prefix p s : startsWith p s = true <-> p `prefix_of` s.
Proof.
  revert s. induction p as [| x p IH]; intros s.
  - split; [intros _; apply prefix_nil | done].
  - destruct s as [| y s]; cbn [startsWith].
    + split; [done | intros H; by apply prefix_nil_inv in H].
    + rewrite andb_true_iff, Z.eqb_eq, IH. split.
      * intros [-> Hp]. by apply prefix_cons.
      * intros H. split; [by apply prefix_cons_inv_1 in H | by apply prefix_cons_inv_2 in H].
Qed.

Section Dedent.

Variable prefix : jsstring.
Hypothesis prefix_nonempty : prefix <> [].
Hypothesis prefix_whitespace : Forall (fun c => isWhitespace c = true) prefix.

Local Abbreviation R := (replaceAll (prefixPattern_matchAt prefix) O).

Lemma replace_fragment first t :
  Forall (fun c => isLineTerminator c = false) first ->
  R (first ++ t) = first ++ R t.
Proof.
  induction first as [| c first IH]; intros Hf; [reflexivity |].
  apply Forall_cons in Hf as [Hc Hf].
  cbn [app replaceAll]. unfold prefixPattern_matchAt at 1.
  cbn [terminatorRun]. rewrite Hc. cbn [backtrackRun]. by rewrite IH.
Qed.

Lemma terminatorRun_run run t :
  Forall (fun c => isLineTerminator c = true) run ->
  continuesWith isLineTerminator t = false ->
  terminatorRun (run ++ t) = List.length run.
Proof.
  intros Hrun Ht. induction Hrun as [| c run Hc Hrun IH].
  - destruct t as [| c t]; [reflexivity |]. cbn in *. by rewrite Ht.
  - cbn [app terminatorRun List.length]. by rewrite Hc, IH.
Qed.

Lemma prefixed_not_terminator fragment t :
  prefix `prefix_of` fragment -> continuesWith isLineTerminator (fragment ++ t) = false.
Proof.
  intros [rest ->]. destruct prefix as [| w p]; [done |].
  apply Forall_cons in prefix_whitespace as [Hw _].
  cbn. by apply isWhitespace_not_terminator.
Qed.

(** A run of line terminators followed by the prefix is one match. *)
Lemma replace_run run fragment t :
  run <> [] -> Forall (fun c => isLineTerminator c = true) run ->
  prefix `prefix_of` fragment ->
  R (run ++ fragment ++ t) = run ++ R (drop (List.length prefix) fragment ++ t).
Proof.
  intros Hne Hrun Hp.
  assert (Hmatch : prefixPattern_matchAt prefix (run ++ fragment ++ t)
                   = Some ((List.length run + List.length prefix)%nat, run)).
  { unfold prefixPattern_matchAt.
    rewrite (terminatorRun_run run _ Hrun (prefixed_not_terminator fragment t Hp)).
    destruct (List.length run) as [| k] eqn:Hk; [by destruct run |].
    cbn [backtrackRun]. rewrite <- Hk, drop_app_length.
    replace (startsWith prefix (fragment ++ t)) with true.
    - by rewrite take_app_length.
    - symmetry. apply startsWith_prefix. by apply prefix_app_r. }
  destruct run as [| c run]; [done |].
  cbn [app replaceAll]. cbn [app] in Hmatch. rewrite Hmatch.
  rewrite replaceAll_skip.
  destruct Hp as [rest ->].
  cbn [List.length Nat.add Nat.pred app].
  rewrite drop_app_length, <- !app_assoc, <- drop_drop, !drop_app_length.
  reflexivity.
Qed.

Lemma replace_pieces more : forall first,
  Forall (fun c => isLineTerminator c = false) first ->
  Forall (fun piece : jsstring * jsstring =>
            piece.1 <> []
            /\ Forall (fun c => isLineTerminator c = true) piece.1
            /\ Forall (fun c => isLineTerminator c = false) piece.2) more ->
  Forall (fun piece : jsstring * jsstring => prefix `prefix_of` piece.2) more ->
  R (joinPieces first more)
  = joinPieces first
      ((fun piece => (piece.1, drop (List.length prefix) piece.2)) <$> more).
Proof.
  induction more as [| [run fragment] more IH]; intros first Hfirst Hmore Hp.
  - unfold joinPieces. cbn. by rewrite replace_fragment.
  - apply Forall_cons in Hmore as [(Hne & Hrun & Hfrag) Hmore].
    apply Forall_cons in Hp as [Hpf Hp]. cbn [fst snd] in *.
    unfold joinPieces. rewrite !fmap_cons. cbn [concat fst snd].
    rewrite (replace_fragment first _ Hfirst). f_equal.
    rewrite <- !app_assoc. rewrite (replace_run run fragment _ Hne Hrun Hpf). f_equal.
    apply (IH (drop (List.length prefix) fragment)); [| exact Hmore | exact Hp].
    by apply Forall_drop.
Qed.

(** [chunk.replace(prefixPattern, '$1')] takes the prefix off every line
    fragment, when each of them begins with it. *)
Lemma replace_dedent chunk :
  Forall (fun fragment => prefix `prefix_of` fragment) (lineFragments chunk) ->
  replace_prefixPattern (LineBreakThenPrefix prefix) chunk = dedent prefix chunk.
Proof.
  intros Hp. destruct (pieces_invariant chunk) as (Hjoin & Hfirst & Hmore & _).
  unfold dedent. cbn [replace_prefixPattern].
  rewrite <- Hjoin at 1. apply replace_pieces; try done.
  unfold lineFragments in Hp. rewrite Forall_fmap in Hp. exact Hp.
Qed.

End Dedent.

(** * Dedenting *)

Lemma activation_first_chunk (raw : list jsstring) :
  LINE_TERMINATORS_exec (ToString (elemAt (PStr <$> raw) 0)) = true ->
  exists chunk raw', raw = chunk :: raw' /\ LINE_TERMINATORS_exec chunk = true.
Proof.
  destruct raw as [| chunk raw']; [intros H; vm_compute in H; discriminate |].
  intros H. by exists chunk, raw'.
Qed.




(** * The scenarios of the test suite *)

Example test_empty_string :
  trimmed [[]] (TrimOptions false false) = Some ([[]], [[]]).
Proof. reflexivity. Qed.

Example test_one_line :
  trimmed [js "foo"] (TrimOptions false false) = Some ([js "foo"], [js "foo"]).
Proof. reflexivity. Qed.

Example test_one_line_esc :
  trimmed [js "\\oo"] (TrimOptions false false)
  = Some ([js "\oo"], [js "\\oo"]).
Proof. reflexivity. Qed.

Example test_two_lines :
  trimmed [[LF] ++ js "      "] (TrimOptions false false) = Some ([[LF]], [[LF]]).
Proof. vm_compute. reflexivity. Qed.

Example test_three_lines_escs :
  trimmed [[LF] ++ js "      \foo " ++ [BACKSLASH] ++ js "u1234 \x56 \n        \r\n \0"
             ++ [LF] ++ js "      \bar"]
    (TrimOptions false false)
  = Some ([[LF; 12] ++ js "oo " ++ [4660] ++ js " V " ++ [LF] ++ js "        "
             ++ [CR; LF] ++ js " " ++ [0; LF; 8] ++ js "ar"],
          [[LF] ++ js "\foo " ++ [BACKSLASH] ++ js "u1234 \x56 \n        \r\n \0"
             ++ [LF] ++ js "\bar"]).
Proof. vm_compute. reflexivity. Qed.

Example test_redundant_escape :
  trimmed [[LF] ++ js "      foo\/bar" ++ [LF] ++ js "      baz"] (TrimOptions false false)
  = Some ([[LF] ++ js "foo/bar" ++ [LF] ++ js "baz"],
          [[LF] ++ js "foo\/bar" ++ [LF] ++ js "baz"]).
Proof. vm_compute. reflexivity. Qed.

Example test_minimum_in_subsequent_line :
  trimmed [[LF] ++ js "        >" ++ [LF] ++ js "      Hello, ";
           js "!" ++ [LF] ++ js "        <"] (TrimOptions false false)
  = Some ([[LF] ++ js "  >" ++ [LF] ++ js "Hello, "; js "!" ++ [LF] ++ js "  <"],
          [[LF] ++ js "  >" ++ [LF] ++ js "Hello, "; js "!" ++ [LF] ++ js "  <"]).
Proof. vm_compute. reflexivity. Qed.

Example test_mix_of_spaces_and_tabs :
  trimmed [[LF; 9] ++ js ">" ++ [LF] ++ js " Hello, "; js "!" ++ [LF; 9] ++ js "<"]
    (TrimOptions false false)
  = Some ([[LF; 9] ++ js ">" ++ [LF] ++ js " Hello, "; js "!" ++ [LF; 9] ++ js "<"],
          [[LF; 9] ++ js ">" ++ [LF] ++ js " Hello, "; js "!" ++ [LF; 9] ++ js "<"]).
Proof. vm_compute. reflexivity. Qed.

Example test_late_line_not_indented :
  trimmed [[LF] ++ js "        foo" ++ [LF] ++ js "        bar" ++ [LF] ++ js "baz"]
    (TrimOptions false false)
  = Some ([[LF] ++ js "        foo" ++ [LF] ++ js "        bar" ++ [LF] ++ js "baz"],
          [[LF] ++ js "        foo" ++ [LF] ++ js "        bar" ++ [LF] ++ js "baz"]).
Proof. vm_compute. reflexivity. Qed.

Example test_eol_at_start :
  trimmed [barChunk] (TrimOptions true false)
  = Some ([js "bar" ++ [LF]], [js "bar" ++ [LF]]).
Proof. vm_compute. reflexivity. Qed.

Example test_eol_at_end :
  trimmed [barChunk] (TrimOptions false true)
  = Some ([[LF] ++ js "bar"], [[LF] ++ js "bar"]).
Proof. vm_compute. reflexivity. Qed.

Example test_eol_without_dedenting :
  trimmed [[LF] ++ js "bar" ++ [LF]] (TrimOptions true true)
  = Some ([js "bar"], [js "bar"]).
Proof. vm_compute. reflexivity. Qed.

Example test_invalid_empty_array :
  myTagCall (withArray 1%positive [] ∅ ∅) [VRef 1%positive] = Threw TypeError.
Proof. reflexivity. Qed.

Example test_invalid_string_array_no_raw :
  myTagCall (withArray 1%positive [PStr (js "foo")] ∅ ∅) [VRef 1%positive]
  = Threw TypeError.
Proof. reflexivity. Qed.

Example test_invalid_bad_value_in_raw :
  myTagCall
    (withArray 1%positive [PStr (js "foo")] {["raw" := VRef 2%positive]}
       (withArray 2%positive [PNum 123] ∅ ∅))
    [VRef 1%positive]
  = Threw (Error (VStr (js "Invalid static strings"))).
Proof. vm_compute. reflexivity. Qed.

Example test_invalid_bad_value_in_baked :
  myTagCall
    (withArray 1%positive [PNum 123] {["raw" := VRef 2%positive]}
       (withArray 2%positive [PStr (js "123")] ∅ ∅))
    [VRef 1%positive]
  = Threw (Error (VStr (js "Invalid static strings"))).
Proof. vm_compute. reflexivity. Qed.

Example test_invalid_too_few_args :
  myTagCall
    (withArray 1%positive [PStr (js "123"); PStr (js "456")] {["raw" := VRef 2%positive]}
       (withArray 2%positive [PStr (js "123"); PStr (js "456")] ∅ ∅))
    [VRef 1%positive]
  = Threw (Error (VStr (js "Too many or too few dynamic values: 2 != 0"))).
Proof. vm_compute. reflexivity. Qed.

Example test_invalid_too_many_args :
  isThrow
    (myTagCall
       (withArray 1%positive [PStr (js "123"); PStr (js "456")]
          {["raw" := VRef 2%positive]}
          (withArray 2%positive [PStr (js "123"); PStr (js "456")] ∅ ∅))
       [VRef 1%positive; VPrim (PNum 1); VPrim (PNum 2); VPrim (PNum 3)])
  = true.
Proof. vm_compute. reflexivity. Qed.

Example test_detector_array_arguments :
  calledAsTemplateTag
    (withArray 1%positive [PStr (js "foo"); PStr (js "bar")] ∅ ∅)
    (VRef 1%positive) (VPrim (PNum 2))
  = Ok (VBool false)
  /\ calledAsTemplateTag ∅ (VPrim PNull) (VPrim (PNum 2)) = Ok (VBool false)
  /\ calledAsTemplateTag ∅ undefined (VPrim (PNum 0)) = Ok (VBool false)
  /\ calledAsTemplateTag ∅ (VPrim (PNum 0)) (VPrim (PNum 3)) = Ok (VBool false)
  /\ calledAsTemplateTag fooBarStore (VRef 1%positive) (VPrim (PNum 2)) = Ok (VBool true)
  /\ calledAsTemplateTag fooBarStore (VRef 1%positive) (VPrim (PNum 3)) = Ok (VBool false).
Proof. repeat split; vm_compute; reflexivity. Qed.

(** * Further properties of [cook] *)

Lemma cook_nil : cook [] = [].
Proof. reflexivity. Qed.

Lemma classRun_le p max s :
  (classRun p max s <= List.length s)%nat /\ (classRun p max s <= max)%nat.
Proof.
  revert s. induction max as [| max IH]; intros [| c s]; cbn [classRun List.length];
    try (split; lia).
  destruct (p c); [| split; lia]. destruct (IH s). split; lia.
Qed.

Lemma classRun_full p max s :
  classRun p max s = max <->
  (max <= List.length s)%nat /\ forallb p (take max s) = true.
Proof.
  revert s. induction max as [| max IH]; intros [| c s]; cbn [classRun List.length take forallb].
  - split; [intros _; split; [lia | reflexivity] | reflexivity].
  - split; [intros _; split; [lia | reflexivity] | reflexivity].
  - split; [discriminate | intros [H _]; lia].
  - destruct (p c); cbn [andb].
    + rewrite <- Nat.succ_le_mono. rewrite <- IH. split; [by intros [= ->] | by intros ->].
    + split; [discriminate | intros [_ H]; discriminate].
Qed.

(** A match of [ESCAPE_SEQUENCE] lies inside the string. *)
Lemma ESCAPE_SEQUENCE_matchAt_fits s len :
  ESCAPE_SEQUENCE_matchAt s = Some len -> (len <= List.length s)%nat.
Proof.
  unfold ESCAPE_SEQUENCE_matchAt.
  destruct s as [| c [| d rest]]; try discriminate.
  pose proof (classRun_le isHexDigit 2 rest) as [H2 _].
  pose proof (classRun_le isOctalDigit 2 rest) as [H3 _].
  pose proof (classRun_le isOctalDigit 1 rest) as [H4 _].
  destruct (c =? BACKSLASH); [| discriminate].
  destruct (negb _); [intros Hlen%(inj Some); subst len; cbn [List.length]; lia |].
  destruct (d =? 120); [intros Hlen%(inj Some); subst len; cbn [List.length]; lia |].
  destruct (d =? 117).
  { destruct (Nat.eqb_spec (classRun isHexDigit 4 rest) 4) as [H |]; [| discriminate].
    pose proof (classRun_le isHexDigit 4 rest) as [H5 _].
    intros Hlen%(inj Some); subst len. cbn [List.length]. lia. }
  destruct (isOctal03 d); [intros Hlen%(inj Some); subst len; cbn [List.length]; lia |].
  destruct (isOctal47 d); [intros Hlen%(inj Some); subst len; cbn [List.length]; lia |].
  destruct (d =? CR); [| discriminate].
  destruct rest as [| e rest]; [intros Hlen%(inj Some); subst len; cbn [List.length]; lia |].
  destruct (e =? LF); intros Hlen%(inj Some); subst len; cbn [List.length]; lia.
Qed.

(** An escape sequence stands for one code unit at most. *)
Lemma cookEscape_length escSeq : (List.length (cookEscape escSeq) <= 1)%nat.
Proof.
  unfold cookEscape, SV_TABLE, fromCharCode.
  destruct escSeq as [| c [| chr rest]]; cbn [List.length]; try lia.
  repeat match goal with
         | |- context [if ?b then _ else _] => destruct b
         end; cbn [List.length]; try lia;
    match goal with
    | |- context [parseInt ?s ?r] => destruct (parseInt s r)
    end; cbn [List.length]; lia.
Qed.

Lemma fromCharCode_codeUnit n : Forall codeUnit (fromCharCode n).
Proof.
  unfold fromCharCode, codeUnit.
  destruct n as [v |]; repeat constructor; try lia; apply Z.mod_pos_bound; lia.
Qed.

Lemma cookEscape_codeUnit escSeq :
  Forall codeUnit escSeq -> Forall codeUnit (cookEscape escSeq).
Proof.
  unfold cookEscape, SV_TABLE.
  destruct escSeq as [| c [| chr rest]]; intros H; try constructor.
  apply Forall_cons in H as [_ H]. apply Forall_cons in H as [Hchr _].
  repeat match goal with
         | |- context [if ?b then _ else _] => destruct b
         end;
    first [ apply fromCharCode_codeUnit
          | apply Forall_nil_2
          | apply Forall_cons_2; [first [exact Hchr | unfold codeUnit; lia] | apply Forall_nil_2] ].
Qed.

Lemma cook_plain_prefix a b :
  BACKSLASH ∉ a -> cook (a ++ b) = a ++ cook b.
Proof.
  induction a as [| c a IH]; intros Ha; [reflexivity |].
  apply not_elem_of_cons in Ha as [Hc Ha].
  cbn [app]. rewrite cook_plain by done. f_equal. by apply IH.
Qed.

(** X1. Text without a backslash is cooked to itself, whatever follows it. *)
Theorem cook_keeps_plain_text a b :
  BACKSLASH ∉ a -> cook (a ++ b) = a ++ cook b /\ cook a = a.
Proof.
  intros Ha. split; [by apply cook_plain_prefix |].
  rewrite <- (app_nil_r a) at 1. rewrite cook_plain_prefix by done.
  by rewrite cook_nil, app_nil_r.
Qed.

Lemma cook_keeps_plain_text_witness :
  (BACKSLASH ∉ js "Hello, ")
  /\ cook (js "Hello, " ++ js "\tworld") = js "Hello, " ++ cook (js "\tworld")
  /\ cook (js "Hello, ") = js "Hello, ".
Proof.
  assert (H : BACKSLASH ∉ js "Hello, ").
  { apply (bool_decide_unpack _). vm_compute. exact I. }
  split; [exact H |].
  exact (cook_keeps_plain_text (js "Hello, ") (js "\tworld") H).
Defined.

(** X2. Cooking never makes a chunk longer, and a chunk it leaves at its
    length is left as it is. *)
Theorem cook_never_lengthens s :
  (List.length (cook s) <= List.length s)%nat
  /\ (List.length (cook s) = List.length s -> cook s = s).
Proof.
  assert (Hs : (List.length s <= List.length s)%nat) by lia.
  revert Hs. generalize (List.length s) at 2. intros n.
  revert s. induction n as [| n IH]; intros s Hs.
  - destruct s; [by rewrite cook_nil | cbn [List.length] in Hs; lia].
  - destruct s as [| c s]; [by rewrite cook_nil |].
    destruct (ESCAPE_SEQUENCE_matchAt (c :: s)) as [len |] eqn:Hm.
    + (* an escape sequence of two code units or more gives one at most *)
      rewrite (cook_matched _ _ Hm), length_app.
      pose proof (ESCAPE_SEQUENCE_matchAt_length _ _ Hm).
      pose proof (ESCAPE_SEQUENCE_matchAt_fits _ _ Hm).
      pose proof (cookEscape_length (take len (c :: s))).
      destruct (IH (drop len (c :: s))) as [Hle _].
      { rewrite length_drop. cbn [List.length] in *. lia. }
      rewrite length_drop in Hle. cbn [List.length] in *. split; lia.
    + rewrite (cook_unmatched _ _ Hm). cbn [List.length] in *.
      destruct (IH s) as [Hle Heq]; [lia |].
      split; [lia |]. intros H. f_equal. apply Heq. lia.
Qed.

Lemma cook_never_lengthens_witness :
  (List.length (cook (js "a\nb")) <= List.length (js "a\nb"))%nat
  /\ List.length (cook (js "ab")) = List.length (js "ab")
  /\ cook (js "ab") = js "ab".
Proof.
  split; [exact (proj1 (cook_never_lengthens (js "a\nb"))) |].
  split; [reflexivity |].
  exact (proj2 (cook_never_lengthens (js "ab")) eq_refl).
Defined.

(** X3. The cooked chunk of a string of UTF-16 code units is one too. *)
Theorem cook_yields_code_units s :
  Forall codeUnit s -> Forall codeUnit (cook s).
Proof.
  assert (Hs : (List.length s <= List.length s)%nat) by lia.
  revert Hs. generalize (List.length s) at 2. intros n.
  revert s. induction n as [| n IH]; intros s Hs Hu.
  - destruct s; [by rewrite cook_nil | cbn [List.length] in Hs; lia].
  - destruct s as [| c s]; [by rewrite cook_nil |].
    destruct (ESCAPE_SEQUENCE_matchAt (c :: s)) as [len |] eqn:Hm.
    + rewrite (cook_matched _ _ Hm).
      pose proof (ESCAPE_SEQUENCE_matchAt_length _ _ Hm).
      apply Forall_app. split.
      * apply cookEscape_codeUnit. by apply Forall_take.
      * apply IH; [| by apply Forall_drop].
        rewrite length_drop. cbn [List.length] in *. lia.
    + rewrite (cook_unmatched _ _ Hm).
      apply Forall_cons in Hu as [Hc Hu]. constructor; [exact Hc |].
      apply IH; [cbn [List.length] in Hs; lia | exact Hu].
Qed.

Lemma cook_yields_code_units_witness :
  Forall codeUnit (js "\x41\101\n") /\ Forall codeUnit (cook (js "\x41\101\n")).
Proof.
  assert (H : Forall codeUnit (js "\x41\101\n")).
  { unfold codeUnit. repeat constructor; vm_compute; discriminate. }
  split; [exact H |].
  exact (cook_yields_code_units (js "\x41\101\n") H).
Defined.

(** X4. A backslash that begins no escape sequence stays in the cooked
    chunk: [\u] without four hexadecimal digits after it, and a backslash
    that ends the chunk. *)
Theorem cook_keeps_malformed_escapes :
  (forall s, startsWithHexDigits 4 s = false ->
     cook (BACKSLASH :: 117 :: s) = BACKSLASH :: 117 :: cook s)
  /\ (forall a, BACKSLASH ∉ a -> cook (a ++ [BACKSLASH]) = a ++ [BACKSLASH]).
Proof.
  split.
  - intros s Hs.
    assert (Hrun : (classRun isHexDigit 4 s =? 4)%nat = false).
    { apply Nat.eqb_neq. intros H. apply classRun_full in H as [H1 H2].
      unfold startsWithHexDigits in Hs. rewrite H2, andb_true_r in Hs.
      apply Nat.leb_gt in Hs. lia. }
    rewrite cook_unmatched.
    + f_equal. apply cook_plain. discriminate.
    + unfold ESCAPE_SEQUENCE_matchAt. by rewrite Hrun.
  - intros a Ha. by rewrite cook_plain_prefix.
Qed.

Lemma cook_keeps_malformed_escapes_witness :
  startsWithHexDigits 4 (js "12z") = false
  /\ cook (BACKSLASH :: 117 :: js "12z") = BACKSLASH :: 117 :: cook (js "12z")
  /\ (BACKSLASH ∉ js "ab")
  /\ cook (js "ab" ++ [BACKSLASH]) = js "ab" ++ [BACKSLASH].
Proof.
  assert (H : BACKSLASH ∉ js "ab").
  { apply (bool_decide_unpack _). vm_compute. exact I. }
  split; [reflexivity |].
  split; [exact (proj1 cook_keeps_malformed_escapes (js "12z") eq_refl) |].
  split; [exact H |].
  exact (proj2 cook_keeps_malformed_escapes (js "ab") H).
Defined.

(** X5. [\x] is taken as an escape with fewer than two hexadecimal digits
    too: with none it gives the code unit 0, with one the value of that
    digit. *)
Theorem cook_short_hex_escapes :
  (forall s, continuesWith isHexDigit s = false ->
     cook (BACKSLASH :: 120 :: s) = 0 :: cook s)
  /\ (forall a s, isHexDigit a = true -> continuesWith isHexDigit s = false ->
        cook (BACKSLASH :: 120 :: a :: s) = hexValue a :: cook s).
Proof.
  split.
  - intros s Hs.
    rewrite (cook_matched _ 2); [reflexivity |].
    cbn. destruct s as [| c s]; [reflexivity |]. cbn in Hs. by rewrite Hs.
  - intros a s Ha Hs. destruct (digitValue_hex a Ha) as [Hva Hra].
    rewrite (cook_matched _ 3).
    + cbn [take drop]. rewrite take_0, drop_0.
      unfold cookEscape. rewrite SV_TABLE_x. cbn [drop].
      unfold parseInt. cbn [parseDigits]. rewrite Hva.
      replace (hexValue a <? 16) with true by (symmetry; apply Z.ltb_lt; lia).
      cbn [from_option id fromCharCode app]. rewrite Z.mod_small by lia. f_equal; lia.
    + cbn. rewrite Ha. destruct s as [| c s]; [reflexivity |]. cbn in Hs. by rewrite Hs.
Qed.

Lemma cook_short_hex_escapes_witness :
  continuesWith isHexDigit (js "Z") = false
  /\ cook (BACKSLASH :: 120 :: js "Z") = 0 :: cook (js "Z")
  /\ isHexDigit 53 = true
  /\ cook (BACKSLASH :: 120 :: 53 :: js "Z") = hexValue 53 :: cook (js "Z").
Proof.
  split; [reflexivity |].
  split; [exact (proj1 cook_short_hex_escapes (js "Z") eq_refl) |].
  split; [reflexivity |].
  exact (proj2 cook_short_hex_escapes 53 (js "Z") eq_refl eq_refl).
Defined.

(** * Further properties of the common prefix *)

Lemma commonPrefixOf_comm a b : commonPrefixOf a b = commonPrefixOf b a.
Proof.
  revert b. induction a as [| x a IH]; intros [| y b]; try reflexivity.
  cbn [commonPrefixOf]. rewrite (Z.eqb_sym y x).
  destruct (Z.eqb_spec x y) as [-> |]; [by rewrite IH | reflexivity].
Qed.

Lemma commonPrefixOf_assoc a b c :
  commonPrefixOf (commonPrefixOf a b) c = commonPrefixOf a (commonPrefixOf b c).
Proof.
  revert b c. induction a as [| x a IH]; intros [| y b] [| z c]; try reflexivity.
  - cbn [commonPrefixOf]. by destruct (x =? y).
  - cbn [commonPrefixOf].
    destruct (Z.eqb_spec x y) as [-> |], (Z.eqb_spec y z) as [-> |];
      cbn [commonPrefixOf]; rewrite ?Z.eqb_refl; try reflexivity.
    + by rewrite IH.
    + by destruct (Z.eqb_spec y z).
    + by destruct (Z.eqb_spec x z).
Qed.

Lemma commonPrefixOf_idem a : commonPrefixOf a a = a.
Proof.
  induction a as [| x a IH]; [reflexivity |].
  cbn [commonPrefixOf]. by rewrite Z.eqb_refl, IH.
Qed.

(** X6. [commonPrefixOf(a, b)] is the longest string that begins both [a]
    and [b]: the strings that begin it are those that begin both. *)
Theorem commonPrefixOf_is_longest a b q :
  q `prefix_of` commonPrefixOf a b <-> q `prefix_of` a /\ q `prefix_of` b.
Proof.
  split.
  - intros Hq. split.
    + etrans; [exact Hq | apply commonPrefixOf_prefix_l].
    + etrans; [exact Hq | apply commonPrefixOf_prefix_r].
  - intros [Ha Hb]. by apply commonPrefixOf_greatest.
Qed.

Lemma commonPrefixOf_is_longest_witness :
  js "  " `prefix_of` js "   a" /\ js "  " `prefix_of` js "  b"
  /\ js "  " `prefix_of` commonPrefixOf (js "   a") (js "  b").
Proof.
  assert (Ha : js "  " `prefix_of` js "   a") by (by exists (js " a")).
  assert (Hb : js "  " `prefix_of` js "  b") by (by exists (js "b")).
  split; [exact Ha |]. split; [exact Hb |].
  exact (proj2 (commonPrefixOf_is_longest (js "   a") (js "  b") (js "  ")) (conj Ha Hb)).
Defined.

(** X7. [commonPrefixOf] does not depend on the order of its arguments nor
    on the grouping of several, and the common prefix of a string with
    itself is that string. *)
Theorem commonPrefixOf_order_free :
  (forall a b, commonPrefixOf a b = commonPrefixOf b a)
  /\ (forall a b c,
        commonPrefixOf (commonPrefixOf a b) c = commonPrefixOf a (commonPrefixOf b c))
  /\ (forall a, commonPrefixOf a a = a).
Proof.
  split; [exact commonPrefixOf_comm |].
  split; [exact commonPrefixOf_assoc | exact commonPrefixOf_idem].
Qed.

(** * Further properties of the line splitting *)

Lemma filter_no_terminator (s : jsstring) :
  Forall (fun c => isLineTerminator c = false) s ->
  List.filter (fun c => negb (isLineTerminator c)) s = s.
Proof.
  induction 1 as [| c s Hc _ IH]; [reflexivity |].
  cbn [List.filter]. by rewrite Hc, IH.
Qed.

Lemma filter_terminators (s : jsstring) :
  Forall (fun c => isLineTerminator c = true) s ->
  List.filter (fun c => negb (isLineTerminator c)) s = [].
Proof.
  induction 1 as [| c s Hc _ IH]; [reflexivity |].
  cbn [List.filter]. by rewrite Hc.
Qed.

Lemma filter_pieces (more : list (jsstring * jsstring)) :
  Forall (fun piece : jsstring * jsstring =>
            piece.1 <> []
            /\ Forall (fun c => isLineTerminator c = true) piece.1
            /\ Forall (fun c => isLineTerminator c = false) piece.2) more ->
  List.filter (fun c => negb (isLineTerminator c))
    (concat ((fun piece => piece.1 ++ piece.2) <$> more))
  = concat (snd <$> more).
Proof.
  induction 1 as [| [run fragment] more (_ & Hrun & Hfragment) _ IH]; [reflexivity |].
  rewrite !fmap_cons. cbn [concat fst snd].
  rewrite !List.filter_app, IH, (filter_terminators run Hrun),
    (filter_no_terminator fragment Hfragment).
  reflexivity.
Qed.

Lemma no_terminator_pieces s :
  LINE_TERMINATORS_exec s = false -> pieces s = (s, []).
Proof.
  unfold LINE_TERMINATORS_exec. induction s as [| c s IH]; [reflexivity |].
  cbn [existsb]. intros H. apply orb_false_elim in H as [Hc Hs].
  rewrite pieces_cons, Hc, (IH Hs). reflexivity.
Qed.

(** X8. [split(LINE_TERMINATORS)] gives at least one fragment; no fragment
    holds a line terminator; put end to end the fragments are the string
    without its line terminators; and a string without any is its one
    fragment. *)
Theorem split_gives_the_text_between_line_breaks s :
  split_LINE_TERMINATORS s <> []
  /\ Forall (Forall (fun c => isLineTerminator c = false)) (split_LINE_TERMINATORS s)
  /\ concat (split_LINE_TERMINATORS s)
     = List.filter (fun c => negb (isLineTerminator c)) s
  /\ (LINE_TERMINATORS_exec s = false -> split_LINE_TERMINATORS s = [s]).
Proof.
  destruct (pieces_invariant s) as (Hjoin & Hfirst & Hmore & _).
  unfold split_LINE_TERMINATORS. rewrite (proj1 (splitFrom_pieces s)).
  split; [done |]. split; [| split].
  - constructor; [exact Hfirst |]. rewrite Forall_fmap.
    eapply Forall_impl; [exact Hmore |]. by intros piece (_ & _ & H).
  - rewrite <- Hjoin at 3. unfold joinPieces. cbn [concat].
    by rewrite List.filter_app, (filter_no_terminator _ Hfirst), (filter_pieces _ Hmore).
  - intros Hs. by rewrite (no_terminator_pieces s Hs).
Qed.

Lemma split_gives_the_text_between_line_breaks_witness :
  LINE_TERMINATORS_exec (js "one line") = false
  /\ split_LINE_TERMINATORS (js "one line") = [js "one line"].
Proof.
  split; [reflexivity |].
  exact (proj2 (proj2 (proj2 (split_gives_the_text_between_line_breaks (js "one line"))))
           eq_refl).
Defined.

Lemma isWhitespace_not_syntax c :
  isWhitespace c = true -> isSyntaxCharacter c = false.
Proof.
  unfold isWhitespace. intros H.
  repeat match goal with
         | Hor : _ || _ = true |- _ => apply orb_prop in Hor as [Hor | Hor]
         end; apply Z.eqb_eq in H; subst c; reflexivity.
Qed.

Lemma scanLines_whitespace lines : forall commonPrefix p,
  (forall q, commonPrefix = Some q -> Forall (fun c => isWhitespace c = true) q) ->
  scanLines commonPrefix lines = Some p ->
  Forall (fun c => isWhitespace c = true) p.
Proof.
  induction lines as [| line lines IH]; intros commonPrefix p Hacc; cbn [scanLines].
  - apply Hacc.
  - destruct commonPrefix as [cp |].
    + assert (Hws : Forall (fun c => isWhitespace c = true)
                      (commonPrefixOf cp (WS_RUN_exec line))).
      { destruct (commonPrefixOf_prefix_r cp (WS_RUN_exec line)) as [k Hk].
        pose proof (WS_RUN_exec_whitespace line) as H. rewrite Hk in H.
        by apply Forall_app in H as [H _]. }
      destruct (commonPrefixOf cp (WS_RUN_exec line)) as [| c cp'].
      * intros [= <-]. constructor.
      * apply IH. by intros q [= <-].
    + pose proof (WS_RUN_exec_whitespace line) as Hws.
      destruct (WS_RUN_exec line) as [| c cp'].
      * intros [= <-]. constructor.
      * apply IH. by intros q [= <-].
Qed.

Lemma commonPrefix_whitespace raw length p :
  commonPrefixOfTemplateStrings raw length = Some p ->
  Forall (fun c => isWhitespace c = true) p.
Proof.
  intros Hp. unfold commonPrefixOfTemplateStrings in Hp.
  destruct (negb _); [injection Hp as <-; constructor |].
  revert Hp. generalize (seq 0 length).
  assert (Hnone : forall q, @None jsstring = Some q ->
                    Forall (fun c => isWhitespace c = true) q) by discriminate.
  revert Hnone. generalize (@None jsstring).
  intros acc Hacc indices. revert acc Hacc.
  induction indices as [| i indices IH]; intros acc Hacc; cbn [fold_left].
  - apply Hacc.
  - apply IH. intros q Hq. by apply (scanLines_whitespace _ _ _ Hacc Hq).
Qed.

(** X9. Whatever [raw] and [length] are, the prefix that
    [commonPrefixOfTemplateStrings] returns holds whitespace only: no line
    terminator and no character that means something in a pattern. *)
Theorem common_prefix_is_whitespace raw length p :
  commonPrefixOfTemplateStrings raw length = Some p ->
  Forall (fun c => isWhitespace c = true
                   /\ isLineTerminator c = false
                   /\ isSyntaxCharacter c = false) p.
Proof.
  intros Hp. eapply Forall_impl; [exact (commonPrefix_whitespace raw length p Hp) |].
  intros c Hc. cbn beta. split; [exact Hc |].
  split; [by apply isWhitespace_not_terminator | by apply isWhitespace_not_syntax].
Qed.

Lemma common_prefix_is_whitespace_witness :
  commonPrefixOfTemplateStrings (PStr <$> helloChunks) 2 = Some (js "      ")
  /\ Forall (fun c => isWhitespace c = true
                      /\ isLineTerminator c = false
                      /\ isSyntaxCharacter c = false) (js "      ").
Proof.
  split; [reflexivity |].
  exact (common_prefix_is_whitespace (PStr <$> helloChunks) 2 (js "      ") eq_refl).
Defined.

(** * Further properties of the detectors and of the validation *)

Lemma strictEq_num n v : strictEq (VPrim (PNum n)) v = true -> v = VPrim (PNum n).
Proof.
  destruct v as [[] |]; cbn [strictEq]; try discriminate.
  intros H. apply Z.eqb_eq in H. by subst.
Qed.

Lemma Array_isArray_true h v :
  Array_isArray h v = true -> exists l o, v = VRef l /\ h !! l = Some o /\ isArray o = true.
Proof.
  destruct v as [p | l]; [discriminate |]. cbn [Array_isArray].
  destruct (h !! l) as [o |] eqn:Ho; [| discriminate]. eauto.
Qed.

(** What [calledAsTemplateTagQuick] answers when it answers. *)
Lemma calledAsTemplateTagQuick_cases h v c q :
  calledAsTemplateTagQuick h v c = Ok q ->
  q = VBool false \/ (q = VBool true /\ templateLike false h v c).
Proof.
  unfold calledAsTemplateTagQuick.
  destruct (truthy v && Object_isFrozen h v && Array_isArray h v) eqn:Hguard;
    [| intros [= <-]; by left].
  apply andb_prop in Hguard as [Hguard Harr]. apply andb_prop in Hguard as [_ Hfrozen].
  apply Array_isArray_true in Harr as (l & ts & -> & Hts & Harr).
  cbn [Object_isFrozen] in Hfrozen. rewrite Hts in Hfrozen.
  rewrite (getProp_raw_array h l ts Hts), (getProp_length_array h l ts Hts Harr).
  cbn [bind].
  destruct (strictEq (VPrim (PNum (Z.of_nat (List.length (elems ts))))) c) eqn:Hcount;
    [rewrite js_and_true | rewrite js_and_false; intros [= <-]; by left].
  apply strictEq_num in Hcount.
  destruct (truthy (default undefined (props ts !! "raw"))) eqn:Htruthy;
    [rewrite js_and_true | rewrite js_and_false; intros [= <-]; by left].
  destruct (getProp h (default undefined (props ts !! "raw")) "length")
    as [rawLength | e] eqn:HrawLength; cbn [bind]; [| discriminate].
  destruct (strictEq (VPrim (PNum (Z.of_nat (List.length (elems ts))))) rawLength)
    eqn:Hlengths; [rewrite js_and_true | rewrite js_and_false; intros [= <-]; by left].
  apply strictEq_num in Hlengths.
  destruct (Object_isFrozen h (default undefined (props ts !! "raw"))) eqn:HrawFrozen;
    [rewrite js_and_true | rewrite js_and_false; intros [= <-]; by left].
  destruct (Array_isArray h (default undefined (props ts !! "raw"))) eqn:HrawArr;
    intros [= <-]; [right | by left].
  split; [reflexivity |].
  apply Array_isArray_true in HrawArr as (rawLoc & rawArr & Hraw & HrawArr & HrawIs).
  rewrite Hraw in HrawLength, HrawFrozen.
  rewrite (getProp_length_array h rawLoc rawArr HrawArr HrawIs) in HrawLength.
  cbn [Object_isFrozen] in HrawFrozen. rewrite HrawArr in HrawFrozen.
  exists l, ts, rawLoc, rawArr. repeat split; try done.
  - destruct (props ts !! "raw"); cbn in Hraw; [congruence | discriminate].
  - rewrite Hlengths in HrawLength. injection HrawLength as H.
    by apply Nat2Z.inj in H.
Qed.

Lemma templateLike_quick h v c :
  templateLike false h v c -> calledAsTemplateTagQuick h v c = Ok (VBool true).
Proof.
  intros (l & ts & rawLoc & rawArr & -> & Hts & Harr & Hfrozen & Hraw & HrawArr
          & HrawIs & HrawFrozen & -> & Hlen & _).
  unfold calledAsTemplateTagQuick. cbn [truthy Object_isFrozen Array_isArray].
  rewrite Hts, Harr, Hfrozen. cbn [andb].
  rewrite (getProp_raw_array h l ts Hts), (getProp_length_array h l ts Hts Harr), Hraw.
  cbn [bind default from_option id].
  rewrite (getProp_length_array h rawLoc rawArr HrawArr HrawIs). cbn [bind].
  cbn [strictEq truthy Object_isFrozen Array_isArray].
  rewrite HrawArr, HrawIs, HrawFrozen, Hlen, Z.eqb_refl. reflexivity.
Qed.

Lemma calledAsTemplateTag_templateLike h v c :
  calledAsTemplateTag h v c = Ok (VBool true) <-> templateLike true h v c.
Proof.
  unfold calledAsTemplateTag. split.
  - destruct (calledAsTemplateTagQuick h v c) as [q | e] eqn:Hq; cbn [bind];
      [| discriminate].
    apply calledAsTemplateTagQuick_cases in Hq as [-> | [-> Hq]];
      [rewrite js_and_false; discriminate | rewrite js_and_true].
    destruct Hq as (l & ts & rawLoc & rawArr & -> & Hts & Harr & Hfrozen & Hraw & HrawArr
                    & HrawIs & HrawFrozen & -> & Hlen & _).
    unfold every_isString. cbn [arrayElems]. rewrite Hts.
    destruct (forallb isString (elems ts)) eqn:Hs;
      [rewrite js_and_true | rewrite js_and_false; discriminate].
    rewrite (getProp_raw_array h l ts Hts), Hraw. cbn [bind default from_option id].
    cbn [arrayElems]. rewrite HrawArr. intros [= Hrs].
    exists l, ts, rawLoc, rawArr. repeat split; done.
  - intros Hstrict.
    assert (Hquick : templateLike false h v c).
    { destruct Hstrict as (l & ts & rawLoc & rawArr & H).
      exists l, ts, rawLoc, rawArr. intuition discriminate. }
    rewrite (templateLike_quick h v c Hquick). cbn [bind]. rewrite js_and_true.
    destruct Hstrict as (l & ts & rawLoc & rawArr & -> & Hts & Harr & Hfrozen & Hraw
                         & HrawArr & HrawIs & HrawFrozen & -> & Hlen & Hstrings).
    destruct (Hstrings eq_refl) as [Hs Hrs].
    unfold every_isString. cbn [arrayElems]. rewrite Hts, Hs, js_and_true.
    rewrite (getProp_raw_array h l ts Hts), Hraw. cbn [bind default from_option id].
    cbn [arrayElems]. by rewrite HrawArr, Hrs.
Qed.

(** X10. The detectors answer true for the frozen arrays whose [raw] is a
    frozen array of the same length, [argumentCount] being that length,
    and for nothing else; [calledAsTemplateTag] asks besides that the
    elements of both arrays be strings. *)
Theorem detectors_accept_template_objects_only h firstArgument argumentCount :
  (calledAsTemplateTagQuick h firstArgument argumentCount = Ok (VBool true)
   <-> templateLike false h firstArgument argumentCount)
  /\ (calledAsTemplateTag h firstArgument argumentCount = Ok (VBool true)
      <-> templateLike true h firstArgument argumentCount).
Proof.
  split; [| apply calledAsTemplateTag_templateLike].
  split; [| apply templateLike_quick].
  intros H. by apply calledAsTemplateTagQuick_cases in H as [[=] | [_ H]].
Qed.

Lemma detectors_accept_template_objects_only_witness :
  calledAsTemplateTag fooBarStore (VRef 1%positive) (VPrim (PNum 2)) = Ok (VBool true)
  /\ templateLike true fooBarStore (VRef 1%positive) (VPrim (PNum 2)).
Proof.
  split; [reflexivity |].
  exact (proj1 (proj2 (detectors_accept_template_objects_only
                         fooBarStore (VRef 1%positive) (VPrim (PNum 2)))) eq_refl).
Defined.

Lemma templateLike_wellShaped h args :
  templateLike true h (hd undefined args) (VPrim (PNum (Z.of_nat (List.length args)))) ->
  exists l, hd undefined args = VRef l
            /\ wellShaped h (VRef l) (tl args) /\ memoizable h l = true.
Proof.
  intros (l & ts & rawLoc & rawArr & Hl & Hts & Harr & Hfrozen & Hraw & HrawArr
          & HrawIs & HrawFrozen & Hcount & Hlen & Hstrings).
  destruct (Hstrings eq_refl) as [Hs Hrs].
  injection Hcount as Hcount. apply Nat2Z.inj in Hcount.
  exists l. split; [exact Hl |]. split.
  - exists l, ts, rawLoc, rawArr. repeat split; try done.
    destruct args as [| v args]; [discriminate |]. cbn [tl List.length] in *. lia.
  - unfold memoizable. cbn [Object_isFrozen]. rewrite Hts, Hfrozen.
    rewrite (getProp_raw_array h l ts Hts), Hraw. cbn [default from_option id andb].
    cbn [Object_isFrozen]. by rewrite HrawArr.
Qed.

(** X11. Arguments that [calledAsTemplateTag(args[0], args.length)] accepts
    pass the validation of the tagged functions, and their chunk sequence
    is one that is memoized. *)
Theorem detected_call_is_valid h args :
  calledAsTemplateTag h (hd undefined args) (VPrim (PNum (Z.of_nat (List.length args))))
  = Ok (VBool true) ->
  requireValidTagInputs h (hd undefined args) (tl args) = Ok ()
  /\ exists l, hd undefined args = VRef l /\ memoizable h l = true.
Proof.
  intros H. apply calledAsTemplateTag_templateLike in H.
  destruct (templateLike_wellShaped h args H) as (l & Hl & Hw & Hm).
  rewrite Hl. split; [by apply wellShaped_valid | eauto].
Qed.

Lemma detected_call_is_valid_witness :
  let args := [VRef 1%positive; VStr (js "x")] in
  calledAsTemplateTag fooBarStore (hd undefined args)
    (VPrim (PNum (Z.of_nat (List.length args)))) = Ok (VBool true)
  /\ requireValidTagInputs fooBarStore (hd undefined args) (tl args) = Ok ()
  /\ exists l, hd undefined args = VRef l /\ memoizable fooBarStore l = true.
Proof.
  split; [reflexivity |].
  exact (detected_call_is_valid fooBarStore [VRef 1%positive; VStr (js "x")] eq_refl).
Defined.

(** X12. An argument that is not frozen is never taken for a template
    object: both detectors answer false, without throwing; nor is one whose
    [raw] is not frozen. *)
Theorem unfrozen_input_is_never_accepted h firstArgument argumentCount :
  (Object_isFrozen h firstArgument = false ->
   calledAsTemplateTagQuick h firstArgument argumentCount = Ok (VBool false)
   /\ calledAsTemplateTag h firstArgument argumentCount = Ok (VBool false))
  /\ (forall raw,
        getProp h firstArgument "raw" = Ok raw -> Object_isFrozen h raw = false ->
        calledAsTemplateTagQuick h firstArgument argumentCount <> Ok (VBool true)
        /\ calledAsTemplateTag h firstArgument argumentCount <> Ok (VBool true)).
Proof.
  split.
  - intros Hfrozen.
    assert (Hquick : calledAsTemplateTagQuick h firstArgument argumentCount
                     = Ok (VBool false)).
    { unfold calledAsTemplateTagQuick. by rewrite Hfrozen, andb_false_r. }
    split; [exact Hquick |].
    unfold calledAsTemplateTag. rewrite Hquick. cbn [bind]. apply js_and_false.
  - intros raw Hraw Hfrozen.
    assert (Hlike : forall strings,
              ~ templateLike strings h firstArgument argumentCount).
    { intros strings (l & ts & rawLoc & rawArr & -> & Hts & _ & _ & Hprop & HrawArr
                      & _ & HrawFrozen & _).
      rewrite (getProp_raw_array h l ts Hts), Hprop in Hraw.
      injection Hraw as <-. cbn [Object_isFrozen] in Hfrozen.
      rewrite HrawArr in Hfrozen. congruence. }
    split.
    + intros H. apply calledAsTemplateTagQuick_cases in H as [[=] | [_ H]].
      by apply (Hlike false).
    + intros H. apply calledAsTemplateTag_templateLike in H. by apply (Hlike true).
Qed.

Lemma unfrozen_input_is_never_accepted_witness :
  Object_isFrozen mutableStore (VRef 1%positive) = false
  /\ calledAsTemplateTagQuick mutableStore (VRef 1%positive) (VPrim (PNum 2))
     = Ok (VBool false)
  /\ calledAsTemplateTag mutableStore (VRef 1%positive) (VPrim (PNum 2))
     = Ok (VBool false).
Proof.
  split; [reflexivity |].
  exact (proj1 (unfrozen_input_is_never_accepted mutableStore (VRef 1%positive)
                  (VPrim (PNum 2))) eq_refl).
Defined.

(** X13. [requireValidTagInputs] returns for the well-shaped calls and for
    no other: an array of strings whose [raw] is an array of strings of the
    same length, with one dynamic value fewer than chunks. *)
Theorem validation_accepts_well_shaped_calls_only h staticStrings dynamicValues :
  requireValidTagInputs h staticStrings dynamicValues = Ok ()
  <-> wellShaped h staticStrings dynamicValues.
Proof.
  split; [apply valid_wellShaped | apply wellShaped_valid].
Qed.

Lemma validation_accepts_well_shaped_calls_only_witness :
  requireValidTagInputs fooBarStore (VRef 1%positive) [VStr (js "x")] = Ok ()
  /\ wellShaped fooBarStore (VRef 1%positive) [VStr (js "x")].
Proof.
  split; [reflexivity |].
  exact (proj1 (validation_accepts_well_shaped_calls_only
                  fooBarStore (VRef 1%positive) [VStr (js "x")]) eq_refl).
Defined.

Lemma getProp_other h v name name' w :
  getProp h v name = Ok w -> exists w', getProp h v name' = Ok w'.
Proof.
  unfold getProp. destruct v as [[] | l]; try discriminate; eauto.
  - intros _. destruct (String.eqb name' "length"); eauto.
  - destruct (h !! l) as [o |]; [intros _ | discriminate].
    destruct (isArray o && String.eqb name' "length"); eauto.
Qed.

(** X14. A first argument whose [raw] is undefined or null (an array
    without [raw], say) is turned down by the engine's [TypeError], raised
    where the validation reads [raw.length], not by the error
    ['Invalid static strings']. *)
Theorem missing_raw_is_a_type_error h staticStrings dynamicValues raw :
  getProp h staticStrings "raw" = Ok raw ->
  raw = undefined \/ raw = VPrim PNull ->
  requireValidTagInputs h staticStrings dynamicValues = Throw TypeError.
Proof.
  intros Hraw Hnone. unfold requireValidTagInputs. rewrite Hraw. cbn [bind].
  destruct (getProp_other h staticStrings "raw" "length" raw Hraw) as [len ->].
  cbn [bind]. by destruct Hnone as [-> | ->].
Qed.

Lemma missing_raw_is_a_type_error_witness :
  let h := withArray 1%positive [PStr (js "a")] ∅ ∅ in
  getProp h (VRef 1%positive) "raw" = Ok undefined
  /\ requireValidTagInputs h (VRef 1%positive) [] = Throw TypeError.
Proof.
  split; [reflexivity |].
  exact (missing_raw_is_a_type_error (withArray 1%positive [PStr (js "a")] ∅ ∅)
           (VRef 1%positive) [] undefined eq_refl (or_introl eq_refl)).
Defined.

(** X15. When the chunk sequence has the right shape and only the number of
    dynamic values is off, the error names both numbers: the number of
    chunks, then the number of dynamic values, in decimal. *)
Theorem count_mismatch_is_reported h l o rawLoc r dynamicValues :
  h !! l = Some o -> isArray o = true ->
  props o !! "raw" = Some (VRef rawLoc) ->
  h !! rawLoc = Some r -> isArray r = true ->
  List.length (elems o) = List.length (elems r) ->
  forallb isString (elems o) = true -> forallb isString (elems r) = true ->
  (List.length dynamicValues + 1)%nat <> List.length (elems o) ->
  requireValidTagInputs h (VRef l) dynamicValues
  = Throw (Error (VStr (js "Too many or too few dynamic values: "
                          ++ js (pretty (Z.of_nat (List.length (elems o))))
                          ++ js " != "
                          ++ js (pretty (Z.of_nat (List.length dynamicValues)))))).
Proof.
  intros Ho Ha Hraw Hr Hra Hlen Hs Hrs Hcount.
  unfold requireValidTagInputs.
  rewrite (getProp_raw_array h l o Ho), Hraw, (getProp_length_array h l o Ho Ha).
  cbn [bind default from_option id].
  rewrite (getProp_length_array h rawLoc r Hr Hra). cbn [bind].
  assert (H1 : isStringArray h (VRef l) = true) by (apply isStringArray_true; eauto 10).
  assert (H2 : isStringArray h (VRef rawLoc) = true) by (apply isStringArray_true; eauto 10).
  rewrite H1, H2. cbn [strictEq]. rewrite Hlen, Z.eqb_refl. cbn [andb negb].
  replace (Z.of_nat (List.length dynamicValues) + 1 =? Z.of_nat (List.length (elems r)))
    with false by (symmetry; apply Z.eqb_neq; lia).
  reflexivity.
Qed.

Lemma count_mismatch_is_reported_witness :
  requireValidTagInputs fooBarStore (VRef 1%positive) []
  = Throw (Error (VStr (js "Too many or too few dynamic values: 2 != 0"))).
Proof.
  exact (count_mismatch_is_reported fooBarStore 1%positive
           (Obj true true (PStr <$> [js "foo"; js "bar"]) {["raw" := VRef 2%positive]})
           2%positive (Obj true true (PStr <$> [js "foo"; js "bar"]) ∅) []
           eq_refl eq_refl eq_refl eq_refl eq_refl eq_refl eq_refl eq_refl
           ltac:(discriminate)).
Defined.

(** * Further properties of the memoizing tag function *)

Section MemoizedTagFunctionEdges.

Context {T R : Type} (undefinedT : T).
Context (computeStaticHelper : heap -> value -> completion T).
Context (computeResultHelper : value -> T -> heap -> value -> list value -> completion R).

Local Abbreviation call := (usingOptions undefinedT computeStaticHelper computeResultHelper).
Local Abbreviation run := (runCalls undefinedT computeStaticHelper computeResultHelper).
Local Abbreviation stateFor := (staticStateFor undefinedT computeStaticHelper).

Lemma staticHelperCalls_logOther (m m' : gmap loc (staticState T)) v w (cl : list event) :
  v <> w ->
  staticHelperCalls v (Cache m (StaticHelperCalled w :: cl))
  = staticHelperCalls v (Cache m' cl).
Proof.
  intros Hne. unfold staticHelperCalls. cbn [calls].
  rewrite filter_cons_False; [reflexivity | congruence].
Qed.

(** What [staticStateFor] does to the variables the closures share: it
    leaves [memoTable] alone or gives it one entry, for a frozen sequence
    that had none; it calls the static helper on that sequence at most. *)
Lemma stateFor_effect h l st raw :
  getProp h (VRef l) "raw" = Ok raw ->
  (memoTable (stateFor h (VRef l) st).2 = memoTable st
   \/ exists s, memoizable h l = true /\ memoTable st !! l = None
                /\ memoTable (stateFor h (VRef l) st).2 = <[l := s]> (memoTable st))
  /\ (forall v, v <> VRef l ->
        staticHelperCalls v (stateFor h (VRef l) st).2 = staticHelperCalls v st).
Proof.
  intros Hraw. unfold staticStateFor.
  rewrite (canMemoize_memoizable h l raw Hraw).
  destruct st as [m cl]. unfold logCall. cbn [memoTable calls].
  destruct (memoizable h l) eqn:Hm; cbn [memoTable_get memoTable].
  - destruct (m !! l) as [s |] eqn:Hs; [split; [by left | done] |].
    destruct (computeStaticHelper h (VRef l)) as [t | exc].
    + cbn [memoTable_set memoTable calls snd]. split; [right; eauto |].
      intros v Hv. by apply staticHelperCalls_logOther.
    + destruct (getProp h exc "message") as [message | e]; cbn [bind].
      * cbn [memoTable_set memoTable calls snd]. split; [right; eauto |].
        intros v Hv. by apply staticHelperCalls_logOther.
      * cbn [snd memoTable]. split; [by left |].
        intros v Hv. by apply staticHelperCalls_logOther.
  - destruct (computeStaticHelper h (VRef l)) as [t | exc].
    + cbn [snd memoTable]. split; [by left |].
      intros v Hv. by apply staticHelperCalls_logOther.
    + destruct (getProp h exc "message") as [message | e]; cbn [bind snd memoTable];
        (split; [by left |]); intros v Hv; by apply staticHelperCalls_logOther.
Qed.

(** The same for a call of a tagged function. *)
Lemma call_effect options h args st :
  (memoTable (call options h args st).2 = memoTable st
   \/ exists l s, callOn l (options, h, args) /\ memoizable h l = true
                  /\ memoTable st !! l = None
                  /\ memoTable (call options h args st).2 = <[l := s]> (memoTable st))
  /\ (forall v, v <> hd undefined args ->
        staticHelperCalls v (call options h args st).2 = staticHelperCalls v st).
Proof.
  unfold usingOptions.
  destruct ((List.length (tl args) =? 0)%nat && negb (Array_isArray h (hd undefined args)));
    [split; [by left | done] |].
  destruct (requireValidTagInputs h (hd undefined args) (tl args)) as [[] | e] eqn:Hvalid;
    [| split; [by left | done]].
  apply valid_wellShaped in Hvalid as Hw.
  assert (Hl : exists l, hd undefined args = VRef l).
  { destruct Hw as (l & _ & _ & _ & Hl & _). eauto. }
  destruct Hl as [l Hl]. rewrite Hl in Hw |- *.
  destruct (wellShaped_raw h l (tl args) Hw) as [raw Hraw].
  destruct (stateFor_effect h l st raw Hraw) as [Htable Hlog].
  destruct (stateFor h (VRef l) st) as [[t | e] st'] eqn:Hstate; cbn [fst snd] in *.
  - cbn zeta.
    destruct (computeResultHelper options t h (VRef l) (tl args));
      cbn [snd logCall memoTable];
      (split;
       [ destruct Htable as [Htable | (s & Hm & Hs & Htable)]; [by left |];
         right; exists l, s; repeat split; try done; try (by rewrite Hl)
       | intros v Hv; rewrite <- (Hlog v Hv);
         apply (staticHelperCalls_logResult st' v options (VRef l) (tl args)) ]).
  - split.
    + destruct Htable as [Htable | (s & Hm & Hs & Htable)]; [by left |].
      right. exists l, s. repeat split; try done; try (by rewrite Hl).
    + exact Hlog.
Qed.

Lemma getProp_nullish h exc name :
  exc = undefined \/ exc = VPrim PNull -> getProp h exc name = Throw TypeError.
Proof. by intros [-> | ->]. Qed.

Lemma getProp_falsy h exc :
  truthy exc = false -> exc <> undefined -> exc <> VPrim PNull ->
  getProp h exc "message" = Ok undefined.
Proof.
  destruct exc as [[] | l]; done.
Qed.

(** A call whose static helper throws [null] or [undefined], on a sequence
    without an entry. *)
Lemma call_nullish l options h args st exc :
  callOn l (options, h, args) -> memoTable st !! l = None ->
  computeStaticHelper h (VRef l) = Throws exc ->
  exc = undefined \/ exc = VPrim PNull ->
  call options h args st = (Threw TypeError, logCall st (StaticHelperCalled (VRef l))).
Proof.
  intros [Hw Hhd] Hs Hexc Hnull. cbn [fst snd] in Hw, Hhd.
  destruct args as [| staticStrings dynamicValues]; [discriminate |].
  cbn [hd tl] in Hw, Hhd. subst staticStrings.
  rewrite (call_invoke undefinedT computeStaticHelper computeResultHelper
             options h (VRef l) dynamicValues st Hw).
  destruct (wellShaped_raw h l dynamicValues Hw) as [raw Hraw].
  unfold staticStateFor. rewrite (canMemoize_memoizable h l raw Hraw).
  destruct (memoizable h l); cbn [memoTable_get]; rewrite ?Hs, Hexc;
    by rewrite (getProp_nullish h exc "message" Hnull).
Qed.

(** X16. When the static helper throws [null] or [undefined], reading the
    message of what was caught throws: the call ends in a [TypeError],
    nothing is stored, and the next call runs the static helper again. *)
Theorem nullish_failure_is_not_stored l cs : forall st,
  memoTable st !! l = None ->
  Forall (fun c => callOn l c
                   /\ exists exc, computeStaticHelper c.1.2 (VRef l) = Throws exc
                                  /\ (exc = undefined \/ exc = VPrim PNull)) cs ->
  (run cs st).1 = replicate (List.length cs) (Threw TypeError)
  /\ memoTable (run cs st).2 = memoTable st
  /\ staticHelperCalls (VRef l) (run cs st).2
     = (List.length cs + staticHelperCalls (VRef l) st)%nat.
Proof.
  induction cs as [| [[options h] args] cs IH]; intros st Hs Hcs; [done |].
  apply Forall_cons in Hcs as [[Hcall (exc & Hexc & Hnull)] Hcs]. cbn [fst snd] in Hexc.
  cbn [runCalls]. rewrite (call_nullish l options h args st exc Hcall Hs Hexc Hnull).
  specialize (IH (logCall st (StaticHelperCalled (VRef l))) Hs Hcs).
  destruct (run cs (logCall st (StaticHelperCalled (VRef l)))) as [outs st'].
  cbn [fst snd] in *. destruct IH as (-> & -> & ->).
  split; [reflexivity |]. split; [reflexivity |].
  destruct st as [m cl]. unfold logCall. cbn [memoTable calls].
  rewrite staticHelperCalls_logStatic. cbn [List.length]. lia.
Qed.

(** X17. When the static helper throws a value that is falsy but neither
    [null] nor [undefined] (0, the empty string, false, NaN), the first call
    on a frozen sequence throws a new [Error] with the message ['Failure']
    already, and so does every later call; the static helper runs once. *)
Theorem falsy_failure_is_replaced l c cs st exc :
  Forall (fun c => callOn l c /\ memoizable c.1.2 l = true) (c :: cs) ->
  memoTable st !! l = None ->
  computeStaticHelper c.1.2 (VRef l) = Throws exc ->
  truthy exc = false -> exc <> undefined -> exc <> VPrim PNull ->
  (run (c :: cs) st).1
  = replicate (S (List.length cs)) (Threw (Error (VStr (js "Failure"))))
  /\ calls (run (c :: cs) st).2 = StaticHelperCalled (VRef l) :: calls st.
Proof.
  destruct c as [[options h] args]. cbn [fst snd].
  intros Hcs Hs Hexc Hfalsy Hundef Hnull.
  apply Forall_cons in Hcs as [[Hcall Hc] Hcs]. cbn [fst snd] in Hc.
  pose proof (getProp_falsy h exc Hfalsy Hundef Hnull) as Hm.
  assert (Hcache : cacheable h (computeStaticHelper h (VRef l))).
  { rewrite Hexc. cbn. eauto. }
  destruct (first_call_stores undefinedT computeStaticHelper computeResultHelper
              l options h args st Hcall Hc Hs Hcache)
    as (s & out & st' & Hfirst & Hs' & _ & _ & Hthrow).
  destruct (Hthrow exc undefined Hexc Hm) as (-> & -> & Hcalls).
  rewrite Hfalsy in Hfirst.
  cbn [runCalls]. rewrite Hfirst.
  assert (Hres : staticStateResult undefinedT
                   (StaticState None (Some (failureMessage undefined))) None
                 = Throw (Error (failureMessage undefined))) by reflexivity.
  destruct (run_hits undefinedT computeStaticHelper computeResultHelper
              l _ cs st' Hs' Hcs) as (Houts & _ & _ & Hst).
  specialize (Hst _ Hres).
  destruct (run cs st') as [outs st''] eqn:Hrun. cbn [fst snd] in *.
  subst st''. split; [| exact Hcalls].
  cbn [replicate]. f_equal. rewrite Houts. clear.
  induction cs as [| c cs IH]; [reflexivity |].
  rewrite fmap_cons. cbn [List.length replicate]. f_equal. exact IH.
Qed.

(** X18. Over any run of calls, whatever their arguments, no entry of
    [memoTable] is taken out or written again, and an entry that comes in
    is that of a chunk sequence, frozen as its raw is, that a well-shaped
    call of the run was made on. *)
Theorem cache_entries_are_write_once cs : forall st,
  memoTable st ⊆ memoTable (run cs st).2
  /\ forall l, memoTable st !! l = None -> is_Some (memoTable (run cs st).2 !! l) ->
       Exists (fun c => callOn l c /\ memoizable c.1.2 l = true) cs.
Proof.
  induction cs as [| [[options h] args] cs IH]; intros st.
  - cbn [runCalls snd]. split; [done |]. intros l Hnone [s Hs]. congruence.
  - cbn [runCalls].
    destruct (call_effect options h args st) as [Htable _].
    destruct (call options h args st) as [out st1]. cbn [snd] in Htable.
    destruct (IH st1) as [Hsub Hnew].
    destruct (run cs st1) as [outs st2]. cbn [snd] in *.
    destruct Htable as [Htable | (l0 & s & Hcall & Hm & Hs & Htable)].
    + rewrite Htable in Hsub, Hnew. split; [exact Hsub |].
      intros l Hnone Hsome. apply Exists_cons_tl. by apply Hnew.
    + rewrite Htable in Hsub, Hnew. split.
      * etrans; [| exact Hsub]. by apply insert_subseteq.
      * intros l Hnone Hsome. destruct (decide (l = l0)) as [-> | Hne].
        -- by apply Exists_cons_hd.
        -- apply Exists_cons_tl. apply Hnew; [| exact Hsome].
           by rewrite lookup_insert_ne.
Qed.

(** X19. Memoization goes by the identity of the chunk sequence: calls on
    another sequence, whatever it holds, neither fill nor use the entry of
    this one, whose first call runs the static helper. *)
Theorem memoization_is_by_identity l1 l2 c1 c2 st :
  l1 <> l2 -> callOn l1 c1 -> callOn l2 c2 ->
  memoizable c2.1.2 l2 = true -> memoTable st !! l2 = None ->
  cacheable c2.1.2 (computeStaticHelper c2.1.2 (VRef l2)) ->
  memoTable (run [c1] st).2 !! l2 = None
  /\ staticHelperCalls (VRef l2) (run [c1; c2] st).2
     = S (staticHelperCalls (VRef l2) st).
Proof.
  destruct c1 as [[options1 h1] args1], c2 as [[options2 h2] args2]. cbn [fst snd].
  intros Hne Hcall1 Hcall2 Hm Hs Hcache.
  destruct (call_effect options1 h1 args1 st) as [Htable Hlog].
  assert (Hhd : VRef l2 <> hd undefined args1).
  { destruct Hcall1 as [_ Hhd]. cbn [fst snd] in Hhd. rewrite Hhd. congruence. }
  specialize (Hlog (VRef l2) Hhd).
  cbn [runCalls].
  destruct (call options1 h1 args1 st) as [out1 st1]. cbn [snd] in *.
  assert (Hs1 : memoTable st1 !! l2 = None).
  { destruct Htable as [-> | (l & s & [_ Hl] & _ & _ & ->)]; [exact Hs |].
    cbn [fst snd] in Hl. destruct Hcall1 as [_ Hhd1]. cbn [fst snd] in Hhd1.
    rewrite Hhd1 in Hl. injection Hl as <-. by rewrite lookup_insert_ne. }
  split; [exact Hs1 |].
  destruct (first_call_stores undefinedT computeStaticHelper computeResultHelper
              l2 options2 h2 args2 st1 Hcall2 Hm Hs1 Hcache)
    as (s & out & st2 & Hsecond & _ & Hcount & _).
  rewrite Hsecond. cbn [snd]. congruence.
Qed.

End MemoizedTagFunctionEdges.

Lemma nullish_failure_is_not_stored_witness :
  let c := (undefined, fooBarStore, [VRef 1%positive; VPrim (PNum 0)]) in
  let st := Cache (T := value) ∅ [] in
  memoTable st !! 1%positive = None
  /\ Forall (fun c => callOn 1%positive c
                      /\ exists exc, throwsUndefined c.1.2 (VRef 1%positive) = Throws exc
                                     /\ (exc = undefined \/ exc = VPrim PNull)) [c; c]
  /\ (runCalls undefined throwsUndefined echoHelper [c; c] st).1
     = [Threw TypeError; Threw TypeError]
  /\ memoTable (runCalls undefined throwsUndefined echoHelper [c; c] st).2 = ∅
  /\ staticHelperCalls (VRef 1%positive)
       (runCalls undefined throwsUndefined echoHelper [c; c] st).2 = 2%nat.
Proof.
  intros c st.
  assert (Hs : memoTable st !! 1%positive = None) by reflexivity.
  assert (Hcs : Forall (fun c => callOn 1%positive c
                                 /\ exists exc,
                                      throwsUndefined c.1.2 (VRef 1%positive) = Throws exc
                                      /\ (exc = undefined \/ exc = VPrim PNull)) [c; c]).
  { assert (Hc : callOn 1%positive c
                 /\ exists exc, throwsUndefined c.1.2 (VRef 1%positive) = Throws exc
                                /\ (exc = undefined \/ exc = VPrim PNull)).
    { split; [split; [apply valid_wellShaped; vm_compute |]; reflexivity |].
      exists undefined. split; [reflexivity | by left]. }
    constructor; [exact Hc |]. constructor; [exact Hc | constructor]. }
  split; [exact Hs |]. split; [exact Hcs |].
  exact (nullish_failure_is_not_stored undefined throwsUndefined echoHelper
           1%positive [c; c] st Hs Hcs).
Defined.

Lemma falsy_failure_is_replaced_witness :
  let c := (undefined, fooBarStore, [VRef 1%positive; VPrim (PNum 0)]) in
  let st := Cache (T := value) ∅ [] in
  Forall (fun c => callOn 1%positive c /\ memoizable c.1.2 1%positive = true) [c; c]
  /\ memoTable st !! 1%positive = None
  /\ throwsZero c.1.2 (VRef 1%positive) = Throws (VPrim (PNum 0))
  /\ truthy (VPrim (PNum 0)) = false
  /\ (runCalls undefined throwsZero echoHelper [c; c] st).1
     = [Threw (Error (VStr (js "Failure"))); Threw (Error (VStr (js "Failure")))]
  /\ calls (runCalls undefined throwsZero echoHelper [c; c] st).2
     = [StaticHelperCalled (VRef 1%positive)].
Proof.
  intros c st.
  assert (Hcs : Forall (fun c => callOn 1%positive c
                                 /\ memoizable c.1.2 1%positive = true) [c; c]).
  { repeat constructor; apply valid_wellShaped; vm_compute; reflexivity. }
  assert (Hs : memoTable st !! 1%positive = None) by reflexivity.
  split; [exact Hcs |]. split; [exact Hs |]. split; [reflexivity |].
  split; [reflexivity |].
  exact (falsy_failure_is_replaced undefined throwsZero echoHelper
           1%positive c [c] st (VPrim (PNum 0)) Hcs Hs eq_refl eq_refl
           ltac:(discriminate) ltac:(discriminate)).
Defined.

Lemma cache_entries_are_write_once_witness :
  let c := (undefined, fooBarStore, [VRef 1%positive; VPrim (PNum 0)]) in
  let st := Cache (T := value) ∅ [] in
  memoTable st !! 1%positive = None
  /\ is_Some (memoTable (runCalls undefined lengthHelper echoHelper [c] st).2 !! 1%positive)
  /\ Exists (fun c => callOn 1%positive c /\ memoizable c.1.2 1%positive = true) [c].
Proof.
  intros c st.
  assert (Hs : memoTable st !! 1%positive = None) by reflexivity.
  assert (Hin : is_Some (memoTable (runCalls undefined lengthHelper echoHelper [c] st).2
                           !! 1%positive)).
  { eexists. vm_compute. reflexivity. }
  split; [exact Hs |]. split; [exact Hin |].
  exact (proj2 (cache_entries_are_write_once undefined lengthHelper echoHelper [c] st)
           1%positive Hs Hin).
Defined.

Lemma memoization_is_by_identity_witness :
  let c1 := (undefined, twinStore, [VRef 1%positive; VPrim (PNum 0)]) in
  let c2 := (undefined, twinStore, [VRef 3%positive; VPrim (PNum 0)]) in
  let st := Cache (T := value) ∅ [] in
  arrayElems twinStore (VRef 1%positive) = arrayElems twinStore (VRef 3%positive)
  /\ 1%positive <> 3%positive
  /\ callOn 1%positive c1 /\ callOn 3%positive c2
  /\ memoizable twinStore 3%positive = true
  /\ memoTable st !! 3%positive = None
  /\ cacheable twinStore (lengthHelper twinStore (VRef 3%positive))
  /\ memoTable (runCalls undefined lengthHelper echoHelper [c1] st).2 !! 3%positive = None
  /\ staticHelperCalls (VRef 3%positive)
       (runCalls undefined lengthHelper echoHelper [c1; c2] st).2 = 1%nat.
Proof.
  intros c1 c2 st.
  assert (Hne : 1%positive <> 3%positive) by discriminate.
  assert (H1 : callOn 1%positive c1)
    by (split; [apply valid_wellShaped; vm_compute |]; reflexivity).
  assert (H2 : callOn 3%positive c2)
    by (split; [apply valid_wellShaped; vm_compute |]; reflexivity).
  assert (Hm : memoizable twinStore 3%positive = true) by reflexivity.
  assert (Hs : memoTable st !! 3%positive = None) by reflexivity.
  assert (Hc : cacheable twinStore (lengthHelper twinStore (VRef 3%positive))).
  { vm_compute. exact I. }
  split; [reflexivity |]. split; [exact Hne |]. split; [exact H1 |]. split; [exact H2 |].
  split; [exact Hm |]. split; [exact Hs |]. split; [exact Hc |].
  exact (memoization_is_by_identity undefined lengthHelper echoHelper
           1%positive 3%positive c1 c2 st Hne H1 H2 Hm Hs Hc).
Defined.

(** * Further properties of the trimmer *)

(** The three ways a call of [trimCommonWhitespaceFromLines] ends: the fast
    path, an exception, or two new frozen arrays. *)
Lemma trim_cases h l o r h' :
  trimCommonWhitespaceFromLines h l o = Some (r, h') ->
  exists ts rawArr,
    templateObject h l = Some (ts, rawArr)
    /\ let commonPrefix :=
         commonPrefixOfTemplateStrings (elems rawArr) (List.length (elems ts)) in
       (choosePrefixPattern commonPrefix o = None /\ r = Ok l /\ h' = h)
       \/ (exists p e,
             choosePrefixPattern commonPrefix o = Some p
             /\ trimmedRawOf p (elems rawArr) (List.length (elems ts)) o = Throw e
             /\ r = Throw e /\ h' = h)
       \/ (exists p trimmedRaw res rawRes,
             choosePrefixPattern commonPrefix o = Some p
             /\ trimmedRawOf p (elems rawArr) (List.length (elems ts)) o = Ok trimmedRaw
             /\ h !! res = None /\ h !! rawRes = None /\ res <> rawRes
             /\ r = Ok res
             /\ h' = <[res := Obj true true (PStr <$> (cook <$> trimmedRaw))
                               {["raw" := VRef rawRes]}]>
                       (<[rawRes := Obj true true (PStr <$> trimmedRaw) ∅]> h)).
Proof.
  intros Htrim.
  destruct (templateObject h l) as [[ts rawArr] |] eqn:Ht;
    [| unfold trimCommonWhitespaceFromLines in Htrim; rewrite Ht in Htrim; discriminate].
  exists ts, rawArr. split; [reflexivity |]. cbn zeta.
  destruct (choosePrefixPattern
              (commonPrefixOfTemplateStrings (elems rawArr) (List.length (elems ts))) o)
    as [p |] eqn:Hp.
  - destruct (trimmedRawOf p (elems rawArr) (List.length (elems ts)) o)
      as [trimmedRaw | e] eqn:Hr.
    + destruct (trim_slow_path h l ts rawArr o p trimmedRaw Ht Hp Hr)
        as (res & rawRes & Hres & HrawRes & Hne & Heq).
      rewrite Heq in Htrim. injection Htrim as <- <-.
      right; right. exists p, trimmedRaw, res, rawRes. by repeat split.
    + rewrite (trim_throws h l ts rawArr o p e Ht Hp Hr) in Htrim.
      injection Htrim as <- <-. right; left. exists p, e. by repeat split.
  - rewrite (trim_fast_path h l ts rawArr o Ht Hp) in Htrim.
    injection Htrim as <- <-. by left.
Qed.

Lemma templateObject_allocated h l ts rawArr :
  templateObject h l = Some (ts, rawArr) -> h !! l = Some ts.
Proof.
  unfold templateObject. destruct (h !! l) as [o |]; [| discriminate].
  destruct (isArray o); [| discriminate].
  destruct (props o !! "raw") as [[? | rawLoc] |]; try discriminate.
  destruct (h !! rawLoc) as [raw |]; [| discriminate].
  destruct (isArray raw); [| discriminate]. by intros [= -> _].
Qed.

(** X20. A call of the trimmer changes no object of the store: the store
    after the call holds every object as it was, the new arrays apart; a
    call that throws, or that returns the template object it was given,
    leaves the store as it was. *)
Theorem trimming_leaves_the_store_alone h l o r h' :
  trimCommonWhitespaceFromLines h l o = Some (r, h') ->
  h ⊆ h' /\ (forall e, r = Throw e -> h' = h) /\ (r = Ok l -> h' = h).
Proof.
  intros Htrim.
  destruct (trim_cases h l o r h' Htrim) as (ts & rawArr & Ht & Hcases). cbn zeta in Hcases.
  destruct Hcases as [(_ & -> & ->) | [(p & e & _ & _ & -> & ->)
    | (p & trimmedRaw & res & rawRes & _ & _ & Hres & HrawRes & Hne & -> & ->)]];
    try by repeat split.
  split; [| split; [discriminate |]].
  - etrans; [apply (insert_subseteq h rawRes); exact HrawRes |].
    apply insert_subseteq. by rewrite lookup_insert_ne.
  - intros [= ->]. apply templateObject_allocated in Ht. congruence.
Qed.

Lemma trimming_leaves_the_store_alone_witness :
  exists res h',
    trimCommonWhitespaceFromLines helloStore 1%positive (TrimOptions false false)
    = Some (Ok res, h')
    /\ helloStore ⊆ h'.
Proof.
  eexists _, _. split; [vm_compute; reflexivity |].
  refine (proj1 (trimming_leaves_the_store_alone helloStore 1%positive
                   (TrimOptions false false) _ _ _)).
  vm_compute. reflexivity.
Defined.

Lemma erases_refl blank s : erases blank s s.
Proof. induction s; by constructor. Qed.

Lemma erases_blank blank p :
  Forall (fun c => blank c = true) p -> erases blank [] p.
Proof. induction 1; by constructor. Qed.

Lemma erases_app blank t s t' s' :
  erases blank t s -> erases blank t' s' -> erases blank (t ++ t') (s ++ s').
Proof.
  intros H H'. induction H; cbn [app]; [exact H' | by constructor | by constructor].
Qed.

Lemma erases_trans blank t s : erases blank t s -> forall u, erases blank u t -> erases blank u s.
Proof.
  induction 1 as [| c t s H IH | c t s Hc H IH]; intros u Hu.
  - exact Hu.
  - inversion Hu; subst; constructor; auto.
  - constructor; auto.
Qed.

Lemma erases_weaken (blank blank' : Z -> bool) t s :
  (forall c, blank c = true -> blank' c = true) ->
  erases blank t s -> erases blank' t s.
Proof.
  intros Himp. induction 1; constructor; auto.
Qed.

(** A global replacement whose matches only lose blanks loses only blanks. *)
Lemma replaceAll_erases blank matchAt :
  (forall s len repl, matchAt s = Some (len, repl) ->
     exists matched rest,
       s = matched ++ rest /\ List.length matched = len /\ (1 <= len)%nat
       /\ erases blank repl matched) ->
  forall n s, (List.length s <= n)%nat -> erases blank (replaceAll matchAt O s) s.
Proof.
  intros Hmatch. induction n as [| n IH]; intros s Hs.
  - destruct s; [constructor | cbn [List.length] in Hs; lia].
  - destruct s as [| c s]; [constructor |]. cbn [replaceAll].
    destruct (matchAt (c :: s)) as [[len repl] |] eqn:Hm.
    + destruct (Hmatch _ _ _ Hm) as (matched & rest & Heq & Hlen & Hpos & Hrepl).
      destruct matched as [| c' matched]; [cbn [List.length] in Hlen; lia |].
      cbn [app] in Heq. injection Heq as <- ->.
      rewrite replaceAll_skip. subst len. cbn [List.length Nat.pred].
      rewrite drop_app_length. apply (erases_app blank repl (c :: matched)); [exact Hrepl |].
      apply IH. cbn [List.length] in Hs. rewrite length_app in Hs. lia.
    + constructor. apply IH. cbn [List.length] in Hs. lia.
Qed.

Lemma terminatorRun_le s : (terminatorRun s <= List.length s)%nat.
Proof.
  induction s as [| c s IH]; cbn [terminatorRun List.length]; [lia |].
  destruct (isLineTerminator c); lia.
Qed.

Lemma backtrackRun_some commonPrefix s : forall k0 k,
  backtrackRun commonPrefix k0 s = Some k ->
  (1 <= k <= k0)%nat /\ startsWith commonPrefix (drop k s) = true.
Proof.
  induction k0 as [| k0 IH]; intros k; cbn [backtrackRun]; [discriminate |].
  destruct (startsWith commonPrefix (drop (S k0) s)) eqn:Hstart.
  - intros [= <-]. split; [lia | exact Hstart].
  - intros H. destruct (IH k H). split; [lia | done].
Qed.

Lemma prefixPattern_matchAt_erases commonPrefix s len repl :
  Forall (fun c => isWhitespace c = true) commonPrefix ->
  prefixPattern_matchAt commonPrefix s = Some (len, repl) ->
  exists matched rest,
    s = matched ++ rest /\ List.length matched = len /\ (1 <= len)%nat
    /\ erases isWhitespace repl matched.
Proof.
  intros Hws. unfold prefixPattern_matchAt.
  destruct (backtrackRun commonPrefix (terminatorRun s) s) as [k |] eqn:Hk; [| discriminate].
  intros [= <- <-].
  apply backtrackRun_some in Hk as [Hk Hstart].
  pose proof (terminatorRun_le s) as Hrun.
  apply startsWith_prefix in Hstart as [rest Hrest].
  exists (take k s ++ commonPrefix), rest. repeat split.
  - by rewrite <- app_assoc, <- Hrest, take_drop.
  - rewrite length_app, length_take. lia.
  - lia.
  - rewrite <- (app_nil_r (take k s)) at 1.
    apply erases_app; [apply erases_refl | by apply erases_blank].
Qed.

Lemma replace_prefixPattern_erases p chunk :
  (forall commonPrefix, p = LineBreakThenPrefix commonPrefix ->
     Forall (fun c => isWhitespace c = true) commonPrefix) ->
  erases isWhitespace (replace_prefixPattern p chunk) chunk.
Proof.
  intros Hws. destruct p as [commonPrefix |]; cbn [replace_prefixPattern];
    [| apply erases_refl].
  apply (replaceAll_erases isWhitespace _) with (n := List.length chunk); [| lia].
  intros s len repl. apply prefixPattern_matchAt_erases. by apply Hws.
Qed.

Lemma replace_LINE_TERMINATOR_AT_START_erases s :
  erases isLineTerminator (replace_LINE_TERMINATOR_AT_START s) s.
Proof.
  unfold replace_LINE_TERMINATOR_AT_START, LINE_TERMINATOR_AT_START_match.
  destruct s as [| c s]; [constructor |].
  destruct (Z.eqb_spec c CR) as [-> | _].
  - destruct s as [| d s]; [by repeat constructor |].
    destruct (Z.eqb_spec d LF) as [-> | _]; cbn [drop];
      repeat (apply erases_drop; [reflexivity |]); apply erases_refl.
  - destruct ((c =? LF) || (c =? LS) || (c =? PS)) eqn:Hc; [| apply erases_refl].
    cbn [drop]. apply erases_drop; [| apply erases_refl].
    unfold isLineTerminator. apply orb_prop in Hc as [Hc | Hc];
      [apply orb_prop in Hc as [Hc | Hc] |]; rewrite Hc; by rewrite ?orb_true_r.
Qed.

Lemma LINE_TERMINATOR_AT_END_matchAt_terminators s :
  LINE_TERMINATOR_AT_END_matchAt s = true ->
  Forall (fun c => isLineTerminator c = true) s.
Proof.
  unfold LINE_TERMINATOR_AT_END_matchAt.
  destruct s as [| c [| d [| e s]]]; [discriminate | | |].
  - destruct (Z.eqb_spec c CR) as [-> | _]; [by repeat constructor |].
    cbn [orb]. rewrite andb_true_r. by repeat constructor.
  - destruct (Z.eqb_spec c CR) as [-> | _]; rewrite andb_false_r, ?orb_false_r;
      [| discriminate].
    intros Hd. apply Z.eqb_eq in Hd as ->. by repeat constructor.
  - destruct (c =? CR); rewrite andb_false_r; discriminate.
Qed.

Lemma replace_LINE_TERMINATOR_AT_END_erases s :
  erases isLineTerminator (replace_LINE_TERMINATOR_AT_END s) s.
Proof.
  induction s as [| c s IH]; [constructor |]. cbn [replace_LINE_TERMINATOR_AT_END].
  destruct (LINE_TERMINATOR_AT_END_matchAt (c :: s)) eqn:Hm.
  - apply erases_blank. by apply LINE_TERMINATOR_AT_END_matchAt_terminators.
  - by constructor.
Qed.

Lemma replaceAt_Forall2 {A} (P : jsstring -> A -> Prop) f i arr (raw : list A) arr' :
  (forall s a, P s a -> P (f s) a) ->
  Forall2 P arr raw -> replaceAt f i arr = Ok arr' -> Forall2 P arr' raw.
Proof.
  intros Hf Hall. unfold replaceAt. destruct (i <? 0); [discriminate |].
  destruct (arr !! Z.to_nat i) as [s |] eqn:Hs; [| discriminate]. intros [= <-].
  destruct (Forall2_lookup_l _ _ _ _ _ Hall Hs) as (a & Ha & HP).
  rewrite <- (list_insert_id raw (Z.to_nat i) a Ha).
  apply Forall2_insert; [exact Hall | by apply Hf].
Qed.

(** What [trimmedRaw] holds is what [raw] held, less blanks. *)
Lemma trimmedRawOf_erases p (raw : list jsstring) n o trimmedRaw :
  (forall commonPrefix, p = LineBreakThenPrefix commonPrefix ->
     Forall (fun c => isWhitespace c = true) commonPrefix) ->
  trimmedRawOf p (PStr <$> raw) n o = Ok trimmedRaw ->
  Forall2 (erases (trimmable o)) trimmedRaw raw.
Proof.
  intros Hws. unfold trimmedRawOf. rewrite mapM_callReplace. cbn [bind].
  assert (Hdedented : Forall2 (erases (trimmable o)) (replace_prefixPattern p <$> raw) raw).
  { apply Forall2_fmap_l, Forall_Forall2_diag, Forall_forall. intros chunk _. cbn.
    apply (erases_weaken isWhitespace); [| by apply replace_prefixPattern_erases].
    intros c Hc. unfold trimmable. by rewrite Hc. }
  assert (Hstart : forall arr,
            (if trimEolAtStart o
             then replaceAt replace_LINE_TERMINATOR_AT_START 0
                    (replace_prefixPattern p <$> raw)
             else Ok (replace_prefixPattern p <$> raw)) = Ok arr ->
            Forall2 (erases (trimmable o)) arr raw).
  { intros arr. destruct (trimEolAtStart o) eqn:Ho; [| by intros [= <-]].
    apply replaceAt_Forall2; [| exact Hdedented].
    intros s a Hs. apply (erases_trans _ _ _ Hs).
    apply (erases_weaken isLineTerminator);
      [| apply replace_LINE_TERMINATOR_AT_START_erases].
    intros c Hc. unfold trimmable. by rewrite Ho, Hc, orb_true_r. }
  destruct (if trimEolAtStart o
            then replaceAt replace_LINE_TERMINATOR_AT_START 0
                   (replace_prefixPattern p <$> raw)
            else Ok (replace_prefixPattern p <$> raw)) as [arr | e]; cbn [bind];
    [| discriminate].
  specialize (Hstart arr eq_refl).
  destruct (trimEolAtEnd o) eqn:Ho; [| by intros [= <-]].
  apply replaceAt_Forall2; [| exact Hstart].
  intros s a Hs. apply (erases_trans _ _ _ Hs).
  apply (erases_weaken isLineTerminator);
    [| apply replace_LINE_TERMINATOR_AT_END_erases].
  intros c Hc. unfold trimmable. by rewrite Ho, Hc, !orb_true_r.
Qed.

Lemma choosePrefixPattern_whitespace raw length o p commonPrefix :
  choosePrefixPattern (commonPrefixOfTemplateStrings raw length) o = Some p ->
  p = LineBreakThenPrefix commonPrefix ->
  Forall (fun c => isWhitespace c = true) commonPrefix.
Proof.
  unfold choosePrefixPattern. intros Hp ->.
  destruct (commonPrefixOfTemplateStrings raw length) as [[| c cp] |] eqn:Hcommon.
  - by destruct (trimEolAtStart o || trimEolAtEnd o).
  - injection Hp as <-. by apply (commonPrefix_whitespace raw length).
  - by destruct (trimEolAtStart o || trimEolAtEnd o).
Qed.

Lemma chunksOf_templateObject h l ts rawArr :
  templateObject h l = Some (ts, rawArr) -> chunksOf h l = Some (elems ts, elems rawArr).
Proof. intros Ht. unfold chunksOf. by rewrite Ht. Qed.

(** X21. Each raw chunk of the result is the raw chunk of the input less
    some blanks, the other code units kept in their order: whitespace only
    when no end-of-line option is set, whitespace and line terminators
    when one is. *)
Theorem trimming_takes_out_blanks_only h l ts rawArr raw o res h' :
  templateObject h l = Some (ts, rawArr) ->
  elems rawArr = PStr <$> raw ->
  trimCommonWhitespaceFromLines h l o = Some (Ok res, h') ->
  exists cooked trimmedRaw,
    chunksOf h' res = Some (cooked, PStr <$> trimmedRaw)
    /\ Forall2 (erases (trimmable o)) trimmedRaw raw.
Proof.
  intros Ht Hraw Htrim.
  destruct (trim_cases h l o _ h' Htrim) as (ts' & rawArr' & Ht' & Hcases).
  rewrite Ht in Ht'. injection Ht' as <- <-. cbn zeta in Hcases.
  destruct Hcases as [(_ & [= ->] & ->) | [(p & e & _ & _ & [=] & _)
    | (p & trimmedRaw & res' & rawRes & Hp & Hr & _ & _ & Hne & [= ->] & ->)]].
  - exists (elems ts), raw. rewrite (chunksOf_templateObject h l ts rawArr Ht), Hraw.
    split; [reflexivity |]. apply Forall_Forall2_diag, Forall_forall.
    intros chunk _. apply erases_refl.
  - exists (PStr <$> (cook <$> trimmedRaw)), trimmedRaw.
    split; [by apply chunksOf_built |].
    rewrite Hraw in Hr. apply (trimmedRawOf_erases p raw (List.length (elems ts)) o trimmedRaw); [| exact Hr].
    intros commonPrefix. exact (choosePrefixPattern_whitespace _ _ _ _ _ Hp).
Qed.

Lemma trimming_takes_out_blanks_only_witness :
  exists res h' cooked trimmedRaw,
    trimCommonWhitespaceFromLines helloStore 1%positive (TrimOptions false false)
    = Some (Ok res, h')
    /\ chunksOf h' res = Some (cooked, PStr <$> trimmedRaw)
    /\ Forall2 (erases (trimmable (TrimOptions false false))) trimmedRaw helloChunks.
Proof.
  eexists _, _.
  assert (H : trimCommonWhitespaceFromLines helloStore 1%positive (TrimOptions false false)
              = Some (Ok _, _)) by (vm_compute; reflexivity).
  destruct (trimming_takes_out_blanks_only helloStore 1%positive _ _ helloChunks
              (TrimOptions false false) _ _ eq_refl eq_refl H)
    as (cooked & trimmedRaw & Hchunks & Hall).
  exists cooked, trimmedRaw. split; [exact H |]. split; [exact Hchunks | exact Hall].
Defined.

Lemma mapM_length {A B} (f : A -> result B) (l : list A) l' :
  mapM f l = Ok l' -> List.length l' = List.length l.
Proof.
  revert l'. induction l as [| x l IH]; intros l'; cbn [mapM].
  - by intros [= <-].
  - destruct (f x) as [y | e]; cbn [bind]; [| discriminate].
    destruct (mapM f l) as [ys | e]; cbn [bind]; [| discriminate].
    intros [= <-]. cbn [List.length]. by rewrite (IH ys).
Qed.

Lemma replaceAt_length f i arr arr' :
  replaceAt f i arr = Ok arr' -> List.length arr' = List.length arr.
Proof.
  unfold replaceAt. destruct (i <? 0); [discriminate |].
  destruct (arr !! Z.to_nat i); [| discriminate].
  intros [= <-]. apply length_insert.
Qed.

(** The trimmer keeps the number of chunks. *)
Lemma trimmedRawOf_length p raw n o trimmedRaw :
  trimmedRawOf p raw n o = Ok trimmedRaw -> List.length trimmedRaw = List.length raw.
Proof.
  unfold trimmedRawOf.
  destruct (mapM (callReplace (replace_prefixPattern p)) raw) as [dedented | e] eqn:Hmap;
    cbn [bind]; [| discriminate].
  apply mapM_length in Hmap. rewrite <- Hmap.
  destruct (trimEolAtStart o).
  - destruct (replaceAt replace_LINE_TERMINATOR_AT_START 0 dedented) as [arr | e] eqn:Hstart;
      cbn [bind]; [| discriminate].
    apply replaceAt_length in Hstart. rewrite <- Hstart.
    destruct (trimEolAtEnd o); [apply replaceAt_length | by intros [= <-]].
  - cbn [bind]. destruct (trimEolAtEnd o); [apply replaceAt_length | by intros [= <-]].
Qed.

Lemma forallb_isString_PStr (l : list jsstring) : forallb isString (PStr <$> l) = true.
Proof. induction l as [| s l IH]; [reflexivity | exact IH]. Qed.

(** X22. The arrays the trimmer builds are a template object for the rest
    of the module: [calledAsTemplateTag] accepts the result with the
    number of chunks as argument count, the validation of the tagged
    functions accepts it with one dynamic value fewer, and it is a sequence
    that is memoized. *)
Theorem trimmed_result_is_a_template_object h l o res h' :
  trimCommonWhitespaceFromLines h l o = Some (Ok res, h') -> res <> l ->
  exists cooked raw,
    chunksOf h l = Some (cooked, raw)
    /\ calledAsTemplateTag h' (VRef res) (VPrim (PNum (Z.of_nat (List.length raw))))
       = Ok (VBool true)
    /\ memoizable h' res = true
    /\ forall dynamicValues,
         (List.length dynamicValues + 1)%nat = List.length raw ->
         requireValidTagInputs h' (VRef res) dynamicValues = Ok ().
Proof.
  intros Htrim Hnew.
  destruct (trim_cases h l o _ h' Htrim) as (ts & rawArr & Ht & Hcases).
  cbn zeta in Hcases.
  destruct Hcases as [(_ & [= ->] & _) | [(p & e & _ & _ & [=] & _)
    | (p & trimmedRaw & res' & rawRes & Hp & Hr & _ & _ & Hne & [= ->] & ->)]];
    [done |].
  apply trimmedRawOf_length in Hr.
  exists (elems ts), (elems rawArr).
  split; [by apply chunksOf_templateObject |].
  set (h' := <[res' := Obj true true (PStr <$> (cook <$> trimmedRaw))
                         {["raw" := VRef rawRes]}]>
               (<[rawRes := Obj true true (PStr <$> trimmedRaw) ∅]> h)).
  assert (Hres : h' !! res' = Some (Obj true true (PStr <$> (cook <$> trimmedRaw))
                                      {["raw" := VRef rawRes]}))
    by apply lookup_insert_eq.
  assert (HrawRes : h' !! rawRes = Some (Obj true true (PStr <$> trimmedRaw) ∅)).
  { unfold h'. rewrite lookup_insert_ne by done. apply lookup_insert_eq. }
  assert (Hlike : forall strings,
            templateLike strings h' (VRef res')
              (VPrim (PNum (Z.of_nat (List.length (elems rawArr)))))).
  { intros strings. eexists res', _, rawRes, _.
    split; [reflexivity |]. split; [exact Hres |]. cbn [isArray frozen props elems].
    split; [reflexivity |]. split; [reflexivity |].
    split; [apply lookup_singleton_eq |]. split; [exact HrawRes |].
    cbn [isArray frozen props elems].
    split; [reflexivity |]. split; [reflexivity |].
    split; [by rewrite !length_fmap, Hr |]. split; [by rewrite !length_fmap |].
    intros _. split; apply forallb_isString_PStr. }
  split; [apply calledAsTemplateTag_templateLike, Hlike |].
  split.
  - unfold memoizable. cbn [Object_isFrozen]. rewrite Hres. cbn [frozen andb].
    rewrite (getProp_raw_array h' res' _ Hres). cbn [props].
    rewrite lookup_singleton_eq. cbn [default from_option id Object_isFrozen].
    by rewrite HrawRes.
  - intros dynamicValues Hcount. apply wellShaped_valid.
    eexists res', _, rawRes, _.
    split; [reflexivity |]. split; [exact Hres |]. cbn [isArray frozen props elems].
    split; [reflexivity |]. split; [apply lookup_singleton_eq |].
    split; [exact HrawRes |]. cbn [isArray frozen props elems].
    split; [reflexivity |]. split; [by rewrite !length_fmap |].
    split; [apply forallb_isString_PStr |]. split; [apply forallb_isString_PStr |].
    rewrite !length_fmap, Hr. exact Hcount.
Qed.

Lemma trimmed_result_is_a_template_object_witness :
  exists res h',
    trimCommonWhitespaceFromLines helloStore 1%positive (TrimOptions false false)
    = Some (Ok res, h')
    /\ res <> 1%positive
    /\ calledAsTemplateTag h' (VRef res) (VPrim (PNum 2)) = Ok (VBool true).
Proof.
  eexists _, _.
  assert (H : trimCommonWhitespaceFromLines helloStore 1%positive (TrimOptions false false)
              = Some (Ok _, _)) by (vm_compute; reflexivity).
  assert (Hne : 4%positive <> 1%positive) by discriminate.
  split; [exact H |]. split; [exact Hne |].
  destruct (trimmed_result_is_a_template_object helloStore 1%positive
              (TrimOptions false false) _ _ H Hne)
    as (cooked & raw & Hchunks & Hdetect & _).
  vm_compute in Hchunks. injection Hchunks as <- <-. exact Hdetect.
Defined.

(** X23. On a chunk sequence whose [raw] is empty, the call returns the
    sequence when no end-of-line option is set, and throws a [TypeError]
    when one is: there is no first and no last chunk to take a line break
    from. *)
Theorem empty_sequence_has_no_line_break_to_trim h l ts rawArr o :
  templateObject h l = Some (ts, rawArr) ->
  elems rawArr = [] ->
  trimCommonWhitespaceFromLines h l o
  = Some (if trimEolAtStart o || trimEolAtEnd o then Throw TypeError else Ok l, h).
Proof.
  intros Ht Hraw.
  assert (Hcommon : commonPrefixOfTemplateStrings (elems rawArr) (List.length (elems ts))
                    = Some []).
  { unfold commonPrefixOfTemplateStrings. by rewrite Hraw. }
  destruct (trimEolAtStart o || trimEolAtEnd o) eqn:Ho.
  - apply (trim_throws h l ts rawArr o NeverMatches).
    + exact Ht.
    + rewrite Hcommon. unfold choosePrefixPattern. by rewrite Ho.
    + rewrite Hraw. unfold trimmedRawOf. cbn [mapM bind].
      destruct (trimEolAtStart o); [reflexivity |]. cbn [orb] in Ho. rewrite Ho.
      cbn [bind]. unfold replaceAt.
      destruct (Z.of_nat (List.length (elems ts)) - 1 <? 0); reflexivity.
  - apply (trim_fast_path h l ts rawArr o Ht).
    rewrite Hcommon. unfold choosePrefixPattern. by rewrite Ho.
Qed.

Lemma empty_sequence_has_no_line_break_to_trim_witness :
  let h := withTemplate 1%positive 2%positive true [] [] ∅ in
  elems (Obj true true [] ∅) = []
  /\ trimCommonWhitespaceFromLines h 1%positive (TrimOptions true false)
     = Some (Throw TypeError, h).
Proof.
  split; [reflexivity |].
  exact (empty_sequence_has_no_line_break_to_trim
           (withTemplate 1%positive 2%positive true [] [] ∅) 1%positive
           (Obj true true [] {["raw" := VRef 2%positive]}) (Obj true true [] ∅)
           (TrimOptions true false) eq_refl eq_refl).
Defined.

Lemma mapM_callReplace_throws f raw :
  forallb isString raw = false -> mapM (callReplace f) raw = Throw TypeError.
Proof.
  induction raw as [| chunk raw IH]; [discriminate |].
  cbn [forallb mapM]. intros H.
  destruct chunk as [| | b | n | | s]; try reflexivity.
  cbn [isString andb] in H. cbn [callReplace bind]. by rewrite (IH H).
Qed.

(** X24. When there is something to trim (a common prefix was found, or an
    end-of-line option is set) and a raw chunk is a primitive other than a
    string (undefined, null, a boolean or a number), the call throws a
    [TypeError] and leaves the store as it was.  (The arrays of the store
    are dense and hold primitives; an object among the chunks, such as a
    [String] object, is not spoken of.) *)
Theorem primitive_chunk_that_is_no_string_throws h l ts rawArr o (chunk : prim) :
  templateObject h l = Some (ts, rawArr) ->
  chunk ∈ elems rawArr -> isString chunk = false ->
  (trimEolAtStart o || trimEolAtEnd o = true
   \/ exists c cp,
        commonPrefixOfTemplateStrings (elems rawArr) (List.length (elems ts))
        = Some (c :: cp)) ->
  trimCommonWhitespaceFromLines h l o = Some (Throw TypeError, h).
Proof.
  intros Ht Hin Hchunk Hslow.
  assert (Hp : exists p,
            choosePrefixPattern
              (commonPrefixOfTemplateStrings (elems rawArr) (List.length (elems ts))) o
            = Some p).
  { unfold choosePrefixPattern. destruct Hslow as [Ho | (c & cp & ->)]; [| eauto].
    rewrite Ho. destruct (commonPrefixOfTemplateStrings _ _) as [[| c cp] |]; eauto. }
  destruct Hp as [p Hp].
  assert (Hsome : forallb isString (elems rawArr) = false).
  { apply not_true_is_false. intros Hall. rewrite forallb_forall in Hall.
    apply list_elem_of_In in Hin. rewrite (Hall chunk Hin) in Hchunk. discriminate. }
  apply (trim_throws h l ts rawArr o p); [exact Ht | exact Hp |].
  unfold trimmedRawOf. by rewrite (mapM_callReplace_throws _ _ Hsome).
Qed.

Lemma primitive_chunk_that_is_no_string_throws_witness :
  let h := withTemplate 1%positive 2%positive true [js "a"] [] ∅ in
  let h := <[2%positive := Obj true true [PNum 5] ∅]> h in
  PNum 5 ∈ [PNum 5] /\ isString (PNum 5) = false
  /\ trimCommonWhitespaceFromLines h 1%positive (TrimOptions false true)
     = Some (Throw TypeError, h).
Proof.
  assert (Hin : PNum 5 ∈ [PNum 5]) by apply list_elem_of_here.
  split; [exact Hin |]. split; [reflexivity |].
  exact (primitive_chunk_that_is_no_string_throws
           (<[2%positive := Obj true true [PNum 5] ∅]>
              (withTemplate 1%positive 2%positive true [js "a"] [] ∅))
           1%positive
           (Obj true true [PStr (js "a")] {["raw" := VRef 2%positive]})
           (Obj true true [PNum 5] ∅)
           (TrimOptions false true) (PNum 5) eq_refl Hin eq_refl (or_introl eq_refl)).
Defined.

(** * Trimming twice *)

Lemma pieces_app_first first s :
  Forall (fun c => isLineTerminator c = false) first ->
  pieces (first ++ s) = (first ++ (pieces s).1, (pieces s).2).
Proof.
  induction 1 as [| c first Hc _ IH]; [cbn [app]; by destruct (pieces s) |].
  cbn [app]. by rewrite pieces_cons, Hc, IH.
Qed.

Lemma pieces_run run : forall s fragment more,
  run <> [] -> Forall (fun c => isLineTerminator c = true) run ->
  pieces s = (fragment, more) -> (fragment <> [] \/ more = []) ->
  pieces (run ++ s) = ([], (run, fragment) :: more).
Proof.
  induction run as [| c run IH]; intros s fragment more Hne Hrun Hs Hinner; [done |].
  apply Forall_cons in Hrun as [Hc Hrun]. cbn [app]. rewrite pieces_cons, Hc.
  destruct run as [| d run].
  - cbn [app]. rewrite Hs. cbn [fst snd].
    destruct fragment as [| a fragment]; [| reflexivity].
    destruct Hinner as [Hinner | ->]; done.
  - by rewrite (IH s fragment more ltac:(done) Hrun Hs Hinner).
Qed.

(** The pieces of a text are the only ones it can be put together from,
    when no fragment but the last is empty. *)
Lemma pieces_joinPieces more : forall first,
  Forall (fun c => isLineTerminator c = false) first ->
  Forall (fun piece : jsstring * jsstring =>
            piece.1 <> []
            /\ Forall (fun c => isLineTerminator c = true) piece.1
            /\ Forall (fun c => isLineTerminator c = false) piece.2) more ->
  Forall (fun piece : jsstring * jsstring => piece.2 <> []) (removelast more) ->
  pieces (joinPieces first more) = (first, more).
Proof.
  induction more as [| [run fragment] more IH]; intros first Hfirst Hmore Hinner.
  - unfold joinPieces. cbn [fmap list_fmap concat].
    rewrite pieces_app_first by done. cbn [pieces fst snd]. by rewrite app_nil_r.
  - apply Forall_cons in Hmore as [(Hne & Hrun & Hfragment) Hmore].
    cbn [fst snd] in Hne, Hrun, Hfragment.
    assert (Hlast : fragment <> [] \/ more = []).
    { destruct more as [| piece more]; [by right | left].
      cbn [removelast] in Hinner. by apply Forall_cons in Hinner as [Hinner _]. }
    assert (Hinner' : Forall (fun piece : jsstring * jsstring => piece.2 <> [])
                        (removelast more)).
    { destruct more as [| piece more]; [constructor |].
      cbn [removelast] in Hinner. by apply Forall_cons in Hinner as [_ Hinner]. }
    specialize (IH fragment Hfragment Hmore Hinner').
    unfold joinPieces in *. rewrite fmap_cons. cbn [concat fst snd].
    rewrite pieces_app_first by done. rewrite <- app_assoc.
    rewrite (pieces_run run _ fragment more Hne Hrun IH Hlast).
    cbn [fst snd]. by rewrite app_nil_r.
Qed.

Lemma removelast_fmap {A B} (f : A -> B) (l : list A) :
  removelast (f <$> l) = f <$> removelast l.
Proof.
  induction l as [| x [| y l] IH]; [reflexivity | reflexivity |].
  rewrite !fmap_cons in *. cbn [removelast] in *. rewrite fmap_cons. by rewrite IH.
Qed.

(** The line fragments of a dedented chunk are those of the chunk without
    the prefix, when none of them but the last is the prefix itself. *)
Lemma lineFragments_dedent prefix chunk :
  Forall (fun fragment => drop (List.length prefix) fragment <> [])
    (removelast (lineFragments chunk)) ->
  lineFragments (dedent prefix chunk) = drop (List.length prefix) <$> lineFragments chunk.
Proof.
  intros Hinner. destruct (pieces_invariant chunk) as (_ & Hfirst & Hmore & _).
  unfold lineFragments, dedent in *.
  rewrite pieces_joinPieces; [cbn [snd]; by rewrite <- !list_fmap_compose | exact Hfirst | |].
  - rewrite Forall_fmap. eapply Forall_impl; [exact Hmore |].
    intros [run fragment] (Hne & Hrun & Hfragment). cbn [fst snd] in *.
    repeat split; try done. by apply Forall_drop.
  - rewrite removelast_fmap, Forall_fmap.
    rewrite removelast_fmap, Forall_fmap in Hinner. exact Hinner.
Qed.

Lemma WS_RUN_exec_drop prefix : forall line,
  prefix `prefix_of` WS_RUN_exec line ->
  WS_RUN_exec (drop (List.length prefix) line)
  = drop (List.length prefix) (WS_RUN_exec line).
Proof.
  induction prefix as [| c prefix IH]; intros line Hp; [reflexivity |].
  destruct line as [| d line]; [by apply prefix_nil_inv in Hp |].
  cbn [WS_RUN_exec] in Hp |- *.
  destruct (isWhitespace d); [| by apply prefix_nil_inv in Hp].
  apply prefix_cons_inv_2 in Hp. cbn [List.length drop]. by apply IH.
Qed.

Lemma commonPrefixOf_app p a b :
  commonPrefixOf (p ++ a) (p ++ b) = p ++ commonPrefixOf a b.
Proof.
  induction p as [| c p IH]; [reflexivity |].
  cbn [app commonPrefixOf]. by rewrite Z.eqb_refl, IH.
Qed.

Lemma fold_commonPrefixOf_app p runs : forall acc,
  fold_left commonPrefixOf (app p <$> runs) (p ++ acc)
  = p ++ fold_left commonPrefixOf runs acc.
Proof.
  induction runs as [| run runs IH]; intros acc; [reflexivity |].
  rewrite fmap_cons. cbn [fold_left]. by rewrite commonPrefixOf_app, IH.
Qed.

(** Without their longest common prefix the strings have none in common. *)
Lemma longestCommonPrefix_drop runs :
  longestCommonPrefix
    (drop (List.length (longestCommonPrefix runs)) <$> runs) = [].
Proof.
  destruct runs as [| run runs]; [reflexivity |].
  pose proof (longestCommonPrefix_common (run :: runs)) as Hcommon.
  remember (longestCommonPrefix (run :: runs)) as p eqn:Hp.
  assert (Hruns : run :: runs = app p <$> (drop (List.length p) <$> (run :: runs))).
  { rewrite <- list_fmap_compose. symmetry. etrans; [| apply list_fmap_id].
    apply Forall_fmap_ext. eapply Forall_impl; [exact Hcommon |].
    intros r [k ->]. cbn. by rewrite drop_app_length. }
  rewrite Hruns in Hp. rewrite !fmap_cons in Hp. rewrite !fmap_cons.
  cbn [longestCommonPrefix] in Hp |- *.
  rewrite fold_commonPrefixOf_app in Hp.
  rewrite <- (app_nil_r p) in Hp at 1. by apply app_inv_head in Hp.
Qed.

Lemma common_is_indentation (raw : list jsstring) :
  LINE_TERMINATORS_exec (ToString (elemAt (PStr <$> raw) 0)) = true ->
  commonPrefixOfTemplateStrings (PStr <$> raw) (List.length raw)
  = Some (commonIndentation raw)
  /\ Forall (fun fragment => commonIndentation raw `prefix_of` WS_RUN_exec fragment)
       (concat (lineFragments <$> raw)).
Proof.
  intros Hlt.
  destruct (activation_first_chunk raw Hlt) as (chunk & raw' & Hchunks & Hchunk).
  assert (Hfragments : concat (lineFragments <$> raw) <> []).
  { rewrite Hchunks, fmap_cons. cbn [concat].
    pose proof (lineFragments_nonempty chunk Hchunk).
    destruct (lineFragments chunk); done. }
  split.
  - rewrite (commonPrefix_is_fold raw Hlt). unfold commonIndentation.
    destruct (concat (lineFragments <$> raw)) as [| fragment fragments]; [done |].
    rewrite fmap_cons. apply foldPrefix_longest.
  - pose proof (longestCommonPrefix_common
                  (WS_RUN_exec <$> concat (lineFragments <$> raw))) as H.
    rewrite Forall_fmap in H. exact H.
Qed.

Lemma templateObject_built (h : heap) res rawRes cooked raw :
  res <> rawRes ->
  templateObject (<[res := Obj true true cooked {["raw" := VRef rawRes]}]>
                    (<[rawRes := Obj true true raw ∅]> h)) res
  = Some (Obj true true cooked {["raw" := VRef rawRes]}, Obj true true raw ∅).
Proof.
  intros Hne. unfold templateObject.
  rewrite lookup_insert_eq. cbn [isArray props].
  rewrite lookup_singleton_eq, lookup_insert_ne by done.
  rewrite lookup_insert_eq. reflexivity.
Qed.

Lemma removelast_elem_of {A} (x : A) (l : list A) : x ∈ removelast l -> x ∈ l.
Proof.
  induction l as [| y [| z l] IH]; [done | intros H; by apply elem_of_nil in H |].
  cbn [removelast]. intros H. apply elem_of_cons in H as [-> | H]; [left | right; by apply IH].
Qed.

Lemma fragments_dedent prefix (raw : list jsstring) :
  Forall (fun fragment => prefix `prefix_of` WS_RUN_exec fragment)
    (concat (lineFragments <$> raw)) ->
  Forall (fun chunk =>
            Forall (fun fragment => fragment <> prefix)
              (removelast (lineFragments chunk))) raw ->
  concat (lineFragments <$> (dedent prefix <$> raw))
  = drop (List.length prefix) <$> concat (lineFragments <$> raw).
Proof.
  induction raw as [| chunk raw' IH]; intros Hall Hbare; [reflexivity |].
  rewrite !fmap_cons in *. cbn [concat] in *.
  apply Forall_app in Hall as [Hchunk Hall].
  apply Forall_cons in Hbare as [Hbare Hbares].
  rewrite fmap_app, IH by done. f_equal.
  apply lineFragments_dedent.
  apply Forall_forall. intros fragment Hin.
  rewrite Forall_forall in Hbare, Hchunk.
  assert (Hp : prefix `prefix_of` fragment).
  { etrans; [exact (Hchunk fragment (removelast_elem_of _ _ Hin))
            | apply WS_RUN_exec_prefix]. }
  destruct Hp as [k ->]. rewrite drop_app_length.
  intros ->. apply (Hbare _ Hin). by rewrite app_nil_r.
Qed.

(** The chunks that have been dedented have no indentation in common any
    more, when no line but the last of a chunk held the indentation and
    nothing else. *)
Lemma dedented_has_no_indentation (raw : list jsstring) :
  Forall (fun fragment => commonIndentation raw `prefix_of` WS_RUN_exec fragment)
    (concat (lineFragments <$> raw)) ->
  Forall (fun chunk =>
            Forall (fun fragment => fragment <> commonIndentation raw)
              (removelast (lineFragments chunk))) raw ->
  commonIndentation (dedent (commonIndentation raw) <$> raw) = [].
Proof.
  intros Hall Hbare. unfold commonIndentation at 1.
  rewrite (fragments_dedent _ raw Hall Hbare), <- list_fmap_compose.
  transitivity (longestCommonPrefix
                  (drop (List.length (commonIndentation raw))
                     <$> (WS_RUN_exec <$> concat (lineFragments <$> raw))));
    [| apply longestCommonPrefix_drop].
  f_equal. rewrite <- list_fmap_compose. apply Forall_fmap_ext.
  eapply Forall_impl; [exact Hall |]. intros fragment Hp. cbn.
  by apply WS_RUN_exec_drop.
Qed.

(** X25. With no end-of-line option, what the trimmer returns comes back
    as it is when it is trimmed again, provided no line but the last of a
    chunk holds the common indentation and nothing else. *)
Theorem trimming_again_changes_nothing h l ts rawArr raw res h' :
  templateObject h l = Some (ts, rawArr) ->
  elems rawArr = PStr <$> raw ->
  List.length (elems ts) = List.length raw ->
  Forall (fun chunk =>
            Forall (fun fragment => fragment <> commonIndentation raw)
              (removelast (lineFragments chunk))) raw ->
  trimCommonWhitespaceFromLines h l (TrimOptions false false) = Some (Ok res, h') ->
  trimCommonWhitespaceFromLines h' res (TrimOptions false false) = Some (Ok res, h').
Proof.
  intros Ht Hraw Hlen Hbare Htrim.
  destruct (trim_cases h l _ _ h' Htrim) as (ts' & rawArr' & Ht' & Hcases).
  rewrite Ht in Ht'. injection Ht' as <- <-. cbn zeta in Hcases.
  destruct Hcases as [(_ & [= ->] & ->) | [(p & e & _ & _ & [=] & _)
    | (p & trimmedRaw & res' & rawRes & Hp & Hr & _ & _ & Hne & [= ->] & ->)]];
    [exact Htrim |].
  clear Htrim. rewrite Hraw, Hlen in Hp, Hr.
  destruct (LINE_TERMINATORS_exec (ToString (elemAt (PStr <$> raw) 0))) eqn:Hlt;
    [| unfold commonPrefixOfTemplateStrings in Hp; rewrite Hlt in Hp; discriminate].
  destruct (common_is_indentation raw Hlt) as [Hcommon Hall].
  destruct (activation_first_chunk raw Hlt) as (chunk & raw' & Hchunks & _).
  assert (Hnonempty : raw <> []) by (by rewrite Hchunks).
  rewrite Hcommon in Hp.
  assert (Hindent : commonIndentation raw <> [] /\
                    p = LineBreakThenPrefix (commonIndentation raw)).
  { destruct (commonIndentation raw) as [| c cp]; [discriminate |].
    cbn in Hp. by injection Hp as <-. }
  destruct Hindent as [Hindent ->].
  pose proof (commonPrefix_whitespace _ _ _ Hcommon) as Hws.
  rewrite (trimmedRawOf_strings _ raw _ Hnonempty) in Hr. injection Hr as <-.
  unfold withoutBoundaryLineBreaks. cbn [trimEolAtStart trimEolAtEnd].
  assert (Hdedent : replace_prefixPattern (LineBreakThenPrefix (commonIndentation raw))
                      <$> raw
                    = dedent (commonIndentation raw) <$> raw).
  { apply list_fmap_ext. intros i c Hc.
    apply (replace_dedent _ Hindent Hws).
    rewrite Forall_concat, Forall_fmap, Forall_lookup in Hall.
    specialize (Hall i c Hc). cbn in Hall.
    eapply Forall_impl; [exact Hall |]. intros fragment Hf. cbn in Hf.
    etrans; [exact Hf | apply WS_RUN_exec_prefix]. }
  rewrite Hdedent.
  set (trimmedRaw := dedent (commonIndentation raw) <$> raw).
  apply (trim_fast_path _ _ _ _ _ (templateObject_built h res' rawRes _ _ Hne)).
  cbn [elems]. rewrite !length_fmap.
  replace (List.length raw) with (List.length trimmedRaw)
    by (unfold trimmedRaw; by rewrite length_fmap).
  destruct (LINE_TERMINATORS_exec (ToString (elemAt (PStr <$> trimmedRaw) 0))) eqn:Hlt';
    [| unfold commonPrefixOfTemplateStrings; by rewrite Hlt'].
  rewrite (proj1 (common_is_indentation trimmedRaw Hlt')).
  unfold trimmedRaw. by rewrite (dedented_has_no_indentation raw Hall Hbare).
Qed.

Lemma trimming_again_changes_nothing_witness :
  exists res h',
    Forall (fun chunk =>
              Forall (fun fragment => fragment <> commonIndentation helloChunks)
                (removelast (lineFragments chunk))) helloChunks
    /\ trimCommonWhitespaceFromLines helloStore 1%positive (TrimOptions false false)
       = Some (Ok res, h')
    /\ res <> 1%positive
    /\ trimCommonWhitespaceFromLines h' res (TrimOptions false false)
       = Some (Ok res, h').
Proof.
  eexists _, _.
  assert (Hbare : Forall (fun chunk =>
                            Forall (fun fragment =>
                                      fragment <> commonIndentation helloChunks)
                              (removelast (lineFragments chunk))) helloChunks).
  { repeat constructor; vm_compute; discriminate. }
  assert (H : trimCommonWhitespaceFromLines helloStore 1%positive (TrimOptions false false)
              = Some (Ok _, _)) by (vm_compute; reflexivity).
  split; [exact Hbare |]. split; [exact H |].
  split; [discriminate |].
  exact (trimming_again_changes_nothing helloStore 1%positive _ _ helloChunks _ _
           eq_refl eq_refl eq_refl Hbare H).
Defined.

(** The proviso is needed: when a line holds the indentation and nothing
    else, taking it off leaves an empty line, which the next split does not
    count, so that trimming again can find more to take off. *)
Example trimming_twice_can_trim_more :
  trimmed [bareIndentChunk] (TrimOptions false false)
  = Some ([[LF; LF] ++ js " a" ++ [LF] ++ js " b"],
          [[LF; LF] ++ js " a" ++ [LF] ++ js " b"])
  /\ trimmed [[LF; LF] ++ js " a" ++ [LF] ++ js " b"] (TrimOptions false false)
     = Some ([[LF; LF] ++ js "a" ++ [LF] ++ js "b"],
             [[LF; LF] ++ js "a" ++ [LF] ++ js "b"]).
Proof. split; vm_compute; reflexivity. Qed.

(** * [TypedString] *)






(** The tests [mints] and [read-only] of the suite. *)
Example test_typed_string_mints :
  exists this,
    TypedString_constructor (PStr (js "foo")) = Ok this
    /\ getOwn this "content" = VStr (js "foo")
    /\ TypedString_toString this = VStr (js "foo").
Proof. eexists. repeat split; reflexivity. Qed.

Example test_typed_string_read_only :
  exists this,
    TypedString_constructor (PStr (js "foo")) = Ok this
    /\ assign this "content" (VStr (js "bar")) = Throw TypeError
    /\ getOwn (after this (Assign "content" (VStr (js "bar")))) "content"
       = VStr (js "foo").
Proof. eexists. repeat split; reflexivity. Qed.

(** An assignment to [toString] gives the object a property of its own,
    which hides the method of the class: [content] is as it was, but
    [toString()] no longer runs the method. *)
Example own_toString_hides_the_method :
  exists this,
    TypedString_constructor (PStr (js "foo")) = Ok this
    /\ getOwn (after this (Assign "toString" (VPrim (PNum 5)))) "content" = VStr (js "foo")
    /\ callToString (after this (Assign "toString" (VPrim (PNum 5)))) = None.
Proof. eexists. repeat split; reflexivity. Qed.
